(** * AutoyoutubeCreation: a shallow embedding of the clip pipeline

    The development follows the scripts of the pipeline:

    - [3combineAll.py]: pairing of narration and video clips by the 4-digit
      identifier in their file names, and the choice of the video filter that
      reconciles the two durations (module [Combine]);
    - [1justMP4Video.py]: the ComfyUI render client (template copy and edits,
      queueing, polling, extraction of the output file record), the download
      of the produced file, the stage-2 loop that fills the clip manifest and
      the stage-6 selection of clips for concatenation (module [Video]), and
      the muxing of the narration under the video in step 6.4 (module [Mux]);
    - [2JustAudio.py] and [0Findavoice.py]: the loops that write one
      narration per content item (module [Narration]), and the file names
      that tie the scripts together (module [Naming]).

    Python values are modelled as they are at run time: JSON data as a tree
    type, IEEE binary64 numbers as [spec_float] with precision 53 and maximal
    exponent 1024, exceptions as an explicit result type, mutable containers
    that are shared between calls (the workflow template) as objects in a
    store.  Everything outside the repository (HTTP server, file system,
    random numbers, [urllib.parse]) is an interface, [Video.Env]; the speech
    model of the narration scripts is the interface [Narration.Voice]. *)

From Stdlib Require Import ZArith Lia Bool Ascii String List.
From Stdlib Require Import SpecFloat DecimalString DecimalFacts DecimalPos DecimalN.
From Stdlib Require Import Permutation Sorted.
From stdpp Require Import base tactics option list strings.

Set Warnings "-register-all".

Open Scope string_scope.
Open Scope list_scope.
Open Scope Z_scope.

(** ** Python run-time model *)

Module Py.

(** Exceptions that the modelled code can raise. *)
Inductive exn :=
| TypeError | KeyError | IndexError | AttributeError | ValueError
| ZeroDivisionError | RuntimeError | RecursionError | OverflowError
| OSError | HTTPError
| UnicodeEncodeError
| KeyboardInterrupt | SystemExit.

(** The exceptions that [except Exception] catches: all but
    [KeyboardInterrupt] and [SystemExit], which derive from [BaseException]
    only. *)
Definition is_Exception (e : exn) : bool :=
  match e with
  | KeyboardInterrupt | SystemExit => false
  | _ => true
  end.

(** Outcome of evaluating an expression: a value or a raised exception. *)
Inductive res (A : Type) :=
| Ok (a : A)
| Raise (e : exn).
Arguments Ok {A} a.
Arguments Raise {A} e.

#[export] Instance res_ret : MRet res := fun A a => Ok a.
#[export] Instance res_bind : MBind res := fun A B f r =>
  match r with Ok a => f a | Raise e => Raise e end.

(** *** binary64 *)

Definition prec : Z := 53.
Definition emax : Z := 1024.

Definition valid_float (x : spec_float) : bool := valid_binary prec emax x.

(** [float(n)] for an integer [n], rounding to nearest even. *)
Definition float_of_int (n : Z) : spec_float := binary_normalize prec emax n 0 false.

Definition fsub : spec_float -> spec_float -> spec_float := SFsub prec emax.
Definition fdiv : spec_float -> spec_float -> spec_float := SFdiv prec emax.
(** [x > y], [x <= y] and [x == y] on floats; all are false on NaN. *)
Definition fgt (x y : spec_float) : bool := SFltb y x.
Definition fle (x y : spec_float) : bool := SFleb x y.
Definition feq (x y : spec_float) : bool := SFeqb x y.

Definition float_is_zero (x : spec_float) : bool :=
  match x with S754_zero _ => true | _ => false end.

(** Python's [/] on floats raises on a zero divisor. *)
Definition py_truediv (x y : spec_float) : res spec_float :=
  if float_is_zero y then Raise ZeroDivisionError else Ok (fdiv x y).

(** [f == n] for a float and an integer, compared exactly. *)
Definition float_eq_int (f : spec_float) (n : Z) : bool :=
  match f with
  | S754_zero _ => n =? 0
  | S754_finite s m e =>
      let sm := if s then Z.neg m else Z.pos m in
      if 0 <=? e then n =? sm * 2 ^ e else n * 2 ^ (- e) =? sm
  | _ => false
  end.

(** [int(f)]: truncation toward zero. *)
Definition int_of_float (f : spec_float) : res Z :=
  match f with
  | S754_zero _ => Ok 0
  | S754_finite s m e =>
      let a := if 0 <=? e then Z.pos m * 2 ^ e else Z.pos m / 2 ^ (- e) in
      Ok (if s then - a else a)
  | S754_infinity _ => Raise OverflowError
  | S754_nan => Raise ValueError
  end.

(** *** JSON data, as [json.load] builds it *)

Inductive json :=
| JNull
| JBool (b : bool)
| JInt (n : Z)
| JFloat (f : spec_float)
| JStr (s : string)
| JList (xs : list json)
| JDict (kvs : list (string * json)).

(** Dictionaries keep insertion order; a key occurs once. *)
Section Dict.
Context {K V : Type} `{EqDecision K}.

Fixpoint dict_get (k : K) (d : list (K * V)) : option V :=
  match d with
  | [] => None
  | (k', v) :: d' => if decide (k = k') then Some v else dict_get k d'
  end.

Definition dict_has (k : K) (d : list (K * V)) : bool :=
  match dict_get k d with Some _ => true | None => false end.

Fixpoint dict_set (k : K) (v : V) (d : list (K * V)) : list (K * V) :=
  match d with
  | [] => [(k, v)]
  | (k', v') :: d' =>
      if decide (k = k') then (k, v) :: d' else (k', v') :: dict_set k v d'
  end.

Definition dict_keys (d : list (K * V)) : list K := map fst d.

End Dict.

(** Substring test, [needle in hay] on two strings. *)
Fixpoint is_prefix (p s : string) : bool :=
  match p, s with
  | EmptyString, _ => true
  | String a p', String b s' => Ascii.eqb a b && is_prefix p' s'
  | String _ _, EmptyString => false
  end.

Fixpoint is_substring (needle hay : string) : bool :=
  is_prefix needle hay ||
  match hay with
  | EmptyString => false
  | String _ hay' => is_substring needle hay'
  end.

(** *** Text that can be written

    A string is held as the bytes of its UTF-8 encoding.  A lone surrogate,
    which [json.loads] accepts in an escape such as ["\ud800"] and which
    UTF-8 cannot hold, is held as the three bytes that the [surrogatepass]
    handler writes for it: [ED], a byte from [A0] to [BF], and one more.  A
    string with such a character cannot be encoded: [print] to the standard
    output, taken to be UTF-8, and [urllib.parse.urlencode] raise
    [UnicodeEncodeError] on it. *)
Definition surrogate_lead (a b : ascii) : bool :=
  (nat_of_ascii a =? 237)%nat && (160 <=? nat_of_ascii b)%nat.

Fixpoint encodable (s : string) : bool :=
  match s with
  | String a rest =>
      match rest with
      | String b _ => negb (surrogate_lead a b)
      | EmptyString => true
      end && encodable rest
  | EmptyString => true
  end.

(** [str(v)] can be encoded.  The text of a number, of a Boolean and of
    [None] is ASCII; the text of a list or of a dictionary writes its
    strings as [repr] does, with a lone surrogate as an escape. *)
Definition printable (v : json) : bool :=
  match v with
  | JStr s => encodable s
  | _ => true
  end.

(** [print(f"...{v1}...{v2}...")] for a message whose own text is fixed:
    the values are the ones that the message interpolates without a format
    or a [repr]. *)
Definition say (values : list json) : res unit :=
  if forallb printable values then Ok tt else Raise UnicodeEncodeError.

(** [urllib.parse.urlencode] of a dictionary with these values: the text
    of every value is quoted, which encodes it as UTF-8. *)
Definition urlencode (values : list json) : res unit :=
  if forallb printable values then Ok tt else Raise UnicodeEncodeError.

(** Truth value of an object. *)
Definition truthy (v : json) : bool :=
  match v with
  | JNull => false
  | JBool b => b
  | JInt n => negb (n =? 0)
  | JFloat f => negb (float_is_zero f)
  | JStr s => negb (String.eqb s "")
  | JList xs => match xs with [] => false | _ => true end
  | JDict kvs => match kvs with [] => false | _ => true end
  end.

(** [a == b].  Numbers compare by value across [bool], [int] and [float];
    dictionaries compare as maps. *)
Fixpoint py_eq (a b : json) {struct a} : bool :=
  match a, b with
  | JNull, JNull => true
  | JBool x, JBool y => Bool.eqb x y
  | JBool x, JInt n | JInt n, JBool x => n =? (if x then 1 else 0)
  | JBool x, JFloat f | JFloat f, JBool x => float_eq_int f (if x then 1 else 0)
  | JInt n, JInt m => n =? m
  | JInt n, JFloat f | JFloat f, JInt n => float_eq_int f n
  | JFloat f, JFloat g => feq f g
  | JStr s, JStr t => String.eqb s t
  | JList xs, JList ys =>
      (fix go (xs ys : list json) : bool :=
         match xs, ys with
         | [], [] => true
         | x :: xs', y :: ys' => py_eq x y && go xs' ys'
         | _, _ => false
         end) xs ys
  | JDict d, JDict d' =>
      (length d =? length d')%nat &&
      (fix go (d : list (string * json)) : bool :=
         match d with
         | [] => true
         | (k, v) :: r =>
             match dict_get k d' with
             | Some v' => py_eq v v'
             | None => false
             end && go r
         end) d
  | _, _ => false
  end.

(** Dictionary keys must be hashable. *)
Definition hashable (v : json) : bool :=
  match v with JList _ | JDict _ => false | _ => true end.

(** [x in c]. *)
Definition py_in (x c : json) : res bool :=
  match c with
  | JDict d =>
      if hashable x
      then Ok (match x with JStr k => dict_has k d | _ => false end)
      else Raise TypeError
  | JList xs => Ok (existsb (py_eq x) xs)
  | JStr s => match x with JStr t => Ok (is_substring t s) | _ => Raise TypeError end
  | _ => Raise TypeError
  end.

(** [len(c)]. *)
Definition py_len (c : json) : res nat :=
  match c with
  | JDict d => Ok (length d)
  | JList xs => Ok (length xs)
  | JStr s => Ok (String.length s)
  | _ => Raise TypeError
  end.

(** [c[k]]. *)
Definition py_getitem (c k : json) : res json :=
  match c with
  | JDict d =>
      if hashable k
      then match k with
           | JStr s => match dict_get s d with Some v => Ok v | None => Raise KeyError end
           | _ => Raise KeyError
           end
      else Raise TypeError
  | JList xs =>
      match k with
      | JInt n =>
          let i := if n <? 0 then n + Z.of_nat (length xs) else n in
          if i <? 0 then Raise IndexError
          else match nth_error xs (Z.to_nat i) with
               | Some v => Ok v
               | None => Raise IndexError
               end
      | JBool b =>
          match nth_error xs (if b then 1%nat else 0%nat) with
          | Some v => Ok v
          | None => Raise IndexError
          end
      | _ => Raise TypeError
      end
  | JStr s =>
      match k with
      | JInt n =>
          let i := if n <? 0 then n + Z.of_nat (String.length s) else n in
          if i <? 0 then Raise IndexError
          else match String.get (Z.to_nat i) s with
               | Some c => Ok (JStr (String c ""))
               | None => Raise IndexError
               end
      | JBool b =>
          match String.get (if b then 1%nat else 0%nat) s with
          | Some c => Ok (JStr (String c ""))
          | None => Raise IndexError
          end
      | _ => Raise TypeError
      end
  | _ => Raise TypeError
  end.

(** [d.get(k, default)]; only dictionaries have the method. *)
Definition py_get (d : json) (k : string) (default : json) : res json :=
  match d with
  | JDict kvs => Ok (match dict_get k kvs with Some v => v | None => default end)
  | _ => Raise AttributeError
  end.

(** [d[k] = v], on a tree value: the updated container. *)
Definition py_setitem (c : json) (k : string) (v : json) : res json :=
  match c with
  | JDict kvs => Ok (JDict (dict_set k v kvs))
  | _ => Raise TypeError
  end.

End Py.

(** ** [3combineAll.py] *)

Module Combine.
Import Py.

(** *** The two file-name patterns

    The fragment of [re] that [wav_pat] and [mp4_pat] use: literal
    characters, [\d], a counted repetition, [+], one capturing group and
    [$].  Matching is by backtracking, in continuation-passing style; the
    continuation receives the rest of the subject and the text of group 1.
    File names are sequences of 8-bit characters, on which [\d] is [0-9]. *)

Inductive cls :=
| CChar (c : ascii)
| CDigit.

Inductive regex :=
| RCls (c : cls)
| RSeq (r1 r2 : regex)
| RRepeat (n : nat) (c : cls)
| RPlus (c : cls)
| RGroup (r : regex)
| REnd
| REmpty.

Definition is_digit (a : ascii) : bool :=
  (48 <=? nat_of_ascii a)%nat && (nat_of_ascii a <=? 57)%nat.

Definition cls_match (c : cls) (a : ascii) : bool :=
  match c with
  | CChar c' => Ascii.eqb c' a
  | CDigit => is_digit a
  end.

Fixpoint rstr (s : string) : regex :=
  match s with
  | EmptyString => REmpty
  | String a s' => RSeq (RCls (CChar a)) (rstr s')
  end.

Definition take_consumed (s rest : string) : string :=
  String.substring 0 (String.length s - String.length rest) s.

Section Matcher.
Context {R : Type}.

(** [c{n}] *)
Fixpoint match_repeat (c : cls) (n : nat) (k : string -> option R) (s : string)
  : option R :=
  match n with
  | O => k s
  | S n' =>
      match s with
      | String a s' => if cls_match c a then match_repeat c n' k s' else None
      | EmptyString => None
      end
  end.

(** [c*], greedy: the longest run first, then shorter ones. *)
Fixpoint match_star (c : cls) (k : string -> option R) (s : string) : option R :=
  match s with
  | String a s' =>
      if cls_match c a
      then match match_star c k s' with
           | Some r => Some r
           | None => k s
           end
      else k s
  | EmptyString => k s
  end.

Fixpoint rmatch (r : regex) (k : string -> option string -> option R)
  (s : string) (g : option string) : option R :=
  match r with
  | RCls c =>
      match s with
      | String a s' => if cls_match c a then k s' g else None
      | EmptyString => None
      end
  | RSeq r1 r2 => rmatch r1 (rmatch r2 k) s g
  | RRepeat n c => match_repeat c n (fun s' => k s' g) s
  | RPlus c =>
      match s with
      | String a s' => if cls_match c a then match_star c (fun s'' => k s'' g) s' else None
      | EmptyString => None
      end
  | RGroup r' => rmatch r' (fun s' _ => k s' (Some (take_consumed s s'))) s g
  | REnd =>
      if decide (s = "") then k s g
      else if decide (s = String "010" "") then k s g
      else None
  | REmpty => k s g
  end.

End Matcher.

(** [pattern.search(s)]: the leftmost match; the result is its group 1. *)
Fixpoint search (r : regex) (s : string) : option (option string) :=
  match rmatch r (fun _ g => Some g) s None with
  | Some g => Some g
  | None =>
      match s with
      | EmptyString => None
      | String _ s' => search r s'
      end
  end.

(** [clip_(\d{4})_narration\.wav$] *)
Definition wav_pat : regex :=
  RSeq (rstr "clip_")
    (RSeq (RGroup (RRepeat 4 CDigit)) (RSeq (rstr "_narration.wav") REnd)).

(** [narrativegen_clip_(\d{4})__\d+\.mp4$] *)
Definition mp4_pat : regex :=
  RSeq (rstr "narrativegen_clip_")
    (RSeq (RGroup (RRepeat 4 CDigit))
       (RSeq (rstr "__") (RSeq (RPlus CDigit) (RSeq (rstr ".mp4") REnd)))).

(** [index_from]: group 1 of the match, [None] without a match. *)
Definition index_from (fname : string) (pattern : regex) : option string :=
  match search pattern fname with
  | Some g => g
  | None => None
  end.

(** *** Pairing (first lines of [main])

    [{index_from(p, pat): p for p in listing}]: a dictionary keyed by the
    result of [index_from], [None] included; a later file replaces an
    earlier one under the same key. *)
Definition index_files (pattern : regex) (listing : list string)
  : list (option string * string) :=
  fold_left (fun d p => dict_set (index_from p pattern) p d) listing [].

(** [set(wavs) & set(mp4s)] *)
Definition common_keys (wavs mp4s : list (option string * string))
  : list (option string) :=
  filter (fun k => dict_has k mp4s = true) (dict_keys wavs).

Fixpoint insert_sorted (x : string) (l : list string) : list string :=
  match l with
  | [] => [x]
  | y :: l' => if String.leb x y then x :: l else y :: insert_sorted x l'
  end.

Definition sort_strings (l : list string) : list string :=
  fold_right insert_sorted [] l.

Fixpoint all_some (l : list (option string)) : option (list string) :=
  match l with
  | [] => Some []
  | Some x :: l' => match all_some l' with Some r => Some (x :: r) | None => None end
  | None :: _ => None
  end.

(** [sorted(keys)] on a set of keys: strings are ordered by code point; with
    two or more keys of which one is [None], comparing [None] with a string
    raises; a single key needs no comparison. *)
Definition py_sorted (keys : list (option string)) : res (list (option string)) :=
  match keys with
  | [] | [_] => Ok keys
  | _ =>
      match all_some keys with
      | Some l => Ok (map Some (sort_strings l))
      | None => Raise TypeError
      end
  end.

(** One iteration's inputs: the key with the narration and the video file. *)
Record pairing := {
  p_idx : option string;
  p_wav : string;
  p_mp4 : string
}.

Definition lookup_pair (wavs mp4s : list (option string * string))
  (idx : option string) : res pairing :=
  match dict_get idx wavs, dict_get idx mp4s with
  | Some w, Some m => Ok {| p_idx := idx; p_wav := w; p_mp4 := m |}
  | _, _ => Raise KeyError
  end.

Fixpoint mapM {A B : Type} (f : A -> res B) (l : list A) : res (list B) :=
  match l with
  | [] => Ok []
  | x :: l' =>
      match f x with
      | Ok y => match mapM f l' with Ok r => Ok (y :: r) | Raise e => Raise e end
      | Raise e => Raise e
      end
  end.

(** The pairs that the loop of [main] goes through, in order, from the
    listings of [*.wav] in the sound directory and [*.mp4] in the video
    directory. *)
Definition pairings (wav_files mp4_files : list string) : res (list pairing) :=
  let wavs := index_files wav_pat wav_files in
  let mp4s := index_files mp4_pat mp4_files in
  match py_sorted (common_keys wavs mp4s) with
  | Raise e => Raise e
  | Ok common =>
      match common with
      | [] => Raise RuntimeError
      | _ => mapM (lookup_pair wavs mp4s) common
      end
  end.

(** *** The video filter for one pair *)

Inductive vfilter :=
| vf_setpts (factor : spec_float)       (* "setpts={factor}*PTS" *)
| vf_tpad (stop_duration : spec_float)  (* "tpad=stop_mode=clone:stop_duration={diff}" *)
| vf_null.                              (* "null" *)

(** The [if]/[elif]/[else] on [diff] in the loop of [main]. *)
Definition choose_filter (a_dur v_dur : spec_float) : res vfilter :=
  let diff := fsub a_dur v_dur in
  if fgt diff (float_of_int 0) && fle diff (float_of_int 4) then
    match py_truediv a_dur v_dur with
    | Ok factor => Ok (vf_setpts factor)
    | Raise e => Raise e
    end
  else if fgt diff (float_of_int 4) then Ok (vf_tpad diff)
  else Ok vf_null.

End Combine.

(** ** [1justMP4Video.py] *)

Module Video.
Import Py.

(** *** Objects in the store

    The workflow template is loaded once and handed to every call of the
    render client, which edits a copy.  Whether the edits reach the template
    depends on which objects are shared, so dictionaries and lists live in a
    store and values refer to them by location. *)

Abbreviation loc := nat.

Inductive pyval :=
| VNone
| VBool (b : bool)
| VInt (n : Z)
| VFloat (f : spec_float)
| VStr (s : string)
| VRef (l : loc).

Inductive pyobj :=
| ODict (kvs : list (string * pyval))
| OList (xs : list pyval).

Abbreviation heap := (list pyobj).

(** *** The environment of the script *)

Class Env := {
  world : Type;
  (** [random.randint(0, 2**32 - 1)] *)
  randint : world -> Z * world;
  (** [POST /prompt] with the workflow: the parsed reply, [None] when the
      request or the parsing of the reply fails *)
  post_prompt : json -> world -> option json * world;
  (** [GET /history/<prompt_id>]: the parsed reply, [None] on any failure *)
  fetch_history : json -> world -> option json * world;
  (** [GET /view?filename=..&subfolder=..&type=..]: status and body of the
      response, or the exception of [urlopen] *)
  fetch_view : json -> json -> json -> world -> res (Z * string) * world;
  (** [os.makedirs(os.path.dirname(path), exist_ok=True)] *)
  makedirs_for : string -> world -> res unit * world;
  (** [open(path, 'wb')] and [write] *)
  write_file : string -> string -> world -> res unit * world;
  (** [os.path.exists] *)
  path_exists : string -> world -> bool;
  (** [os.path.getsize] *)
  getsize : string -> world -> res nat;
  (** [int(s)] on a string *)
  int_of_str : string -> option Z;
  (** [parse_qs(urlparse(uri).query)] *)
  url_query : string -> res (list (string * list string));
  (** [os.path.join(VIDEO_MP4_SUBDIR, name)] *)
  mp4_clip_path : string -> string
}.

(** *** Statuses and manifest entries *)

(** The status strings of the render client and of the stage-2 loop. *)
Inductive status_code :=
| ERROR_WORKFLOW_NOT_LOADED
| ERROR_SAVE_MP4_NODE_MISSING_IN_WORKFLOW
| ERROR_QUEUE_FAILED
| SUCCESS
| ERROR_POTENTIAL_KEY_LACKS_FILENAME
| ERROR_NO_USABLE_KEY_IN_OUTPUT_MP4
| ERROR_SAVE_NODE_NOT_IN_OUTPUTS
| ERROR_TIMEOUT
| SKIPPED_NO_PROMPT
| SUCCESS_MP4_DOWNLOADED
| ERROR_MP4_DOWNLOAD_FAILED
| ERROR_SUCCESS_NO_FILEDATA.

#[export] Instance status_code_eq_dec : EqDecision status_code.
Proof. solve_decision. Defined.

(** The dictionary that the render client returns: ["status"] and, on
    success, ["data"]. *)
Record gen_result := mkResult {
  gr_status : status_code;
  gr_data : option json
}.

Definition failed (s : status_code) : gen_result := mkResult s None.

(** An entry of [clips_manifest]. *)
Record clip_entry := mkEntry {
  clip_id : json;
  clip_order : nat;
  status : status_code;
  comfy_file_info : option json;
  mp4_path : option string
}.

Section WithEnv.
Context `{Env}.

(** The state of a run: the store, the world and the two variables that the
    stage-2 loop updates. *)
Record state := mkState {
  st_heap : heap;
  st_world : world;
  clips_manifest : list clip_entry;
  comfyui_generation_overall_success : bool
}.

(** Computations of the script: they read and write the store and the
    world and end with a value or an exception. *)
Definition M (A : Type) : Type := state -> res A * state.

Definition retM {A} (a : A) : M A := fun st => (Ok a, st).
Definition bindM {A B} (m : M A) (f : A -> M B) : M B := fun st =>
  match m st with
  | (Ok a, st') => f a st'
  | (Raise e, st') => (Raise e, st')
  end.
Definition raiseM {A} (e : exn) : M A := fun st => (Raise e, st).
Definition liftR {A} (r : res A) : M A := fun st => (r, st).

(** [try: m except Exception: h]; what is no [Exception] goes through. *)
Definition catchM {A} (m : M A) (h : exn -> M A) : M A := fun st =>
  match m st with
  | (Ok a, st') => (Ok a, st')
  | (Raise e, st') => if is_Exception e then h e st' else (Raise e, st')
  end.

Definition get_heap : M heap := fun st => (Ok (st_heap st), st).
Definition put_heap (h : heap) : M unit := fun st =>
  (Ok tt, mkState h (st_world st) (clips_manifest st)
            (comfyui_generation_overall_success st)).
(** An operation of the world that yields a result. *)
Definition put_world (w : world) (st : state) : state :=
  mkState (st_heap st) w (clips_manifest st)
    (comfyui_generation_overall_success st).
Definition world_op {A} (f : world -> A * world) : M A := fun st =>
  let '(a, w) := f (st_world st) in (Ok a, put_world w st).
Definition world_try {A} (f : world -> res A * world) : M A := fun st =>
  let '(r, w) := f (st_world st) in (r, put_world w st).
Definition world_read {A} (f : world -> A) : M A := fun st =>
  (Ok (f (st_world st)), st).
Definition world_read_try {A} (f : world -> res A) : M A := fun st =>
  (f (st_world st), st).

(** [clips_manifest.append(e)] *)
Definition append_manifest (e : clip_entry) : M unit := fun st =>
  (Ok tt, mkState (st_heap st) (st_world st) (clips_manifest st ++ [e])
            (comfyui_generation_overall_success st)).
(** [comfyui_generation_overall_success = False] *)
Definition clear_overall_success : M unit := fun st =>
  (Ok tt, mkState (st_heap st) (st_world st) (clips_manifest st) false).

End WithEnv.

Declare Scope M_scope.
Delimit Scope M_scope with M.
Notation "x <- m ;; k" := (bindM m (fun x => k))
  (at level 100, m at next level, right associativity) : M_scope.
Notation "m ;;; k" := (bindM m (fun _ => k))
  (at level 100, right associativity) : M_scope.

Section Store.
Context `{Env}.
Local Open Scope M_scope.

Definition alloc (o : pyobj) : M pyval :=
  h <- get_heap ;;
  put_heap (h ++ [o]) ;;;
  retM (VRef (length h)).

Definition read_obj (l : loc) : M pyobj :=
  h <- get_heap ;;
  match h !! l with
  | Some o => retM o
  | None => raiseM RuntimeError
  end.

Definition write_obj (l : loc) (o : pyobj) : M unit :=
  h <- get_heap ;; put_heap (<[l := o]> h).

(** [v[k]] with a string key *)
Definition h_getitem (v : pyval) (k : string) : M pyval :=
  match v with
  | VRef l =>
      o <- read_obj l ;;
      match o with
      | ODict d =>
          match dict_get k d with
          | Some x => retM x
          | None => raiseM KeyError
          end
      | OList _ => raiseM TypeError
      end
  | _ => raiseM TypeError
  end.

(** [v[k] = x] with a string key *)
Definition h_setitem (v : pyval) (k : string) (x : pyval) : M unit :=
  match v with
  | VRef l =>
      o <- read_obj l ;;
      match o with
      | ODict d => write_obj l (ODict (dict_set k x d))
      | OList _ => raiseM TypeError
      end
  | _ => raiseM TypeError
  end.

Definition val_is_str (k : string) (x : pyval) : bool :=
  match x with VStr s => bool_decide (s = k) | _ => false end.

(** [k in v] for a string [k] *)
Definition h_contains (k : string) (v : pyval) : M bool :=
  match v with
  | VRef l =>
      o <- read_obj l ;;
      match o with
      | ODict d => retM (dict_has k d)
      | OList xs => retM (existsb (val_is_str k) xs)
      end
  | VStr s => retM (is_substring k s)
  | _ => raiseM TypeError
  end.

(** Truth value of [v] *)
Definition h_truthy (v : pyval) : M bool :=
  match v with
  | VNone => retM false
  | VBool b => retM b
  | VInt n => retM (negb (n =? 0))
  | VFloat f => retM (negb (float_is_zero f))
  | VStr s => retM (negb (String.eqb s ""))
  | VRef l =>
      o <- read_obj l ;;
      match o with
      | ODict d => retM (match d with [] => false | _ => true end)
      | OList xs => retM (match xs with [] => false | _ => true end)
      end
  end.

(** [json.load]: the object graph of a JSON text, every container a new
    object. *)
Fixpoint load (j : json) : M pyval :=
  match j with
  | JNull => retM VNone
  | JBool b => retM (VBool b)
  | JInt n => retM (VInt n)
  | JFloat f => retM (VFloat f)
  | JStr s => retM (VStr s)
  | JList xs =>
      vs <- (fix go (xs : list json) : M (list pyval) :=
               match xs with
               | [] => retM []
               | x :: xs' => v <- load x ;; vs <- go xs' ;; retM (v :: vs)
               end) xs ;;
      alloc (OList vs)
  | JDict kvs =>
      d <- (fix go (kvs : list (string * json)) : M (list (string * pyval)) :=
              match kvs with
              | [] => retM []
              | (k, x) :: kvs' => v <- load x ;; d <- go kvs' ;; retM ((k, v) :: d)
              end) kvs ;;
      alloc (ODict d)
  end.

(** [json.dumps]: the tree under [v]; [None] when the encoder gives up (a
    container that contains itself). *)
Fixpoint dump (fuel : nat) (h : heap) (v : pyval) : option json :=
  match v with
  | VNone => Some JNull
  | VBool b => Some (JBool b)
  | VInt n => Some (JInt n)
  | VFloat f => Some (JFloat f)
  | VStr s => Some (JStr s)
  | VRef l =>
      match fuel with
      | O => None
      | S fuel' =>
          match h !! l with
          | Some (OList xs) =>
              xs' ← mapM (dump fuel' h) xs; Some (JList xs')
          | Some (ODict d) =>
              d' ← mapM (λ kv, x ← dump fuel' h kv.2; Some (kv.1, x)) d;
              Some (JDict d')
          | None => None
          end
      end
  end.

Definition dumps (v : pyval) : M (option json) :=
  h <- get_heap ;; retM (dump (S (length h)) h v).

(** [copy.deepcopy], with its memo from originals to copies.  A container
    is registered in the memo before its items are copied.  [fuel] bounds
    the nesting depth, as the interpreter's recursion limit does; the
    number of objects in the store is enough for every object graph. *)
Definition memo := list (loc * loc).

Definition append_item (l' : loc) (y : pyval) : M unit :=
  o <- read_obj l' ;;
  match o with
  | OList ys => write_obj l' (OList (ys ++ [y]))
  | ODict _ => raiseM TypeError
  end.

Fixpoint copy_list (dc : pyval -> memo -> M (pyval * memo)) (l' : loc)
  (xs : list pyval) (mm : memo) : M memo :=
  match xs with
  | [] => retM mm
  | x :: xs' =>
      r <- dc x mm ;;
      let '(y, mm1) := r in
      append_item l' y ;;;
      copy_list dc l' xs' mm1
  end.

Fixpoint copy_dict (dc : pyval -> memo -> M (pyval * memo)) (l' : loc)
  (d : list (string * pyval)) (mm : memo) : M memo :=
  match d with
  | [] => retM mm
  | (k, x) :: d' =>
      r <- dc x mm ;;
      let '(y, mm1) := r in
      h_setitem (VRef l') k y ;;;
      copy_dict dc l' d' mm1
  end.

Fixpoint deepcopy_memo (fuel : nat) (v : pyval) (mm : memo) : M (pyval * memo) :=
  match v with
  | VRef l =>
      match dict_get l mm with
      | Some l' => retM (VRef l', mm)
      | None =>
          match fuel with
          | O => raiseM RecursionError
          | S fuel' =>
              o <- read_obj l ;;
              match o with
              | OList xs =>
                  y <- alloc (OList []) ;;
                  match y with
                  | VRef l' =>
                      mm' <- copy_list (deepcopy_memo fuel') l' xs ((l, l') :: mm) ;;
                      retM (y, mm')
                  | _ => raiseM RuntimeError
                  end
              | ODict d =>
                  y <- alloc (ODict []) ;;
                  match y with
                  | VRef l' =>
                      mm' <- copy_dict (deepcopy_memo fuel') l' d ((l, l') :: mm) ;;
                      retM (y, mm')
                  | _ => raiseM RuntimeError
                  end
              end
          end
      end
  | _ => retM (v, mm)
  end.

Definition deepcopy (v : pyval) : M pyval :=
  h <- get_heap ;;
  r <- deepcopy_memo (length h) v [] ;;
  retM r.1.

End Store.

(** *** Configuration *)

Definition POSITIVE_PROMPT_NODE_ID : string := "6".
Definition KSAMPLER_NODE_ID : string := "3".
Definition EMPTY_LATENT_VIDEO_NODE_ID : string := "40".
Definition SAVE_MP4_NODE_ID : string := "52".
Definition DEFAULT_VIDEO_WIDTH : Z := 832.
Definition DEFAULT_VIDEO_HEIGHT : Z := 480.
Definition DEFAULT_VIDEO_FRAMES : Z := 65.
Definition max_poll_attempts : nat := 360.

Section Client.
Context `{Env}.
Local Open Scope M_scope.

(** *** The file record in the output of the save node
    (the chain of [if]/[elif] in the polling loop) *)

(** ["key" in node_output_data and len(node_output_data["key"]) > 0] *)
Definition has_content (node_output_data : json) (key : string) : res bool :=
  c ← py_in (JStr key) node_output_data;
  if (c : bool) then
    v ← py_getitem node_output_data (JStr key);
    n ← py_len v;
    Ok (0 <? n)%nat
  else Ok false.

(** [node_output_data["key"][0]] *)
Definition first_of (node_output_data : json) (key : string) : res json :=
  v ← py_getitem node_output_data (JStr key);
  py_getitem v (JInt 0).

(** [query_params.get(name, [default])[0]] *)
Definition query_first (query_params : list (string * list string))
  (name : string) (default : json) : res json :=
  match dict_get name query_params with
  | Some (v :: _) => Ok (JStr v)
  | Some [] => Raise IndexError
  | None => Ok default
  end.

(** The branch for ["uris"]: what the first URI gives; [JNull] stands for
    a [found_file_info] that stays [None].  A string URI is printed first;
    the record parsed from it is printed as a dictionary, which writes its
    strings as [repr] does. *)
Definition file_info_of_uri (uri_data : json) : res json :=
  match uri_data with
  | JStr u =>
      _ ← say [uri_data];
      if is_substring "filename=" u then
        query_params ← url_query u;
        fn ← query_first query_params "filename" JNull;
        sf ← query_first query_params "subfolder" (JStr "");
        ty ← query_first query_params "type" (JStr "output");
        Ok (JDict [("filename", fn); ("subfolder", sf); ("type", ty)])
      else Ok JNull
  | JDict _ => Ok uri_data
  | _ => Ok JNull
  end.

(** The value of [found_file_info] after the chain. *)
Definition find_file_info (node_output_data : json) : res json :=
  b ← has_content node_output_data "videos";
  if (b : bool) then first_of node_output_data "videos" else
  b ← has_content node_output_data "files";
  if (b : bool) then first_of node_output_data "files" else
  b ← has_content node_output_data "uris";
  if (b : bool) then
    uri_data ← first_of node_output_data "uris";
    file_info_of_uri uri_data
  else
  b ← has_content node_output_data "gifs";
  if (b : bool) then first_of node_output_data "gifs" else
  b ← has_content node_output_data "images";
  if (b : bool) then first_of node_output_data "images" else
  Ok JNull.

(** [found_file_info and "filename" in found_file_info
     and found_file_info["filename"]] *)
Definition has_filename (found_file_info : json) : res bool :=
  if truthy found_file_info then
    c ← py_in (JStr "filename") found_file_info;
    if (c : bool) then
      fn ← py_getitem found_file_info (JStr "filename");
      Ok (truthy fn)
    else Ok false
  else Ok false.

(** The two defaults put into the record before it is returned. *)
Definition fill_defaults (found_file_info : json) : res json :=
  c ← py_in (JStr "type") found_file_info;
  no_type ← (if (c : bool) then
               t ← py_getitem found_file_info (JStr "type");
               Ok (negb (truthy t))
             else Ok true);
  f1 ← (if (no_type : bool)
        then py_setitem found_file_info "type" (JStr "output")
        else Ok found_file_info);
  c ← py_in (JStr "subfolder") f1;
  if (c : bool) then Ok f1 else py_setitem f1 "subfolder" (JStr "").

(** What the client returns once the save node is in the outputs.  The
    payload is printed through [json.dumps], which writes ASCII; a record
    with a filename is a dictionary, and so is printed as [repr] writes it;
    what was found without a filename is printed as it is. *)
Definition resolve_output (node_output_data : json) : res gen_result :=
  found_file_info ← find_file_info node_output_data;
  ok ← has_filename found_file_info;
  if (ok : bool) then
    data ← fill_defaults found_file_info;
    Ok (mkResult SUCCESS (Some data))
  else if truthy found_file_info
  then
    _ ← say [found_file_info];
    Ok (failed ERROR_POTENTIAL_KEY_LACKS_FILENAME)
  else Ok (failed ERROR_NO_USABLE_KEY_IN_OUTPUT_MP4).

(** *** Polling *)

(** The expressions of the status line, printed on every sixth attempt. *)
Definition status_line (prompt_history : json) : res unit :=
  s ← py_get prompt_history "status" (JDict []);
  status_str ← py_get s "status_str" (JStr "Polling...");
  s ← py_get prompt_history "status" (JDict []);
  e ← py_get s "exec_info" (JDict []);
  q_rem ← py_get e "queue_remaining" (JInt 0);
  say [status_str; q_rem].

(** One iteration of the polling loop on the reply [history]: [Some r] when
    the iteration returns [r], [None] when the loop goes on. *)
Definition poll_step (attempt : nat) (prompt_id : json) (history : option json)
  : res (option gen_result) :=
  match history with
  | None => Ok None
  | Some history =>
      if truthy history then
        c ← py_in prompt_id history;
        if (c : bool) then
          prompt_history ← py_getitem history prompt_id;
          c ← py_in (JStr "outputs") prompt_history;
          if (c : bool) then
            outputs ← py_getitem prompt_history (JStr "outputs");
            c ← py_in (JStr SAVE_MP4_NODE_ID) outputs;
            if (c : bool) then
              node_output_data ← py_getitem outputs (JStr SAVE_MP4_NODE_ID);
              r ← resolve_output node_output_data;
              Ok (Some r)
            else Ok (Some (failed ERROR_SAVE_NODE_NOT_IN_OUTPUTS))
          else
            if (attempt mod 6 =? 0)%nat
            then _ ← status_line prompt_history; Ok None
            else Ok None
        else Ok None
      else Ok None
  end.

(** [comfy_get_history] *)
Definition comfy_get_history (prompt_id : json) : M (option json) :=
  world_op (fetch_history prompt_id).

(** The [for attempt in range(max_poll_attempts)] loop, from [attempt] on
    with [remaining] iterations left, and the [return] after it. *)
Fixpoint poll (remaining attempt : nat) (prompt_id : json) : M gen_result :=
  match remaining with
  | O => retM (failed ERROR_TIMEOUT)
  | S remaining' =>
      history <- comfy_get_history prompt_id ;;
      step <- liftR (poll_step attempt prompt_id history) ;;
      match step with
      | Some r => retM r
      | None => poll remaining' (S attempt) prompt_id
      end
  end.

(** The client from the line that announces the polling on: the job id is
    printed, then the loop runs with its cap of 360 attempts. *)
Definition await_outputs (prompt_id : json) : M gen_result :=
  liftR (say [prompt_id]) ;;;
  poll max_poll_attempts 0 prompt_id.

(** *** The render client *)

(** [int(v)] *)
Definition py_int (v : json) : res Z :=
  match v with
  | JInt n => Ok n
  | JBool b => Ok (if b then 1 else 0)
  | JFloat f => int_of_float f
  | JStr s => match int_of_str s with Some n => Ok n | None => Raise ValueError end
  | _ => Raise TypeError
  end.

(** [comfy_queue_prompt]: any exception inside gives [None]. *)
Definition comfy_queue_prompt (prompt_workflow : pyval) : M (option json) :=
  j <- dumps prompt_workflow ;;
  match j with
  | Some p => world_op (post_prompt p)
  | None => retM None
  end.

Definition run_comfyui_video_generation (video_prompt_text : pyval)
  (base_workflow : pyval) (output_filename_prefix : string)
  (video_frames video_width video_height : json) : M gen_result :=
  loaded <- h_truthy base_workflow ;;
  if negb loaded then retM (failed ERROR_WORKFLOW_NOT_LOADED) else
  workflow_to_run <- deepcopy base_workflow ;;
  node <- h_getitem workflow_to_run POSITIVE_PROMPT_NODE_ID ;;
  inputs <- h_getitem node "inputs" ;;
  h_setitem inputs "text" video_prompt_text ;;;
  new_seed <- world_op randint ;;
  node <- h_getitem workflow_to_run KSAMPLER_NODE_ID ;;
  inputs <- h_getitem node "inputs" ;;
  h_setitem inputs "seed" (VInt new_seed) ;;;
  node <- h_getitem workflow_to_run EMPTY_LATENT_VIDEO_NODE_ID ;;
  latent_inputs <- h_getitem node "inputs" ;;
  n <- liftR (py_int video_frames) ;;
  h_setitem latent_inputs "length" (VInt n) ;;;
  n <- liftR (py_int video_width) ;;
  h_setitem latent_inputs "width" (VInt n) ;;;
  n <- liftR (py_int video_height) ;;
  h_setitem latent_inputs "height" (VInt n) ;;;
  present <- h_contains SAVE_MP4_NODE_ID workflow_to_run ;;
  if negb present then retM (failed ERROR_SAVE_MP4_NODE_MISSING_IN_WORKFLOW) else
  node <- h_getitem workflow_to_run SAVE_MP4_NODE_ID ;;
  inputs <- h_getitem node "inputs" ;;
  h_setitem inputs "filename_prefix" (VStr output_filename_prefix) ;;;
  queued_data <- comfy_queue_prompt workflow_to_run ;;
  match queued_data with
  | None => retM (failed ERROR_QUEUE_FAILED)
  | Some queued_data =>
      if negb (truthy queued_data) then retM (failed ERROR_QUEUE_FAILED) else
      c <- liftR (py_in (JStr "prompt_id") queued_data) ;;
      if negb c then retM (failed ERROR_QUEUE_FAILED) else
      prompt_id <- liftR (py_getitem queued_data (JStr "prompt_id")) ;;
      await_outputs prompt_id
  end.

(** *** Download *)

(** Before the [try] the function prints the subfolder and the type (when
    there is no filename), builds the query with [urlencode], and prints
    the URL, which is ASCII, and the target path.  Inside the [try] the
    messages interpolate the path and the filename again, numbers, the text
    of the response, which is decoded with its errors ignored, and the text
    of the exception; the exceptions of [os] and [urllib] quote the names
    that they mention as [repr] does, so that these texts can be encoded.
    An exception that is no [Exception] goes through both handlers. *)
Definition download_comfy_output (filename subfolder file_type : json)
  (target_local_path : string) : M bool :=
  if negb (truthy filename) then
    liftR (say [subfolder; file_type]) ;;;
    retM false
  else
  liftR (urlencode [filename; subfolder; file_type]) ;;;
  liftR (say [JStr target_local_path]) ;;;
  catchM
    (world_try (makedirs_for target_local_path) ;;;
     response <- world_try (fetch_view filename subfolder file_type) ;;
     let '(response_status, body) := response in
     if response_status =? 200 then
       world_try (write_file target_local_path body) ;;;
       present <- world_read (path_exists target_local_path) ;;
       if (present : bool) then
         size <- world_read_try (getsize target_local_path) ;;
         if (0 <? size)%nat then
           world_read_try (getsize target_local_path) ;;;
           retM true
         else retM false
       else retM false
     else retM false)
    (fun _ => retM false).

End Client.

(** *** Stage 2: one clip per content item *)

(** [f"{item_id:04d}"] *)
Definition pad_zeros (width : nat) (digits : string) : string :=
  String.concat "" (repeat "0" (width - String.length digits)) +:+ digits.

Definition format_04d (item_id : json) : res string :=
  let fmt (n : Z) :=
    let digits := NilZero.string_of_uint (N.to_uint (Z.to_N (Z.abs n))) in
    if n <? 0 then "-" +:+ pad_zeros 3 digits else pad_zeros 4 digits in
  match item_id with
  | JInt n => Ok (fmt n)
  | JBool b => Ok (fmt (if b then 1 else 0))
  | JFloat _ | JStr _ => Raise ValueError
  | _ => Raise TypeError
  end.

(** [video_prompt[:50]], evaluated for the progress line; only its failure
    matters here. *)
Definition slice_prompt (video_prompt : json) : res unit :=
  match video_prompt with
  | JStr _ | JList _ => Ok tt
  | _ => Raise TypeError
  end.

(** [name.lower().endswith(".mp4")]; only the letters [A-Z] can become a
    character of the suffix. *)
Definition lower_ascii (a : ascii) : ascii :=
  let n := nat_of_ascii a in
  if (65 <=? n)%nat && (n <=? 90)%nat then ascii_of_nat (n + 32) else a.

Fixpoint lower (s : string) : string :=
  match s with
  | EmptyString => EmptyString
  | String a s' => String (lower_ascii a) (lower s')
  end.

Definition ends_with (suffix s : string) : bool :=
  (String.length suffix <=? String.length s)%nat &&
  String.eqb
    (String.substring (String.length s - String.length suffix)
       (String.length suffix) s)
    suffix.

Definition ends_with_mp4 (name : string) : bool :=
  ends_with ".mp4" (lower name).

Section Stages.
Context `{Env}.
Local Open Scope M_scope.

(** The [if current_clip_status == "SUCCESS"] branch: status, file record
    and local path of the entry. *)
Definition fetch_clip (generation_result : gen_result)
  : M (status_code * option json * option string) :=
  let comfy_file_info_dict := gr_data generation_result in
  let no_file_data :=
    clear_overall_success ;;;
    retM (ERROR_SUCCESS_NO_FILEDATA, comfy_file_info_dict, None) in
  match comfy_file_info_dict with
  | Some info =>
      if truthy info then
        fn <- liftR (py_get info "filename" JNull) ;;
        if truthy fn then
          retrieved_filename <-
            match fn with
            | JStr name =>
                retM (if ends_with_mp4 name then name else name +:+ ".mp4")
            | _ => raiseM AttributeError
            end ;;
          let local_mp4_storage_path := mp4_clip_path retrieved_filename in
          filename <- liftR (py_getitem info (JStr "filename")) ;;
          subfolder <- liftR (py_get info "subfolder" (JStr "")) ;;
          file_type <- liftR (py_get info "type" (JStr "output")) ;;
          downloaded <- download_comfy_output filename subfolder file_type
                          local_mp4_storage_path ;;
          if (downloaded : bool) then
            retM (SUCCESS_MP4_DOWNLOADED, comfy_file_info_dict,
                  Some local_mp4_storage_path)
          else
            clear_overall_success ;;;
            retM (ERROR_MP4_DOWNLOAD_FAILED, comfy_file_info_dict, None)
        else no_file_data
      else no_file_data
  | None => no_file_data
  end.

(** The body of the loop over [enumerate(content_items)]. *)
Definition process_item (base_workflow : pyval) (i : nat) (item : json) : M unit :=
  item_id <- liftR (py_get item "id" (JInt (Z.of_nat i + 1))) ;;
  video_prompt <- liftR (py_get item "image_prompt" JNull) ;;
  if negb (truthy video_prompt) then
    append_manifest (mkEntry item_id i SKIPPED_NO_PROMPT None None)
  else
    frames <- liftR (py_get item "duration_frames" (JInt DEFAULT_VIDEO_FRAMES)) ;;
    width <- liftR (py_get item "width" (JInt DEFAULT_VIDEO_WIDTH)) ;;
    height <- liftR (py_get item "height" (JInt DEFAULT_VIDEO_HEIGHT)) ;;
    safe_item_id_str <- liftR (format_04d item_id) ;;
    let output_prefix_for_comfy := "narrativegen_clip_" +:+ safe_item_id_str +:+ "_" in
    liftR (slice_prompt video_prompt) ;;;
    prompt_value <- load video_prompt ;;
    generation_result <-
      run_comfyui_video_generation prompt_value base_workflow
        output_prefix_for_comfy frames width height ;;
    outcome <-
      (if decide (gr_status generation_result = SUCCESS)
       then fetch_clip generation_result
       else
         clear_overall_success ;;;
         retM (gr_status generation_result, None, None)) ;;
    let '(current_clip_status, comfy_file_info_dict, local_mp4_storage_path) :=
      outcome in
    append_manifest
      (mkEntry item_id i current_clip_status comfy_file_info_dict
         local_mp4_storage_path).

Fixpoint stage2_loop (base_workflow : pyval) (i : nat) (content_items : list json)
  : M unit :=
  match content_items with
  | [] => retM tt
  | item :: rest =>
      process_item base_workflow i item ;;;
      stage2_loop base_workflow (S i) rest
  end.

(** [clips_manifest = []], the flag set, then the loop. *)
Definition stage2 (base_workflow : pyval) (content_items : list json) : M unit :=
  (fun st => (Ok tt, mkState (st_heap st) (st_world st) [] true)) ;;;
  stage2_loop base_workflow 0 content_items.

(** *** Stage 6: the clips to concatenate *)

(** [list.sort] is stable: an entry goes before the entries of the same or
    a larger key that followed it. *)
Fixpoint insert_by_order (e : clip_entry) (l : list clip_entry) : list clip_entry :=
  match l with
  | [] => [e]
  | x :: l' =>
      if (clip_order e <=? clip_order x)%nat then e :: l
      else x :: insert_by_order e l'
  end.

(** [clips_manifest.sort(key=lambda x: x.get("clip_order", float('inf')))];
    every entry has the key. *)
Definition sort_manifest (m : list clip_entry) : list clip_entry :=
  fold_right insert_by_order [] m.

(** The condition under which a clip is taken. *)
Definition clip_is_valid (w : world) (clip_info : clip_entry) : bool :=
  bool_decide (status clip_info = SUCCESS_MP4_DOWNLOADED) &&
  match mp4_path clip_info with
  | Some p => negb (String.eqb p "") && path_exists p w
  | None => false
  end.

Definition collect_valid (w : world) (m : list clip_entry) : list string :=
  omap (fun clip_info =>
          if clip_is_valid w clip_info then mp4_path clip_info else None) m.

(** [valid_mp4_paths_for_concat] for a manifest. *)
Definition valid_mp4_paths_for_concat (w : world) (m : list clip_entry)
  : list string :=
  collect_valid w (sort_manifest m).

(** The start of stage 6: the manifest is sorted in place and the paths
    are collected. *)
Definition stage6_collect : M (list string) := fun st =>
  let sorted := sort_manifest (clips_manifest st) in
  (Ok (collect_valid (st_world st) sorted),
   mkState (st_heap st) (st_world st) sorted
     (comfyui_generation_overall_success st)).

End Stages.

End Video.

(** ** File names of narrations and clips *)

Module Naming.
Import Py Video.

(** [f"clip_{cid:04d}_narration.wav"], the name under which the narration
    scripts save the clip of an item. *)
Definition narration_file_name (cid : json) : res string :=
  s ← format_04d cid;
  Ok ("clip_" +:+ s +:+ "_narration.wav").

(** [f"narrativegen_clip_{safe_item_id_str}_"], the prefix that stage 2
    passes to the save node. *)
Definition output_prefix_for_comfy (item_id : json) : res string :=
  s ← format_04d item_id;
  Ok ("narrativegen_clip_" +:+ s +:+ "_").

(** The file that the save node writes under the prefix: the prefix, an
    underscore, a counter and [.mp4]; this is the name that [mp4_pat]
    expects. *)
Definition clip_file_name (item_id : json) (counter : string) : res string :=
  prefix ← output_prefix_for_comfy item_id;
  Ok (prefix +:+ "_" +:+ counter +:+ ".mp4").

(** The pair of the item: its index, its narration and its clip. *)
Definition pair_of_item (item_id : json) (counter : string)
  : res Combine.pairing :=
  s ← format_04d item_id;
  w ← narration_file_name item_id;
  m ← clip_file_name item_id counter;
  Ok {| Combine.p_idx := Some s; Combine.p_wav := w; Combine.p_mp4 := m |}.

(** The number that a string of digits writes. *)
Definition number_of (s : string) : option Z :=
  match NilEmpty.uint_of_string s with
  | Some u => Some (Z.of_N (N.of_uint u))
  | None => None
  end.

(** [:04d] writes the number [k] so that it can be read back. *)
Definition read_back (k : nat) : bool :=
  match format_04d (JInt (Z.of_nat k)) with
  | Ok s => bool_decide (number_of s = Some (Z.of_nat k))
  | Raise _ => false
  end.

(** A string of decimal digits. *)
Fixpoint all_digits (s : string) : bool :=
  match s with
  | EmptyString => true
  | String a s' => Combine.is_digit a && all_digits s'
  end.

Definition four_digits (s : string) : bool :=
  (String.length s =? 4)%nat && all_digits s.

(** [P] holds of every number below [n]. *)
Fixpoint all_below (P : nat -> bool) (n : nat) : bool :=
  match n with
  | O => true
  | S n' => P n' && all_below P n'
  end.

(** [:04d] writes the number [k] with four digits. *)
Definition written_with_four_digits (k : nat) : bool :=
  match format_04d (JInt (Z.of_nat k)) with
  | Ok s => four_digits s
  | Raise _ => false
  end.

End Naming.

(** *** Pairing, in the words of the specification *)

Module PairingSpec.
Import Py Combine.

(** The identifier [id] has a narration among [wav_files] and a clip among
    [mp4_files]. *)
Definition in_both (wav_files mp4_files : list string) (id : string) : Prop :=
  (exists w, In w wav_files /\ index_from w wav_pat = Some id) /\
  (exists m, In m mp4_files /\ index_from m mp4_pat = Some id).

(** A pair of a narration and a clip of the listings with the same index. *)
Definition valid_pairing (wav_files mp4_files : list string) (p : pairing) : Prop :=
  exists id,
    p_idx p = Some id /\
    In (p_wav p) wav_files /\ index_from (p_wav p) wav_pat = Some id /\
    In (p_mp4 p) mp4_files /\ index_from (p_mp4 p) mp4_pat = Some id.

(** The order of the identifiers, by code point. *)
Definition id_lt (a b : string) : Prop := String.ltb a b = true.
Definition id_le (a b : string) : Prop := String.leb a b = true.

(** A listing holds a file that the pattern rejects. *)
Definition has_unindexed (pattern : regex) (files : list string) : Prop :=
  exists f, In f files /\ index_from f pattern = None.

(** What the theorem on the pairs says of a result of [pairings]. *)
Definition pairs_the_common_ids (wav_files mp4_files : list string)
  (r : res (list pairing)) : Prop :=
  match r with
  | Ok ps =>
      ps <> [] /\
      Forall (valid_pairing wav_files mp4_files) ps /\
      (forall id, in_both wav_files mp4_files id <-> In (Some id) (map p_idx ps)) /\
      exists ids, map p_idx ps = map Some ids /\ Sorted id_lt ids
  | Raise e =>
      e = RuntimeError /\ forall id, ~ in_both wav_files mp4_files id
  end.

(** What happens to the files that the patterns reject when both listings
    hold one: they are paired with each other, or the sort fails. *)
Definition pairs_the_unindexed (wav_files mp4_files : list string)
  (r : res (list pairing)) : Prop :=
  match r with
  | Ok ps =>
      (forall id, ~ in_both wav_files mp4_files id) /\
      exists w m,
        ps = [{| p_idx := None; p_wav := w; p_mp4 := m |}] /\
        In w wav_files /\ index_from w wav_pat = None /\
        In m mp4_files /\ index_from m mp4_pat = None
  | Raise e =>
      e = TypeError /\ exists id, in_both wav_files mp4_files id
  end.

(** No file without an index on both sides at once. *)
Definition unindexed_on_one_side_only (wav_files mp4_files : list string) : Prop :=
  forall w m,
    In w wav_files -> In m mp4_files ->
    index_from w wav_pat = None -> index_from m mp4_pat = None -> False.

End PairingSpec.

(** ** [1justMP4Video.py], step 6.4: the narration under the video *)

Module Mux.
Import Py.

(** The two calls of [run_ffmpeg_command] of the step. *)
Inductive command :=
| extend_command (input : string) (padding_tpad_duration : spec_float)
    (output : string)
| mux_command (mux_video_input narration_file_path final_video_path : string).

(** How the step ends: at its last line, or at the read of a name that
    no assignment has bound. *)
Inductive ending :=
| Finished
| NameError (name : string).

(** What the step has done: the commands it ran, in order, the files it
    asked to remove, and its ending. *)
Record trace := mkTrace {
  ran : list command;
  removed : list string;
  ended : ending
}.

(** What the step is told: whether the narration file exists, the two
    results of [get_media_duration] ([None] when the duration could not be
    read), the results of [run_ffmpeg_command], and whether the extended
    video exists at the end. *)
Record answers := mkAnswers {
  narration_exists : bool;
  video_duration : option spec_float;
  audio_duration : option spec_float;
  run_ffmpeg_command : command -> bool;
  temp_exists : bool
}.

Section Step.
Variables concatenated_video_path temp_extended_video_path_value
  final_video_path : string.

(** The cleanup at the end of the step.  [mux_video_input] and
    [temp_extended_video_path] are bound in the branch with two durations
    only; the comparison reads the left name first. *)
Definition cleanup (mux_video_input temp_extended_video_path : option string)
  (a : answers) (cmds : list command) : trace :=
  match mux_video_input with
  | None => mkTrace cmds [] (NameError "mux_video_input")
  | Some m =>
      match temp_extended_video_path with
      | None => mkTrace cmds [] (NameError "temp_extended_video_path")
      | Some t =>
          if String.eqb m t && temp_exists a
          then mkTrace cmds [t] Finished
          else mkTrace cmds [] Finished
      end
  end.

(** Step 6.4 for the narration path that stage 4 has left ([None] when no
    narration was generated). *)
Definition step_6_4 (narration_file_path : option string) (a : answers) : trace :=
  match narration_file_path with
  | Some narration =>
      if negb (String.eqb narration "") && narration_exists a then
        match video_duration a, audio_duration a with
        | Some v, Some au =>
            let mux_video_input := concatenated_video_path in
            let temp_extended_video_path := temp_extended_video_path_value in
            if fgt au v then
              let padding_tpad_duration := au in
              let extend :=
                extend_command concatenated_video_path padding_tpad_duration
                  temp_extended_video_path in
              let mux_video_input :=
                if run_ffmpeg_command a extend then temp_extended_video_path
                else mux_video_input in
              let mux := mux_command mux_video_input narration final_video_path in
              cleanup (Some mux_video_input) (Some temp_extended_video_path) a
                [extend; mux]
            else
              let mux := mux_command mux_video_input narration final_video_path in
              cleanup (Some mux_video_input) (Some temp_extended_video_path) a
                [mux]
        | _, _ =>
            let mux :=
              mux_command concatenated_video_path narration final_video_path in
            cleanup None None a [mux]
        end
      else mkTrace [] [] Finished
  | None => mkTrace [] [] Finished
  end.

End Step.

(** The step goes into the muxing: there is a narration file. *)
Definition narration_usable (narration_file_path : option string) (a : answers)
  : Prop :=
  exists narration,
    narration_file_path = Some narration /\ narration <> "" /\
    narration_exists a = true.

End Mux.

(** ** [2JustAudio.py] and [0Findavoice.py]: one narration per item *)

Module Narration.
Import Py Naming.

(** What a call into the speech model, into numpy or into the file system
    gives: a value, or an exception together with the text that [str(e)]
    gives for it. *)
Inductive outcome (A : Type) : Type :=
| Returned (a : A)
| Failed (e : exn) (message : string).

Arguments Returned {A} a.
Arguments Failed {A} e message.

(** What the two scripts call: the speech model and the file system. *)
Class Voice := {
  vworld : Type;
  audio : Type;
  (** [dia.generate(text, ...)] *)
  generate : string -> vworld -> outcome audio * vworld;
  (** [np.concatenate([wav, pad])] *)
  concatenate_pad : audio -> outcome audio;
  (** [dia.save_audio(path, audio)] *)
  save_audio : string -> audio -> vworld -> outcome unit * vworld;
  (** [str.rstrip] and [str.strip] *)
  rstrip : string -> string;
  strip : string -> string;
  (** the output directory joined with a file name *)
  out_path : string -> string
}.

Definition newline : string := String (ascii_of_nat 10) "".

Definition REF_TRANSCRIPT : string :=
  "[S1] We pry open a rusty manhole, and billowing steam invites us downward like a theatrical curtain rising for adventure.".

(** The text of the exception that [:04d] raises on an identifier that is
    not a number. *)
Definition format_error_text (cid : json) : string :=
  match cid with
  | JStr _ => "Unknown format code 'd' for object of type 'str'"
  | JFloat _ => "Unknown format code 'd' for object of type 'float'"
  | JNull => "unsupported format string passed to NoneType.__format__"
  | JList _ => "unsupported format string passed to list.__format__"
  | JDict _ => "unsupported format string passed to dict.__format__"
  | JInt _ | JBool _ => ""
  end.

(** The [except Exception as e] clause of both scripts, which prints the
    identifier and the text of the exception: [false] when the clause came
    to its end.  An exception that is not an [Exception] is not caught,
    and the print raises when it cannot encode what it is given.
    [traceback.print_exc] writes to the error stream, which escapes what it
    cannot encode. *)
Definition report_error (cid : json) (e : exn) (message : string) : res bool :=
  if is_Exception e then
    _ ← say [cid; JStr message];
    Ok false
  else Raise e.

Section Loops.
Context `{Voice}.

(** [itm.get("commentary", "").rstrip()], with the method given: an object
    that is not a string has no such method. *)
Definition commentary (trim : string -> string) (itm : json) : res string :=
  v ← py_get itm "commentary" (JStr "");
  match v with
  | JStr s => Ok (trim s)
  | _ => Raise AttributeError
  end.

(** The [try] statement of [2JustAudio.py]: [true] when the block came to
    its end, [false] when the [except] clause ran to its end, and the
    exception that leaves the statement otherwise.  The file name is
    formatted inside the block, after the speech is generated; the line
    printed at the end of the block holds the number that [:04d] wrote and
    the file name. *)
Definition clone_try (cid : json) (line : string) (w : vworld)
  : res bool * vworld :=
  let prompt := REF_TRANSCRIPT +:+ newline +:+ line +:+ newline in
  match generate prompt w with
  | (Failed e message, w1) => (report_error cid e message, w1)
  | (Returned wav, w1) =>
      match concatenate_pad wav with
      | Failed e message => (report_error cid e message, w1)
      | Returned wav_out =>
          match narration_file_name cid with
          | Raise e => (report_error cid e (format_error_text cid), w1)
          | Ok name =>
              match save_audio (out_path name) wav_out w1 with
              | (Failed e message, w2) => (report_error cid e message, w2)
              | (Returned _, w2) => (Ok true, w2)
              end
          end
      end
  end.

(** The loop of [2JustAudio.py] from the item with the number [idx] on,
    with [ok] files written so far; it returns [ok]. *)
Fixpoint clone_loop (items : list json) (idx : nat) (ok : nat) (w : vworld)
  : res nat * vworld :=
  match items with
  | [] => (Ok ok, w)
  | itm :: rest =>
      match py_get itm "id" (JInt (Z.of_nat idx)) with
      | Raise e => (Raise e, w)
      | Ok cid =>
          match commentary rstrip itm with
          | Raise e => (Raise e, w)
          | Ok line =>
              if String.eqb line "" then clone_loop rest (S idx) ok w
              else
                match clone_try cid line w with
                | (Raise e, w') => (Raise e, w')
                | (Ok done, w') =>
                    clone_loop rest (S idx) (if done then S ok else ok) w'
                end
          end
      end
  end.

(** The [try] statement of [0Findavoice.py]. *)
Definition default_try (cid : json) (file_name text : string) (w : vworld)
  : res bool * vworld :=
  match generate text w with
  | (Failed e message, w1) => (report_error cid e message, w1)
  | (Returned a, w1) =>
      match save_audio (out_path file_name) a w1 with
      | (Failed e message, w2) => (report_error cid e message, w2)
      | (Returned _, w2) => (Ok true, w2)
      end
  end.

(** The loop of [0Findavoice.py]: an item without text is reported with
    its identifier and skipped; the file name is formatted before the
    [try] statement, and the line printed after it holds the number that
    [:04d] wrote and the file name. *)
Fixpoint default_loop (items : list json) (idx : nat) (ok : nat) (w : vworld)
  : res nat * vworld :=
  match items with
  | [] => (Ok ok, w)
  | itm :: rest =>
      match py_get itm "id" (JInt (Z.of_nat idx)) with
      | Raise e => (Raise e, w)
      | Ok cid =>
          match commentary strip itm with
          | Raise e => (Raise e, w)
          | Ok text =>
              if String.eqb text "" then
                match say [cid] with
                | Raise e => (Raise e, w)
                | Ok _ => default_loop rest (S idx) ok w
                end
              else
                match narration_file_name cid with
                | Raise e => (Raise e, w)
                | Ok file_name =>
                    match default_try cid file_name text w with
                    | (Raise e, w') => (Raise e, w')
                    | (Ok done, w') =>
                        default_loop rest (S idx)
                          (if done then S ok else ok) w'
                    end
                end
          end
      end
  end.

(** A call that raises only what [except Exception] catches, with a text
    that can be printed. *)
Definition reportable {A : Type} (o : outcome A) : Prop :=
  match o with
  | Returned _ => True
  | Failed e message => is_Exception e = true /\ encodable message = true
  end.

(** The speech model, numpy and the file system raise only such
    exceptions. *)
Definition raises_reportably : Prop :=
  (forall text w, reportable (fst (generate text w))) /\
  (forall wav, reportable (concatenate_pad wav)) /\
  (forall path a w, reportable (fst (save_audio path a w))).

End Loops.

(** An item as the scripts expect it: an object whose commentary, when it
    has one, is a string. *)
Definition plain_item (itm : json) : Prop :=
  exists d, itm = JDict d /\
            match dict_get "commentary" d with
            | Some v => exists s, v = JStr s
            | None => True
            end.

(** An item whose identifier, when it has one, can be printed. *)
Definition printable_id (itm : json) : Prop :=
  forall d, itm = JDict d ->
            match dict_get "id" d with
            | Some v => printable v = true
            | None => True
            end.

(** A model for the examples: speech is the text itself, trimming leaves
    the text as it is (the examples have no blanks at the ends), and the
    world is the list of the files written. *)
#[export] Instance script_voice : Voice := {|
  vworld := list string;
  audio := string;
  generate := fun text w => (Returned text, w);
  concatenate_pad := fun a => Returned a;
  save_audio := fun path _ w => (Returned tt, w ++ [path]);
  rstrip := fun s => s;
  strip := fun s => s;
  out_path := fun name => "sound_outputs/individual_narrations/" +:+ name
|}.

(** The world in which no file is written yet. *)
Definition silence : vworld := ([] : list string).

(** Three items; the second has a string for its identifier. *)
Definition items_with_a_string_id : list json :=
  [JDict [("id", JInt 1); ("commentary", JStr "[S1] One.")];
   JDict [("id", JStr "two"); ("commentary", JStr "[S1] Two.")];
   JDict [("id", JInt 3); ("commentary", JStr "[S1] Three.")]].

End Narration.

(** ** A scripted environment

    An instance of [Video.Env] in which the server's replies are read off
    lists and the file system is a table from paths to contents.  It runs
    the model on concrete inputs. *)

Module Script.
Import Py Video.

Record sworld := mkWorld {
  sw_seeds : list Z;                      (* results of [randint] *)
  sw_post_replies : list (option json);   (* replies to [POST /prompt] *)
  sw_posted : list json;                  (* workflows sent so far *)
  sw_history : list (option json);        (* replies to [GET /history] *)
  sw_views : list (res (Z * string));     (* replies to [GET /view] *)
  sw_dirs : list string;
  sw_files : list (string * string)
}.

Definition s_randint (w : sworld) : Z * sworld :=
  match sw_seeds w with
  | [] => (0, w)
  | z :: r =>
      (z, mkWorld r (sw_post_replies w) (sw_posted w) (sw_history w)
            (sw_views w) (sw_dirs w) (sw_files w))
  end.

Definition s_post_prompt (p : json) (w : sworld) : option json * sworld :=
  let reply := match sw_post_replies w with [] => None | r :: _ => r end in
  (reply, mkWorld (sw_seeds w) (tail (sw_post_replies w)) (sw_posted w ++ [p])
            (sw_history w) (sw_views w) (sw_dirs w) (sw_files w)).

Definition s_fetch_history (prompt_id : json) (w : sworld) : option json * sworld :=
  let reply := match sw_history w with [] => None | r :: _ => r end in
  (reply, mkWorld (sw_seeds w) (sw_post_replies w) (sw_posted w)
            (tail (sw_history w)) (sw_views w) (sw_dirs w) (sw_files w)).

Definition s_fetch_view (filename subfolder file_type : json) (w : sworld)
  : res (Z * string) * sworld :=
  let reply := match sw_views w with [] => Raise HTTPError | r :: _ => r end in
  (reply, mkWorld (sw_seeds w) (sw_post_replies w) (sw_posted w)
            (sw_history w) (tail (sw_views w)) (sw_dirs w) (sw_files w)).

Definition s_makedirs_for (path : string) (w : sworld) : res unit * sworld :=
  (Ok tt, mkWorld (sw_seeds w) (sw_post_replies w) (sw_posted w)
            (sw_history w) (sw_views w) (path :: sw_dirs w) (sw_files w)).

Definition s_write_file (path body : string) (w : sworld) : res unit * sworld :=
  (Ok tt, mkWorld (sw_seeds w) (sw_post_replies w) (sw_posted w)
            (sw_history w) (sw_views w) (sw_dirs w)
            (dict_set path body (sw_files w))).

Definition s_path_exists (path : string) (w : sworld) : bool :=
  dict_has path (sw_files w).

Definition s_getsize (path : string) (w : sworld) : res nat :=
  match dict_get path (sw_files w) with
  | Some body => Ok (String.length body)
  | None => Raise OSError
  end.

(** Plain decimal numerals. *)
Definition s_int_of_str (s : string) : option Z :=
  match NilZero.int_of_string s with
  | Some d => Some (Z.of_int d)
  | None => None
  end.

(** No query parameters: the examples use URIs without a query. *)
Definition s_url_query (uri : string) : res (list (string * list string)) :=
  Ok [].

Definition s_mp4_clip_path (name : string) : string :=
  if is_prefix "/" name then name
  else "/project/video_outputs/mp4_clips/" +:+ name.

#[export] Instance script_env : Env := {|
  world := sworld;
  randint := s_randint;
  post_prompt := s_post_prompt;
  fetch_history := s_fetch_history;
  fetch_view := s_fetch_view;
  makedirs_for := s_makedirs_for;
  write_file := s_write_file;
  path_exists := s_path_exists;
  getsize := s_getsize;
  int_of_str := s_int_of_str;
  url_query := s_url_query;
  mp4_clip_path := s_mp4_clip_path
|}.

Definition quiet_world : sworld := mkWorld [] [] [] [] [] [] [].

(** A run from an empty store: the template is loaded, then [m] runs. *)
Definition run_with_template {A} (template : json) (w : sworld)
  (m : pyval -> M A) : res A * state :=
  match load template (mkState [] w [] true) with
  | (Ok base, st) => m base st
  | (Raise e, st) => (Raise e, st)
  end.

(** A workflow with the four nodes that the client edits. *)
Definition node (class_type : string) (inputs : list (string * json)) : json :=
  JDict [("class_type", JStr class_type); ("inputs", JDict inputs)].

Definition full_template : json :=
  JDict [
    ("3", node "KSampler" [("seed", JInt 1); ("steps", JInt 20)]);
    ("6", node "CLIPTextEncode" [("text", JStr "")]);
    ("40", node "EmptyHunyuanLatentVideo"
             [("length", JInt 33); ("width", JInt 832); ("height", JInt 480)]);
    ("52", node "SaveVideo" [("filename_prefix", JStr "x")])
  ].

(** The same workflow without the save node ["52"]. *)
Definition template_without_save_node : json :=
  JDict [
    ("3", node "KSampler" [("seed", JInt 1); ("steps", JInt 20)]);
    ("6", node "CLIPTextEncode" [("text", JStr "")]);
    ("40", node "EmptyHunyuanLatentVideo"
             [("length", JInt 33); ("width", JInt 832); ("height", JInt 480)])
  ].

Definition item (n : Z) (prompt : string) : json :=
  JDict [("id", JInt n); ("image_prompt", JStr prompt);
         ("commentary", JStr "text")].

(** Payloads of the save node used in the examples. *)
Definition payload_uri_and_gif : json :=
  JDict [("uris", JList [JStr "http://127.0.0.1:8188/out/clip.mp4"]);
         ("gifs", JList [JDict [("filename", JStr "clip.gif")]])].

Definition payload_gif_only : json :=
  JDict [("gifs", JList [JDict [("filename", JStr "clip.gif")]])].

Definition payload_video_and_uri : list (string * json) :=
  [("uris", JList [JStr "http://127.0.0.1:8188/view?filename=b.mp4"]);
   ("videos", JList [JDict [("filename", JStr "a.mp4")]])].

(** A terminal history in which the job has outputs, none of them from the
    save node. *)
Definition history_without_save_node : json :=
  JDict [("p1", JDict [("outputs", JDict [("9", JDict [])])])].

(** A history in which the job is still running. *)
Definition history_running : json :=
  JDict [("p1", JDict [("status", JDict [("status_str", JStr "running")])])].

Definition world_with_history (replies : list (option json)) : sworld :=
  mkWorld [] [] [] replies [] [] [].

Definition start (w : sworld) : state := mkState [] w [] true.

(** A server whose next reply to [GET /view] is [reply]. *)
Definition world_with_view (reply : res (Z * string)) : sworld :=
  mkWorld [] [] [] [] [reply] [] [].

Definition clip_record : json :=
  JDict [("filename", JStr "clip.mp4"); ("subfolder", JStr "");
         ("type", JStr "output")].

(** Three manifest entries; only the one with [clip_order] 1 failed. *)
Definition entry_ok (n : nat) (path : string) : clip_entry :=
  mkEntry (JInt (Z.of_nat n + 1)) n SUCCESS_MP4_DOWNLOADED (Some clip_record)
    (Some path).

Definition manifest_in_order : list clip_entry :=
  [entry_ok 0 "/clips/a.mp4";
   mkEntry (JInt 2) 1 ERROR_TIMEOUT None None;
   entry_ok 2 "/clips/c.mp4"].

Definition manifest_shuffled : list clip_entry :=
  [entry_ok 2 "/clips/c.mp4";
   entry_ok 0 "/clips/a.mp4";
   mkEntry (JInt 2) 1 ERROR_TIMEOUT None None].

Definition world_with_clips : sworld :=
  mkWorld [] [] [] [] [] []
    [("/clips/c.mp4", "CCC"); ("/clips/a.mp4", "AAA")].

(** A server that takes the job and whose first history has a video from
    the save node. *)
Definition history_with_video : json :=
  JDict [("p1", JDict [("outputs",
    JDict [("52", JDict [("videos",
      JList [JDict [("filename", JStr "a.mp4")]])])])])].

Definition world_rendering : sworld :=
  mkWorld [7] [Some (JDict [("prompt_id", JStr "p1")])] []
    [Some history_with_video] [] [] [].

(** The state in which the template is loaded, and the template in it. *)
Definition template_state : state :=
  snd (load full_template (start world_rendering)).

Definition template_ref : pyval :=
  match fst (load full_template (start world_rendering)) with
  | Ok v => v
  | Raise _ => VNone
  end.

(** The result of the client for that server. *)
Definition rendered : gen_result :=
  mkResult SUCCESS
    (Some (JDict [("filename", JStr "a.mp4"); ("type", JStr "output");
                  ("subfolder", JStr "")])).

(** The state in which the template without the save node is loaded; the
    template is the object at [bare_template_loc]. *)
Definition bare_state : state :=
  snd (load template_without_save_node (start quiet_world)).

Definition bare_template_loc : loc := 6%nat.

(** The same state when the generator of the seeds has two numbers to
    give: each draw takes one. *)
Definition world_with_seeds (seeds : list Z) : sworld :=
  mkWorld seeds [] [] [] [] [] [].

Definition bare_state_with_seeds : state :=
  snd (load template_without_save_node (start (world_with_seeds [7; 9]))).

Definition bare_template : list (string * pyval) :=
  [("3", VRef 1); ("6", VRef 3); ("40", VRef 5)].

(** A server on which the job runs for two polls and then has its video. *)
Definition world_after_two_polls : sworld :=
  world_with_history
    [Some history_running; Some history_running; Some history_with_video].

End Script.

(** ** Notions of the specification

    Definitions that follow the words of the specification; the properties
    below compare them with the code. *)

Module Spec.
Import Py Video.

(** The order in which the spec lists the candidate keys. *)
Definition candidate_keys : list string :=
  ["videos"; "files"; "uris"; "gifs"; "images"].

(** The first candidate key under which the payload holds a non-empty
    list, with the first item of that list. *)
Fixpoint first_candidate (keys : list string) (d : list (string * json))
  : option (string * json) :=
  match keys with
  | [] => None
  | k :: keys' =>
      match dict_get k d with
      | Some (JList (x :: _)) => Some (k, x)
      | _ => first_candidate keys' d
      end
  end.

(** A payload as the backend sends it: what a candidate key holds is a
    list. *)
Definition lists_under_candidates (d : list (string * json)) : Prop :=
  forall k v, In k candidate_keys -> dict_get k d = Some v -> exists xs, v = JList xs.

(** A job record whose status line can be written: its status fields, when
    present, are dictionaries, as the server sends them, and the status
    string and the queue count are text that can be printed. *)
Definition status_well_formed (prompt_history : list (string * json)) : bool :=
  match dict_get "status" prompt_history with
  | None => true
  | Some (JDict s) =>
      printable (match dict_get "status_str" s with
                 | Some v => v
                 | None => JStr "Polling..."
                 end) &&
      match dict_get "exec_info" s with
      | None => true
      | Some (JDict e) =>
          printable (match dict_get "queue_remaining" e with
                     | Some v => v
                     | None => JInt 0
                     end)
      | _ => false
      end
  | _ => false
  end.

(** A reply to the history request that shows no outputs for the job yet:
    the request failed; or the reply is empty; or it is an object that has
    no record of the job, where the job id is a string or another value
    that can be looked up; or the record of the job is an object that has
    no ["outputs"] and whose status line can be written.  An object has
    strings for its keys, so that it has no record under a number, a
    Boolean or [None]; a list or a dictionary as the job id cannot be
    looked up. *)
Definition no_outputs_yet (prompt_id : json) (history : option json) : bool :=
  match history with
  | None => true
  | Some (JDict d) =>
      match d with
      | [] => true
      | _ :: _ =>
          match prompt_id with
          | JStr pid =>
              match dict_get pid d with
              | None => true
              | Some (JDict prompt_history) =>
                  negb (dict_has "outputs" prompt_history) &&
                  status_well_formed prompt_history
              | _ => false
              end
          | JList _ | JDict _ => false
          | _ => true
          end
      end
  | Some h => negb (truthy h)
  end.

Section Replies.
Context `{Env}.

(** The replies to the next [n] history requests for the job, from the
    world [w] on. *)
Fixpoint history_replies (n : nat) (prompt_id : json) (w : world)
  : list (option json) :=
  match n with
  | O => []
  | S n' =>
      let '(r, w') := fetch_history prompt_id w in
      r :: history_replies n' prompt_id w'
  end.

End Replies.

Section Selection.
Context `{Env}.

(** The entries that stage 6 takes, in the order in which it takes them. *)
Definition chosen_clips (w : world) (m : list clip_entry) : list clip_entry :=
  filter (fun e => clip_is_valid w e = true) (sort_manifest m).

End Selection.

(** The order of the sort keys. *)
Definition by_order (a b : clip_entry) : Prop :=
  (clip_order a <= clip_order b)%nat.

(** Ascending order of the [clip_order] fields. *)
Definition ascending (l : list clip_entry) : Prop :=
  StronglySorted (fun a b => (clip_order a < clip_order b)%nat) l.

Section Triples.
Context `{Env}.

(** [keeps I m Q]: from a state in which [I] holds, [m] ends in a state in
    which [I] holds, whether it returns or raises, and a value that it
    returns satisfies [Q]. *)
Definition keeps {A} (I : state -> Prop) (m : M A) (Q : A -> Prop) : Prop :=
  forall st, I st ->
    match m st with
    | (Ok a, st') => I st' /\ Q a
    | (Raise _, st') => I st'
    end.

(** Invariants that do not depend on one component of the state. *)
Definition ignores_world (I : state -> Prop) : Prop :=
  forall st w, I st -> I (put_world w st).

Definition ignores_heap (I : state -> Prop) : Prop :=
  forall st h,
    I st ->
    I (mkState h (st_world st) (clips_manifest st)
         (comfyui_generation_overall_success st)).

Definition ignores_flag (I : state -> Prop) : Prop :=
  forall st b,
    I st -> I (mkState (st_heap st) (st_world st) (clips_manifest st) b).

Definition ignores_manifest (I : state -> Prop) : Prop :=
  forall st m,
    I st ->
    I (mkState (st_heap st) (st_world st) m
         (comfyui_generation_overall_success st)).

End Triples.

(** The invariant of the manifest: a local path exactly in the status
    of a downloaded clip. *)
Definition path_iff_downloaded (e : clip_entry) : Prop :=
  is_Some (mp4_path e) <-> status e = SUCCESS_MP4_DOWNLOADED.

Section ManifestInvariant.
Context `{Env}.

Definition manifest_consistent (st : state) : Prop :=
  Forall path_iff_downloaded (clips_manifest st).

End ManifestInvariant.

(** The statuses that the render client returns. *)
Definition client_status (s : status_code) : Prop :=
  In s [ERROR_WORKFLOW_NOT_LOADED; ERROR_SAVE_MP4_NODE_MISSING_IN_WORKFLOW;
        ERROR_QUEUE_FAILED; SUCCESS; ERROR_POTENTIAL_KEY_LACKS_FILENAME;
        ERROR_NO_USABLE_KEY_IN_OUTPUT_MP4; ERROR_SAVE_NODE_NOT_IN_OUTPUTS;
        ERROR_TIMEOUT].

(** *** The frame of a call

    [h0] is the store at the start.  A value is fresh when it is not a
    reference into [h0]; an object is fresh when its items are, except for
    what a dictionary holds under ["text"], where the client stores the
    prompt that it was given. *)
Definition fresh (n0 : nat) (v : pyval) : Prop :=
  match v with
  | VRef l => (n0 <= l)%nat
  | _ => True
  end.

Definition obj_fresh (n0 : nat) (o : pyobj) : Prop :=
  match o with
  | ODict d => forall k v, In (k, v) d -> k = "text" \/ fresh n0 v
  | OList xs => Forall (fresh n0) xs
  end.

Definition memo_fresh (n0 : nat) (mm : memo) : Prop :=
  forall l l', In (l, l') mm -> (n0 <= l')%nat.

(** What a copy returns: a fresh value and a memo of fresh copies. *)
Definition copied (n0 : nat) (r : pyval * memo) : Prop :=
  fresh n0 r.1 /\ memo_fresh n0 r.2.

Section Frame.
Context `{Env}.

(** Every object of [h0] is still in the store, unchanged, and the objects
    added since are fresh. *)
Definition frame (h0 : heap) (st : state) : Prop :=
  (length h0 <= length (st_heap st))%nat /\
  (forall l o, h0 !! l = Some o -> st_heap st !! l = Some o) /\
  (forall l o, (length h0 <= l)%nat -> st_heap st !! l = Some o ->
               obj_fresh (length h0) o).

End Frame.

(** *** The result of the render client *)

(** A record that names a file: a filename and a type that count as true,
    and a subfolder. *)
Definition file_record (data : json) : Prop :=
  exists d fn ty,
    data = JDict d /\
    dict_get "filename" d = Some fn /\ truthy fn = true /\
    dict_get "type" d = Some ty /\ truthy ty = true /\
    dict_has "subfolder" d = true.

(** A result whose status is [SUCCESS] only with such a record. *)
Definition names_a_file (r : gen_result) : Prop :=
  gr_status r = SUCCESS ->
  exists data, gr_data r = Some data /\ file_record data.

(** The statuses that stage 2 writes into the manifest. *)
Definition recorded_status (s : status_code) : bool :=
  match s with
  | SUCCESS | ERROR_SUCCESS_NO_FILEDATA => false
  | _ => true
  end.

Section Recorded.
Context `{Env}.

Definition statuses_recorded (st : state) : Prop :=
  Forall (fun e => recorded_status (status e) = true) (clips_manifest st).

End Recorded.

(** *** A template without the save node *)

Section SaveNode.
Context `{Env}.

(** The store holds every object of [h1], unchanged, and the world is
    [w]. *)
Definition extends (h1 : heap) (w : world) (st : state) : Prop :=
  st_world st = w /\
  (length h1 <= length (st_heap st))%nat /\
  (forall l o, h1 !! l = Some o -> st_heap st !! l = Some o).

(** The object at [l] is a dictionary without the key [k], and the world
    is [w]. *)
Definition holds_without (k : string) (l : loc) (w : world) (st : state) : Prop :=
  st_world st = w /\
  exists d, st_heap st !! l = Some (ODict d) /\ dict_has k d = false.

(** The world after a call from [w0] in which the client has contacted
    nobody: it is [w0], or what the draw of the seed makes of it. *)
Definition nothing_sent (w0 : world) (st : state) : Prop :=
  st_world st = w0 \/ st_world st = snd (randint w0).

(** The object at [l] is the dictionary [d], and the world is [w]. *)
Definition holds_dict (l : loc) (d : list (string * pyval)) (w : world)
  (st : state) : Prop :=
  st_world st = w /\ st_heap st !! l = Some (ODict d).

(** The status with which the client turns down the template [d] when it
    has no save node: an empty template counts as not loaded. *)
Definition refusal (d : list (string * pyval)) : status_code :=
  match d with
  | [] => ERROR_WORKFLOW_NOT_LOADED
  | _ => ERROR_SAVE_MP4_NODE_MISSING_IN_WORKFLOW
  end.

(** The entries of a manifest are items without a prompt and jobs that the
    client has turned down. *)
Definition all_refused (d : list (string * pyval)) (m : list clip_entry) : Prop :=
  Forall (fun e => status e = SKIPPED_NO_PROMPT \/
                   status e = refusal d /\ mp4_path e = None) m.

End SaveNode.

Section Polling.
Context `{Env}.

(** The world after [n] history requests for the job. *)
Fixpoint world_after_requests (n : nat) (prompt_id : json) (w : world) : world :=
  match n with
  | O => w
  | S n' => world_after_requests n' prompt_id (snd (fetch_history prompt_id w))
  end.

(** The reply to the history request that follows [n] others. *)
Definition reply_after (n : nat) (prompt_id : json) (w : world) : option json :=
  fst (fetch_history prompt_id (world_after_requests n prompt_id w)).

End Polling.

(** *** The outcome of stage 2 *)

(** The statuses with which the loop of stage 2 leaves its flag as it is:
    a downloaded clip and an item without a prompt. *)
Definition ok_status (s : status_code) : bool :=
  match s with
  | SUCCESS_MP4_DOWNLOADED | SKIPPED_NO_PROMPT => true
  | _ => false
  end.

Definition no_failure (e : clip_entry) : bool := ok_status (status e).

Section Outcomes.
Context `{Env}.

(** [triple P m Q E]: from a state in [P], a value that [m] returns and
    the state it leaves are in [Q], and the state that an exception leaves
    is in [E]. *)
Definition triple {A} (P : state -> Prop) (m : M A)
  (Q : A -> state -> Prop) (E : state -> Prop) : Prop :=
  forall st, P st ->
    match m st with
    | (Ok a, st') => Q a st'
    | (Raise _, st') => E st'
    end.

(** The manifest and the flag are the given ones. *)
Definition at_manifest (m0 : list clip_entry) (b0 : bool) (st : state) : Prop :=
  clips_manifest st = m0 /\ comfyui_generation_overall_success st = b0.

(** What stage 2 leaves for the content items.  At the end of the loop the
    manifest has one entry per item, whose [clip_order] is the position of
    the item, and the flag is set exactly when every entry is a downloaded
    clip or a skipped item.  When an item raises, the manifest has the
    entries of the items before it. *)
Definition stage2_outcome (content_items : list json) (r : res unit * state)
  : Prop :=
  match r with
  | (Ok _, st') =>
      map clip_order (clips_manifest st') = seq 0 (length content_items) /\
      comfyui_generation_overall_success st' =
        forallb no_failure (clips_manifest st')
  | (Raise _, st') =>
      exists k, (k < length content_items)%nat /\
                map clip_order (clips_manifest st') = seq 0 k
  end.

End Outcomes.

End Spec.

(** * Properties *)

(** ** The file record in the output of the save node *)

Module ResolverFacts.
Import Py Video Spec.

Section Facts.
Context `{Env}.

Lemma has_content_dict (d : list (string * json)) (k : string) :
  has_content (JDict d) k =
  match dict_get k d with
  | Some v => match py_len v with Ok n => Ok (0 <? n)%nat | Raise e => Raise e end
  | None => Ok false
  end.
Proof.
  unfold has_content, py_in, py_getitem, dict_has; simpl.
  destruct (dict_get k d) as [v|]; simpl; [|reflexivity].
  destruct (py_len v); reflexivity.
Qed.

Lemma has_content_list (d : list (string * json)) (k : string) (xs : list json) :
  dict_get k d = Some (JList xs) ->
  has_content (JDict d) k = Ok (match xs with [] => false | _ => true end).
Proof.
  intros Hk. rewrite has_content_dict, Hk. simpl. destruct xs; reflexivity.
Qed.

Lemma has_content_absent (d : list (string * json)) (k : string) :
  dict_get k d = None -> has_content (JDict d) k = Ok false.
Proof. intros Hk. rewrite has_content_dict, Hk. reflexivity. Qed.

Lemma first_of_list (d : list (string * json)) (k : string) (x : json) (xs : list json) :
  dict_get k d = Some (JList (x :: xs)) -> first_of (JDict d) k = Ok x.
Proof.
  intros Hk. unfold first_of, py_getitem; simpl. rewrite Hk. reflexivity.
Qed.

(** The test of one link of the chain, on a well-formed payload. *)
Lemma has_content_cases (d : list (string * json)) (k : string) :
  lists_under_candidates d -> In k candidate_keys ->
  (has_content (JDict d) k = Ok false /\
   match dict_get k d with Some (JList (_ :: _)) => False | _ => True end) \/
  (exists x xs, dict_get k d = Some (JList (x :: xs)) /\
                has_content (JDict d) k = Ok true /\ first_of (JDict d) k = Ok x).
Proof.
  intros Hwf Hin. destruct (dict_get k d) as [v|] eqn:Hk.
  - destruct (Hwf k v Hin Hk) as [xs ->]. destruct xs as [|x xs].
    + left. split; [|exact I]. rewrite (has_content_list _ _ _ Hk). reflexivity.
    + right. exists x, xs. split; [reflexivity|]. split.
      * rewrite (has_content_list _ _ _ Hk). reflexivity.
      * apply (first_of_list _ _ _ _ Hk).
  - left. split; [|exact I]. apply has_content_absent, Hk.
Qed.

(** C5.  On a payload whose candidate keys hold lists, the record that the
    chain finds is the first item under the first of [videos], [files],
    [uris], [gifs], [images] that is present and non-empty (for [uris], what
    that first URI gives).  A non-empty [videos] list wins whatever else the
    payload holds, [uris] included, and so does a non-empty [files] list
    when [videos] is absent or empty. *)
Theorem find_file_info_priority (d : list (string * json)) :
  lists_under_candidates d ->
  find_file_info (JDict d) =
    match first_candidate candidate_keys d with
    | Some (k, x) => if decide (k = "uris") then file_info_of_uri x else Ok x
    | None => Ok JNull
    end /\
  (forall x xs, dict_get "videos" d = Some (JList (x :: xs)) ->
     find_file_info (JDict d) = Ok x) /\
  (forall x xs,
     dict_get "videos" d = None \/ dict_get "videos" d = Some (JList []) ->
     dict_get "files" d = Some (JList (x :: xs)) ->
     find_file_info (JDict d) = Ok x).
Proof.
  intros Hwf. split; [|split].
  - unfold find_file_info, candidate_keys, first_candidate.
    destruct (has_content_cases d "videos" Hwf) as [[-> Hv]|(x & xs & Hk & -> & ->)];
      [simpl; tauto| |rewrite Hk; reflexivity].
    destruct (has_content_cases d "files" Hwf) as [[-> Hf]|(x & xs & Hk & -> & ->)];
      [simpl; tauto| |].
    2:{ simpl. destruct (dict_get "videos" d) as [[| | | | |[|? ?]|]|]; try tauto;
        rewrite Hk; reflexivity. }
    destruct (has_content_cases d "uris" Hwf) as [[-> Hu]|(x & xs & Hk & -> & ->)];
      [simpl; tauto| |].
    2:{ simpl. destruct (dict_get "videos" d) as [[| | | | |[|? ?]|]|]; try tauto;
        destruct (dict_get "files" d) as [[| | | | |[|? ?]|]|]; try tauto;
        rewrite Hk; reflexivity. }
    destruct (has_content_cases d "gifs" Hwf) as [[-> Hg]|(x & xs & Hk & -> & ->)];
      [simpl; tauto| |].
    2:{ simpl. destruct (dict_get "videos" d) as [[| | | | |[|? ?]|]|]; try tauto;
        destruct (dict_get "files" d) as [[| | | | |[|? ?]|]|]; try tauto;
        destruct (dict_get "uris" d) as [[| | | | |[|? ?]|]|]; try tauto;
        rewrite Hk; reflexivity. }
    destruct (has_content_cases d "images" Hwf) as [[-> Hi]|(x & xs & Hk & -> & ->)];
      [simpl; tauto| |].
    2:{ simpl. destruct (dict_get "videos" d) as [[| | | | |[|? ?]|]|]; try tauto;
        destruct (dict_get "files" d) as [[| | | | |[|? ?]|]|]; try tauto;
        destruct (dict_get "uris" d) as [[| | | | |[|? ?]|]|]; try tauto;
        destruct (dict_get "gifs" d) as [[| | | | |[|? ?]|]|]; try tauto;
        rewrite Hk; reflexivity. }
    simpl.
    destruct (dict_get "videos" d) as [[| | | | |[|? ?]|]|]; try tauto;
    destruct (dict_get "files" d) as [[| | | | |[|? ?]|]|]; try tauto;
    destruct (dict_get "uris" d) as [[| | | | |[|? ?]|]|]; try tauto;
    destruct (dict_get "gifs" d) as [[| | | | |[|? ?]|]|]; try tauto;
    destruct (dict_get "images" d) as [[| | | | |[|? ?]|]|]; try tauto.
  - intros x xs Hk. unfold find_file_info.
    rewrite (has_content_list _ _ _ Hk). simpl. apply (first_of_list _ _ _ _ Hk).
  - intros x xs Hv Hk. unfold find_file_info.
    assert (has_content (JDict d) "videos" = Ok false) as ->.
    { destruct Hv as [Hv|Hv]; [apply has_content_absent, Hv|].
      rewrite (has_content_list _ _ _ Hv). reflexivity. }
    simpl. rewrite (has_content_list _ _ _ Hk). simpl.
    apply (first_of_list _ _ _ _ Hk).
Qed.

End Facts.

Import Script.

(** The theorem at a payload with both a [videos] and a [uris] list. *)
Lemma find_file_info_priority_witness :
  lists_under_candidates Script.payload_video_and_uri /\
  find_file_info (JDict Script.payload_video_and_uri) =
    Ok (JDict [("filename", JStr "a.mp4")]).
Proof.
  assert (lists_under_candidates Script.payload_video_and_uri) as Hwf.
  { intros k v Hin Hk. simpl in Hin.
    destruct Hin as [<-|[<-|[<-|[<-|[<-|[]]]]]]; vm_compute in Hk;
      try discriminate; injection Hk as <-; eexists; reflexivity. }
  split; [exact Hwf|].
  destruct (find_file_info_priority Script.payload_video_and_uri Hwf) as (_ & Hv & _).
  apply (Hv _ []). reflexivity.
Defined.

End ResolverFacts.

(** ** A URI without a file name *)

Module FallbackFacts.
Import Py Video Spec ResolverFacts.

Section Facts.
Context `{Env}.

(** When [uris] is the first candidate key that is present and non-empty,
    what the chain finds is what its first URI gives, whatever [gifs] and
    [images] hold: the later branches of the [elif] chain are not reached.
    For a URI that is a string, the client raises [UnicodeEncodeError] when
    the string cannot be printed, and returns
    [ERROR_NO_USABLE_KEY_IN_OUTPUT_MP4] when it can and holds no
    [filename=]. *)
Theorem uris_end_the_chain (d : list (string * json)) (u : json) (us : list json) :
  has_content (JDict d) "videos" = Ok false ->
  has_content (JDict d) "files" = Ok false ->
  dict_get "uris" d = Some (JList (u :: us)) ->
  find_file_info (JDict d) = file_info_of_uri u /\
  (forall s, u = JStr s -> encodable s = false ->
     resolve_output (JDict d) = Raise UnicodeEncodeError) /\
  (forall s, u = JStr s -> encodable s = true ->
     is_substring "filename=" s = false ->
     resolve_output (JDict d) = Ok (failed ERROR_NO_USABLE_KEY_IN_OUTPUT_MP4)).
Proof.
  intros Hv Hf Hu.
  assert (find_file_info (JDict d) = file_info_of_uri u) as Hfind.
  { unfold find_file_info. rewrite Hv; simpl. rewrite Hf; simpl.
    rewrite (has_content_list _ _ _ Hu); simpl.
    rewrite (first_of_list _ _ _ _ Hu); reflexivity. }
  split; [exact Hfind|]. unfold resolve_output. rewrite Hfind.
  split; intros s ->; unfold file_info_of_uri, say; cbn [forallb printable].
  - intros ->. reflexivity.
  - intros -> ->. reflexivity.
Qed.

End Facts.

Import Script.

(** The theorem at a payload with a plain URI and a usable [gifs] record. *)
Lemma uris_end_the_chain_witness :
  find_file_info Script.payload_uri_and_gif =
    file_info_of_uri (JStr "http://127.0.0.1:8188/out/clip.mp4") /\
  resolve_output Script.payload_uri_and_gif =
    Ok (failed ERROR_NO_USABLE_KEY_IN_OUTPUT_MP4).
Proof.
  destruct (uris_end_the_chain
              [("uris", JList [JStr "http://127.0.0.1:8188/out/clip.mp4"]);
               ("gifs", JList [JDict [("filename", JStr "clip.gif")]])]
              (JStr "http://127.0.0.1:8188/out/clip.mp4") [])
    as (Hfind & _ & Hplain); try reflexivity.
  split; [exact Hfind|].
  apply (Hplain "http://127.0.0.1:8188/out/clip.mp4"); reflexivity.
Defined.

(** C3: the code at the failing input.  The URI of this payload holds no
    [filename=], the [gifs] list holds a record with a file name, and the
    client answers "no usable key" without a look at [gifs]; with the [gifs]
    list alone it answers [SUCCESS].  The source announces the fallback
    that is missing here ("Fallback to checking 'gifs' or 'images' if
    others fail") and its message for this status says that no known key
    held usable file information. *)
Lemma uri_without_filename_hides_gifs :
  resolve_output Script.payload_uri_and_gif =
    Ok (failed ERROR_NO_USABLE_KEY_IN_OUTPUT_MP4) /\
  resolve_output Script.payload_gif_only =
    Ok (mkResult SUCCESS
          (Some (JDict [("filename", JStr "clip.gif"); ("type", JStr "output");
                        ("subfolder", JStr "")]))).
Proof. split; reflexivity. Qed.

End FallbackFacts.

(** ** Polling *)

Module PollFacts.
Import Py Video Spec.

Section Facts.
Context `{Env}.

Lemma status_line_of_well_formed (ph : list (string * json)) :
  status_well_formed ph = true -> status_line (JDict ph) = Ok tt.
Proof.
  unfold status_well_formed, status_line, say. cbn [py_get mbind res_bind].
  destruct (dict_get "status" ph) as [[| | | | | |s]|]; try discriminate.
  - cbn [py_get mbind res_bind]. intros Hs. apply andb_prop in Hs as [Hstr Hq].
    destruct (dict_get "exec_info" s) as [[| | | | | |e]|]; try discriminate;
      cbn [py_get mbind res_bind forallb dict_get]; rewrite Hstr;
      [rewrite Hq|]; reflexivity.
  - intros _. reflexivity.
Qed.

Lemma no_outputs_yet_continues (attempt : nat) (prompt_id : json)
  (history : option json) :
  no_outputs_yet prompt_id history = true ->
  poll_step attempt prompt_id history = Ok None.
Proof.
  unfold no_outputs_yet, poll_step. intros Hp.
  destruct history as [h|]; [|reflexivity].
  destruct h as [| | | | | |d];
    try (apply negb_true_iff in Hp; rewrite Hp; reflexivity).
  destruct d as [|kv d]; [reflexivity|]. cbn [truthy].
  destruct prompt_id as [| | | |pid| |]; try discriminate; try reflexivity.
  cbn [py_in hashable mbind res_bind]. unfold dict_has.
  destruct (dict_get pid (kv :: d)) as [ph|] eqn:Hd; [|reflexivity].
  cbn [py_getitem hashable mbind res_bind]. rewrite Hd.
  cbn [mbind res_bind].
  destruct ph as [| | | | | |ph]; try discriminate.
  apply andb_prop in Hp as [Ho Hs]. rewrite negb_true_iff in Ho.
  cbn [py_in hashable mbind res_bind]. rewrite Ho.
  destruct (_ =? 0)%nat; [|reflexivity].
  rewrite (status_line_of_well_formed ph Hs). reflexivity.
Qed.

(** A list of replies is checked by running the test on each. *)
Lemma all_replies (test : option json -> bool) (replies : list (option json)) :
  forallb test replies = true -> Forall (fun r => test r = true) replies.
Proof.
  induction replies as [|r replies IH]; simpl; [constructor|].
  intros Hall. apply andb_prop in Hall as [Hr Hall]. constructor; auto.
Qed.

(** After a reply, [poll] looks at the world that the request left. *)
Lemma poll_unfold (n attempt : nat) (prompt_id : json) (st : state) :
  poll (S n) attempt prompt_id st =
  let '(r, w') := fetch_history prompt_id (st_world st) in
  match poll_step attempt prompt_id r with
  | Ok (Some g) => (Ok g, put_world w' st)
  | Ok None => poll n (S attempt) prompt_id (put_world w' st)
  | Raise e => (Raise e, put_world w' st)
  end.
Proof.
  simpl. unfold bindM, comfy_get_history, world_op, liftR, retM.
  destruct (fetch_history prompt_id (st_world st)) as [r w'].
  destruct (poll_step attempt prompt_id r) as [[g|]|e]; reflexivity.
Qed.

(** The loop runs out when no reply shows outputs, for any number of
    remaining attempts. *)
Lemma poll_runs_out (n attempt : nat) (prompt_id : json) (st : state) :
  Forall (fun r => no_outputs_yet prompt_id r = true)
    (history_replies n prompt_id (st_world st)) ->
  fst (poll n attempt prompt_id st) = Ok (failed ERROR_TIMEOUT).
Proof.
  revert attempt st. induction n as [|n IH]; intros attempt st Hall.
  - reflexivity.
  - rewrite poll_unfold. simpl in Hall.
    destruct (fetch_history prompt_id (st_world st)) as [r w'] eqn:Hf.
    inversion Hall as [|? ? Hr Hrest]; subst.
    rewrite (no_outputs_yet_continues _ _ _ Hr).
    apply IH. exact Hrest.
Qed.

(** C6, as the code has it.  When the job id can be printed and none of
    the replies to the 360 history requests shows outputs for the job, in
    the sense of [no_outputs_yet], the client returns the status
    [ERROR_TIMEOUT] as a value: no exception is raised.  The job id is any
    JSON value; the line that announces the polling and the status line
    that is printed on every sixth attempt are part of what is run. *)
Theorem poll_times_out (prompt_id : json) (st : state) :
  printable prompt_id = true ->
  Forall (fun r => no_outputs_yet prompt_id r = true)
    (history_replies max_poll_attempts prompt_id (st_world st)) ->
  fst (await_outputs prompt_id st) = Ok (failed ERROR_TIMEOUT).
Proof.
  intros Hid Hall. unfold await_outputs, bindM, liftR, say.
  cbn [forallb]. rewrite Hid. cbn [andb].
  apply poll_runs_out. exact Hall.
Qed.

End Facts.

Import Script.

(** The theorem at 360 replies of a job that is still running. *)
Lemma poll_times_out_witness :
  fst (await_outputs (JStr "p1")
         (start (world_with_history (repeat (Some history_running) 360)))) =
  Ok (failed ERROR_TIMEOUT).
Proof.
  apply (poll_times_out (JStr "p1")).
  - reflexivity.
  - apply all_replies. vm_compute. reflexivity.
Defined.

(** C6 fails on the code: every reply of this run is a history of the job
    without the save node among its outputs, and the client returns
    [ERROR_SAVE_NODE_NOT_IN_OUTPUTS] at the first reply, not
    [ERROR_TIMEOUT]. *)
Lemma outputs_without_save_node_is_not_timeout :
  fst (await_outputs (JStr "p1")
         (start (world_with_history
                   (repeat (Some history_without_save_node) 360)))) =
  Ok (failed ERROR_SAVE_NODE_NOT_IN_OUTPUTS).
Proof. vm_compute. reflexivity. Qed.

End PollFacts.

(** ** Download *)

Module DownloadFacts.
Import Py Video.

Section Facts.
Context `{Env}.

Ltac unfold_download :=
  unfold download_comfy_output, catchM, bindM, liftR, world_try, world_read,
    world_read_try, retM, urlencode, say.

(** What a download that reports success has done. *)
Lemma download_true_inv (filename subfolder file_type : json)
  (target : string) (st st' : state) :
  download_comfy_output filename subfolder file_type target st = (Ok true, st') ->
  path_exists target (st_world st') = true /\
  (exists size, getsize target (st_world st') = Ok size /\ (0 < size)%nat) /\
  (exists w1 w2 body,
     makedirs_for target (st_world st) = (Ok tt, w1) /\
     fetch_view filename subfolder file_type w1 = (Ok (200, body), w2) /\
     write_file target body w2 = (Ok tt, st_world st')).
Proof.
  unfold_download.
  destruct (truthy filename); simpl.
  2:{ destruct (printable subfolder && (printable file_type && true));
      discriminate. }
  destruct (printable filename && _); simpl; [|discriminate].
  destruct (encodable target); simpl; [|discriminate].
  destruct (makedirs_for target (st_world st)) as [[[]|e] w1] eqn:Hmk; simpl;
    [|destruct (is_Exception e); discriminate].
  destruct (fetch_view filename subfolder file_type w1) as [[[code body]|e] w2]
    eqn:Hview; simpl; [|destruct (is_Exception e); discriminate].
  destruct (code =? 200) eqn:Hcode; simpl; [|discriminate].
  apply Z.eqb_eq in Hcode as ->.
  destruct (write_file target body w2) as [[[]|e] w3] eqn:Hwr; simpl;
    [|destruct (is_Exception e); discriminate].
  destruct (path_exists target w3) eqn:Hex; simpl; [|discriminate].
  destruct (getsize target w3) as [size|e] eqn:Hsz; simpl;
    [|destruct (is_Exception e); discriminate].
  destruct (0 <? size)%nat eqn:Hpos; simpl; [|discriminate].
  rewrite Hsz. simpl. intros [= <-]. simpl.
  apply Nat.ltb_lt in Hpos.
  split; [exact Hex|]. split; [exists size; auto|].
  exists w1, w2, body. auto.
Qed.

(** A transfer that went through and left no file, or an empty one. *)
Lemma download_unverified (filename subfolder file_type : json)
  (target : string) (st : state) (w1 w2 w3 : world) (body : string) :
  truthy filename = true ->
  forallb printable [filename; subfolder; file_type; JStr target] = true ->
  makedirs_for target (st_world st) = (Ok tt, w1) ->
  fetch_view filename subfolder file_type w1 = (Ok (200, body), w2) ->
  write_file target body w2 = (Ok tt, w3) ->
  path_exists target w3 = false \/ getsize target w3 = Ok 0%nat ->
  download_comfy_output filename subfolder file_type target st =
    (Ok false, put_world w3 st).
Proof.
  intros Hfn Hprint Hmk Hview Hwr Hbad. cbn [forallb] in Hprint.
  apply andb_prop in Hprint as [Hp1 Hprint].
  apply andb_prop in Hprint as [Hp2 Hprint].
  apply andb_prop in Hprint as [Hp3 Hp4].
  unfold_download. rewrite Hfn. cbn [negb forallb]. rewrite Hp1, Hp2, Hp3.
  cbn [andb]. rewrite Hp4. simpl. rewrite Hmk. simpl. rewrite Hview. simpl.
  rewrite Hwr. simpl.
  destruct Hbad as [Hex|Hsz].
  - rewrite Hex. reflexivity.
  - destruct (path_exists target w3); [|reflexivity]. simpl. rewrite Hsz.
    reflexivity.
Qed.

(** The download raises in two ways only.  Before its [try] block it raises
    [UnicodeEncodeError] when the filename, the subfolder, the type or the
    target path is text that cannot be encoded, in [urlencode] or in one of
    the prints.  Inside the [try] block an exception that is no [Exception]
    goes through the handlers.  Every other failure comes back as
    [False]. *)
Theorem download_raises_outside_its_handlers (filename subfolder file_type : json)
  (target : string) (st : state) :
  match fst (download_comfy_output filename subfolder file_type target st) with
  | Ok _ => True
  | Raise e =>
      e = UnicodeEncodeError /\
      forallb printable [filename; subfolder; file_type; JStr target] = false \/
      is_Exception e = false
  end.
Proof.
  unfold_download. cbn [forallb].
  destruct (truthy filename); simpl.
  2:{ destruct (printable subfolder); simpl;
        [|left; rewrite andb_false_r; auto].
      destruct (printable file_type); simpl; [exact I|].
      left. rewrite !andb_false_r. auto. }
  destruct (printable filename); simpl; [|left; auto].
  destruct (printable subfolder); simpl; [|left; auto].
  destruct (printable file_type); simpl; [|left; auto].
  cbn [printable]. destruct (encodable target); simpl; [|left; auto].
  assert (forall (e : exn) (w : world),
            match fst (if is_Exception e
                       then (Ok false, put_world w st)
                       else (@Raise bool e, put_world w st)) with
            | Ok _ => True
            | Raise e' => e' = UnicodeEncodeError /\ true = false \/
                          is_Exception e' = false
            end) as Hcaught.
  { intros e w. destruct (is_Exception e) eqn:He; simpl; auto. }
  destruct (makedirs_for target (st_world st)) as [[[]|e] w1]; simpl;
    [|apply Hcaught].
  destruct (fetch_view filename subfolder file_type w1) as [[[code body]|e] w2];
    simpl; [|apply Hcaught].
  destruct (code =? 200); simpl; [|exact I].
  destruct (write_file target body w2) as [[[]|e] w3]; simpl; [|apply Hcaught].
  destruct (path_exists target w3); simpl; [|exact I].
  destruct (getsize target w3) as [size|e] eqn:Hsz; simpl; [|apply Hcaught].
  destruct (0 <? size)%nat; simpl; [|exact I].
  rewrite Hsz. exact I.
Qed.

(** The download reports success only when, in the world it leaves,
    the destination exists and its size is positive.  That world is the one
    left by the creation of the parent directories, then the request (with
    status 200), then the write, in this order; a write that leaves no file
    or an empty one therefore gives failure. *)
Theorem download_success_is_verified (filename subfolder file_type : json)
  (target : string) (st st' : state) :
  download_comfy_output filename subfolder file_type target st = (Ok true, st') ->
  path_exists target (st_world st') = true /\
  (exists size, getsize target (st_world st') = Ok size /\ (0 < size)%nat) /\
  (exists w1 w2 body,
     makedirs_for target (st_world st) = (Ok tt, w1) /\
     fetch_view filename subfolder file_type w1 = (Ok (200, body), w2) /\
     write_file target body w2 = (Ok tt, st_world st')).
Proof. apply download_true_inv. Qed.

(** C7.  For every locator and destination path, the download reports
    success only if the parent directories were created, the reply had the
    status 200, its bytes were written, and after the write the destination
    exists with a size above zero.  When the transfer went through (the
    texts of the locator and the path can be encoded, the directories were
    created, the reply had the status 200 and the write raised nothing) and
    the destination is missing or has the size 0 after the write, the
    download reports failure: it returns [False]. *)
Theorem download_reports_verified_success (filename subfolder file_type : json)
  (target : string) (st : state) :
  (forall st',
     download_comfy_output filename subfolder file_type target st
       = (Ok true, st') ->
     path_exists target (st_world st') = true /\
     (exists size, getsize target (st_world st') = Ok size /\ (0 < size)%nat) /\
     (exists w1 w2 body,
        makedirs_for target (st_world st) = (Ok tt, w1) /\
        fetch_view filename subfolder file_type w1 = (Ok (200, body), w2) /\
        write_file target body w2 = (Ok tt, st_world st'))) /\
  (forall w1 w2 w3 body,
     truthy filename = true ->
     forallb printable [filename; subfolder; file_type; JStr target] = true ->
     makedirs_for target (st_world st) = (Ok tt, w1) ->
     fetch_view filename subfolder file_type w1 = (Ok (200, body), w2) ->
     write_file target body w2 = (Ok tt, w3) ->
     path_exists target w3 = false \/ getsize target w3 = Ok 0%nat ->
     download_comfy_output filename subfolder file_type target st
       = (Ok false, put_world w3 st)).
Proof.
  split.
  - intros st'. apply download_true_inv.
  - intros w1 w2 w3 body. apply download_unverified.
Qed.

End Facts.

Import Script.

(** The theorem at a reply with status 200 and five bytes. *)
Lemma download_success_is_verified_witness :
  path_exists "/project/video_outputs/mp4_clips/clip.mp4"
    (mkWorld [] [] [] [] [] ["/project/video_outputs/mp4_clips/clip.mp4"]
       [("/project/video_outputs/mp4_clips/clip.mp4", "BYTES")]) = true.
Proof.
  apply (download_success_is_verified (JStr "clip.mp4") (JStr "") (JStr "output")
           "/project/video_outputs/mp4_clips/clip.mp4"
           (start (world_with_view (Ok (200, "BYTES"))))
           (start (mkWorld [] [] [] [] []
                     ["/project/video_outputs/mp4_clips/clip.mp4"]
                     [("/project/video_outputs/mp4_clips/clip.mp4", "BYTES")]))).
  reflexivity.
Defined.

(** C7 at a reply with status 200 and no bytes: the file is written, it is
    empty, and the download reports failure. *)
Lemma download_reports_verified_success_witness :
  download_comfy_output (JStr "clip.mp4") (JStr "") (JStr "output")
    "/project/video_outputs/mp4_clips/clip.mp4"
    (start (world_with_view (Ok (200, "")))) =
  (Ok false,
   start (mkWorld [] [] [] [] []
            ["/project/video_outputs/mp4_clips/clip.mp4"]
            [("/project/video_outputs/mp4_clips/clip.mp4", "")])).
Proof.
  apply (proj2 (download_reports_verified_success
                  (JStr "clip.mp4") (JStr "") (JStr "output")
                  "/project/video_outputs/mp4_clips/clip.mp4"
                  (start (world_with_view (Ok (200, "")))))
           (mkWorld [] [] [] [] [Ok (200, "")]
              ["/project/video_outputs/mp4_clips/clip.mp4"] [])
           (mkWorld [] [] [] [] []
              ["/project/video_outputs/mp4_clips/clip.mp4"] [])
           (mkWorld [] [] [] [] []
              ["/project/video_outputs/mp4_clips/clip.mp4"]
              [("/project/video_outputs/mp4_clips/clip.mp4", "")])
           "");
    try reflexivity.
  right. reflexivity.
Defined.

(** A reply with status 200 and no bytes: the file is written, it is empty,
    and the download reports failure. *)
Lemma download_of_empty_body_fails :
  let r := download_comfy_output (JStr "clip.mp4") (JStr "") (JStr "output")
             "/project/video_outputs/mp4_clips/clip.mp4"
             (start (world_with_view (Ok (200, "")))) in
  fst r = Ok false /\
  sw_files (st_world (snd r)) = [("/project/video_outputs/mp4_clips/clip.mp4", "")].
Proof. split; reflexivity. Qed.

End DownloadFacts.

(** ** The order of assembly *)

Module AssemblyFacts.
Import Py Video Spec.

Lemma insert_by_order_perm (e : clip_entry) (l : list clip_entry) :
  Permutation (insert_by_order e l) (e :: l).
Proof.
  induction l as [|x l IH]; simpl; [reflexivity|].
  destruct (clip_order e <=? clip_order x)%nat; [reflexivity|].
  rewrite IH. apply perm_swap.
Qed.

Lemma sort_manifest_perm (m : list clip_entry) :
  Permutation (sort_manifest m) m.
Proof.
  induction m as [|e m IH]; simpl; [reflexivity|].
  rewrite insert_by_order_perm. constructor. exact IH.
Qed.

Lemma insert_by_order_sorted (e : clip_entry) (l : list clip_entry) :
  StronglySorted by_order l -> StronglySorted by_order (insert_by_order e l).
Proof.
  induction 1 as [|x l Hs IH Hx]; simpl.
  - repeat constructor.
  - destruct (clip_order e <=? clip_order x)%nat eqn:Hle.
    + apply Nat.leb_le in Hle. constructor; [constructor; assumption|].
      constructor; [exact Hle|].
      eapply Forall_impl; [exact Hx|]. unfold by_order. intros; simpl in *; lia.
    + apply Nat.leb_gt in Hle. constructor; [exact IH|].
      rewrite insert_by_order_perm. constructor; [|exact Hx].
      unfold by_order. lia.
Qed.

Lemma sort_manifest_sorted (m : list clip_entry) :
  StronglySorted by_order (sort_manifest m).
Proof.
  induction m as [|e m IH]; simpl; [constructor|].
  apply insert_by_order_sorted, IH.
Qed.

(** With distinct keys, an entry of the list is known by its key. *)
Lemma key_determines_entry (l : list clip_entry) (a b : clip_entry) :
  NoDup (map clip_order l) -> In a l -> In b l ->
  clip_order a = clip_order b -> a = b.
Proof.
  induction l as [|x l IH]; simpl; [tauto|].
  intros Hnd Ha Hb Hk. apply NoDup_cons in Hnd as [Hx Hnd].
  destruct Ha as [->|Ha], Hb as [->|Hb]; auto.
  - exfalso. apply Hx. rewrite Hk. apply list_elem_of_In, in_map, Hb.
  - exfalso. apply Hx. rewrite <- Hk. apply list_elem_of_In, in_map, Ha.
Qed.

(** Two sorted arrangements of the same entries, with distinct keys, are
    the same list. *)
Lemma sorted_arrangement_unique (l1 l2 : list clip_entry) :
  StronglySorted by_order l1 -> StronglySorted by_order l2 ->
  Permutation l1 l2 -> NoDup (map clip_order l1) -> l1 = l2.
Proof.
  intros Hs1. revert l2.
  induction Hs1 as [|a l1 Hs1 IH Ha]; intros l2 Hs2 Hp Hnd.
  - apply Permutation_nil in Hp. auto.
  - destruct Hs2 as [|b l2 Hs2 Hb].
    + symmetry in Hp. apply Permutation_nil in Hp. discriminate.
    + assert (a = b) as <-.
      { assert (In b (a :: l1)) as Hin1
          by (eapply Permutation_in; [symmetry; exact Hp|left; reflexivity]).
        assert (In a (b :: l2)) as Hin2
          by (eapply Permutation_in; [exact Hp|left; reflexivity]).
        apply (key_determines_entry (a :: l1)); auto; [left; reflexivity|].
        rewrite List.Forall_forall in Ha, Hb.
        destruct Hin1 as [->|Hin1]; [reflexivity|].
        destruct Hin2 as [->|Hin2]; [reflexivity|].
        specialize (Ha _ Hin1). specialize (Hb _ Hin2).
        unfold by_order in *. lia. }
      f_equal. apply Permutation_cons_inv in Hp.
      simpl in Hnd. apply NoDup_cons in Hnd as [_ Hnd]. apply IH; auto.
Qed.

Lemma sort_manifest_of_permutation (m m' : list clip_entry) :
  Permutation m m' -> NoDup (map clip_order m) ->
  sort_manifest m' = sort_manifest m.
Proof.
  intros Hp Hnd. symmetry. apply sorted_arrangement_unique.
  - apply sort_manifest_sorted.
  - apply sort_manifest_sorted.
  - rewrite !sort_manifest_perm. exact Hp.
  - rewrite sort_manifest_perm. exact Hnd.
Qed.

(** Sorted with distinct keys is ascending. *)
Lemma sorted_distinct_ascending (l : list clip_entry) :
  StronglySorted by_order l -> NoDup (map clip_order l) -> ascending l.
Proof.
  induction 1 as [|a l Hs IH Ha]; intros Hnd; [constructor|].
  simpl in Hnd. apply NoDup_cons in Hnd as [Hx Hnd].
  constructor; [apply IH, Hnd|].
  rewrite List.Forall_forall in *. intros b Hb. specialize (Ha b Hb).
  unfold by_order in Ha.
  assert (clip_order a <> clip_order b); [|lia].
  intros Heq. apply Hx. rewrite Heq. apply list_elem_of_In, in_map, Hb.
Qed.

Lemma sorted_filter (P : clip_entry -> Prop) `{forall e, Decision (P e)}
  (l : list clip_entry) :
  StronglySorted by_order l -> StronglySorted by_order (filter P l).
Proof.
  induction 1 as [|a l Hs IH Ha]; [constructor|].
  rewrite filter_cons. destruct (decide (P a)); [|exact IH].
  constructor; [exact IH|].
  rewrite List.Forall_forall in *. intros b Hb.
  apply Ha. apply list_elem_of_In in Hb. apply list_elem_of_filter in Hb as [_ Hb].
  apply list_elem_of_In, Hb.
Qed.

Lemma ascending_filter (P : clip_entry -> Prop) `{forall e, Decision (P e)}
  (l : list clip_entry) :
  ascending l -> ascending (filter P l).
Proof.
  induction 1 as [|a l Hs IH Ha]; [constructor|].
  rewrite filter_cons. destruct (decide (P a)); [|exact IH].
  constructor; [exact IH|].
  rewrite List.Forall_forall in *. intros b Hb.
  apply Ha. apply list_elem_of_In in Hb. apply list_elem_of_filter in Hb as [_ Hb].
  apply list_elem_of_In, Hb.
Qed.

Section Facts.
Context `{Env}.

Lemma collect_valid_paths (w : world) (l : list clip_entry) :
  map mp4_path (filter (fun e => clip_is_valid w e = true) l) =
  map Some (collect_valid w l).
Proof.
  unfold collect_valid. induction l as [|e l IH]; [reflexivity|].
  rewrite filter_cons. simpl.
  destruct (decide (clip_is_valid w e = true)) as [Hv|Hv].
  - rewrite Hv. unfold clip_is_valid in Hv.
    destruct (mp4_path e) as [p|] eqn:Hp.
    + simpl. rewrite Hp, IH. reflexivity.
    + rewrite andb_false_r in Hv. discriminate.
  - apply not_true_is_false in Hv. rewrite Hv. exact IH.
Qed.

(** For a manifest whose entries have distinct [clip_order] fields (in
    stage 2 they are the positions of the content items), the paths taken
    for the concatenation are those of the valid entries in ascending
    [clip_order], and every other arrangement of the same entries gives the
    same list of paths. *)
Theorem assembly_follows_clip_order (w : world) (m m' : list clip_entry) :
  Permutation m m' ->
  NoDup (map clip_order m) ->
  valid_mp4_paths_for_concat w m' = valid_mp4_paths_for_concat w m /\
  map mp4_path (chosen_clips w m) = map Some (valid_mp4_paths_for_concat w m) /\
  ascending (chosen_clips w m) /\
  (forall e, In e (chosen_clips w m) <-> In e m /\ clip_is_valid w e = true).
Proof.
  intros Hp Hnd. split; [|split; [|split]].
  - unfold valid_mp4_paths_for_concat.
    rewrite (sort_manifest_of_permutation m m' Hp Hnd). reflexivity.
  - apply collect_valid_paths.
  - apply ascending_filter, sorted_distinct_ascending.
    + apply sort_manifest_sorted.
    + rewrite sort_manifest_perm. exact Hnd.
  - intros e. unfold chosen_clips.
    rewrite <- !list_elem_of_In, list_elem_of_filter, (sort_manifest_perm m).
    tauto.
Qed.

(** C8.  For every manifest, in whatever order its entries were appended,
    the clips taken for the concatenation are the valid entries of the
    manifest in the order of their [clip_order] fields: along the list of
    the chosen clips the field never decreases, and the paths are theirs in
    this order.  When the fields are distinct, as the positions of the
    content items are, they increase strictly, and every other arrangement
    of the same entries gives the same list of paths: the order of the
    concatenation is that of the stored positions, not that of the
    appends. *)
Theorem assembly_order_is_stored_order (w : world) (m : list clip_entry) :
  StronglySorted by_order (chosen_clips w m) /\
  map mp4_path (chosen_clips w m) = map Some (valid_mp4_paths_for_concat w m) /\
  (forall e, In e (chosen_clips w m) <-> In e m /\ clip_is_valid w e = true) /\
  (NoDup (map clip_order m) ->
   ascending (chosen_clips w m) /\
   forall m', Permutation m m' ->
     valid_mp4_paths_for_concat w m' = valid_mp4_paths_for_concat w m).
Proof.
  split; [|split; [|split]].
  - apply sorted_filter, sort_manifest_sorted.
  - apply collect_valid_paths.
  - intros e. unfold chosen_clips.
    rewrite <- !list_elem_of_In, list_elem_of_filter, (sort_manifest_perm m).
    tauto.
  - intros Hnd. split.
    + apply ascending_filter, sorted_distinct_ascending.
      * apply sort_manifest_sorted.
      * rewrite sort_manifest_perm. exact Hnd.
    + intros m' Hp. unfold valid_mp4_paths_for_concat.
      rewrite (sort_manifest_of_permutation m m' Hp Hnd). reflexivity.
Qed.

End Facts.

Import Script.

(** The theorem at a manifest of three entries and an arrangement of it. *)
Lemma assembly_follows_clip_order_witness :
  @valid_mp4_paths_for_concat script_env world_with_clips manifest_shuffled =
  @valid_mp4_paths_for_concat script_env world_with_clips manifest_in_order.
Proof.
  apply (@assembly_follows_clip_order script_env world_with_clips manifest_in_order
           manifest_shuffled).
  - unfold manifest_in_order, manifest_shuffled.
    apply Permutation_sym, (Permutation_cons_app [_; _] []).
    simpl. reflexivity.
  - vm_compute. repeat constructor; simpl; intros Hin;
      repeat (apply elem_of_cons in Hin as [Hin|Hin]; [discriminate|]);
      inversion Hin.
Defined.

(** The two arrangements give the paths in the order of the items. *)
Lemma assembly_example :
  @valid_mp4_paths_for_concat script_env world_with_clips manifest_shuffled =
    ["/clips/a.mp4"; "/clips/c.mp4"].
Proof. reflexivity. Qed.

End AssemblyFacts.

(** ** Invariants of computations *)

Module Rules.
Import Py Video Spec.

Section Generic.
Context `{Env}.
Context (I : state -> Prop).

Lemma keeps_ret {A} (a : A) (Q : A -> Prop) : Q a -> keeps I (retM a) Q.
Proof. intros HQ st HI. simpl. auto. Qed.

Lemma keeps_raise {A} (e : exn) (Q : A -> Prop) : keeps I (raiseM e) Q.
Proof. intros st HI. exact HI. Qed.

Lemma keeps_bind {A B} (m : M A) (f : A -> M B) (P : A -> Prop) (Q : B -> Prop) :
  keeps I m P -> (forall a, P a -> keeps I (f a) Q) -> keeps I (bindM m f) Q.
Proof.
  intros Hm Hf st HI. unfold bindM. specialize (Hm st HI).
  destruct (m st) as [[a|e] st']; [|exact Hm].
  destruct Hm as [HI' HP]. apply (Hf a HP st' HI').
Qed.

Lemma keeps_weaken {A} (m : M A) (P Q : A -> Prop) :
  keeps I m P -> (forall a, P a -> Q a) -> keeps I m Q.
Proof.
  intros Hm HPQ st HI. specialize (Hm st HI).
  destruct (m st) as [[a|e] st']; [|exact Hm]. destruct Hm; auto.
Qed.

Lemma keeps_liftR {A} (r : res A) (Q : A -> Prop) :
  (forall a, r = Ok a -> Q a) -> keeps I (liftR r) Q.
Proof. intros HQ st HI. unfold liftR. destruct r; auto. Qed.

Lemma keeps_catch {A} (m : M A) (h : exn -> M A) (Q : A -> Prop) :
  keeps I m Q -> (forall e, keeps I (h e) Q) -> keeps I (catchM m h) Q.
Proof.
  intros Hm Hh st HI. unfold catchM. specialize (Hm st HI).
  destruct (m st) as [[a|e] st']; [exact Hm|].
  destruct (is_Exception e); [apply (Hh e st' Hm)|exact Hm].
Qed.

End Generic.

(** *** Operations on one component of the state *)

Section Components.
Context `{Env}.
Context (I : state -> Prop).

Lemma keeps_get_heap : keeps I get_heap (fun _ => True).
Proof. intros st Hst. simpl. auto. Qed.

Lemma keeps_put_heap (h : heap) :
  ignores_heap I -> keeps I (put_heap h) (fun _ => True).
Proof. intros HI st Hst. simpl. split; [|exact Logic.I]. apply HI, Hst. Qed.

Lemma keeps_world_op {A} (f : world -> A * world) :
  ignores_world I -> keeps I (world_op f) (fun _ => True).
Proof.
  intros HI st Hst. unfold world_op. destruct (f (st_world st)) as [a w].
  split; [|exact Logic.I]. apply HI, Hst.
Qed.

Lemma keeps_world_try {A} (f : world -> res A * world) :
  ignores_world I -> keeps I (world_try f) (fun _ => True).
Proof.
  intros HI st Hst. unfold world_try. destruct (f (st_world st)) as [[a|e] w].
  - split; [|exact Logic.I]. apply HI, Hst.
  - apply HI, Hst.
Qed.

Lemma keeps_world_read {A} (f : world -> A) : keeps I (world_read f) (fun _ => True).
Proof. intros st Hst. simpl. auto. Qed.

Lemma keeps_world_read_try {A} (f : world -> res A) :
  keeps I (world_read_try f) (fun _ => True).
Proof. intros st Hst. unfold world_read_try. destruct (f (st_world st)); auto. Qed.

Lemma keeps_clear_overall_success :
  ignores_flag I -> keeps I clear_overall_success (fun _ => True).
Proof. intros HI st Hst. simpl. split; [|exact Logic.I]. apply HI, Hst. Qed.

End Components.

(** A computation that is built from binds, case distinctions and
    computations already known to keep the invariant keeps it. *)
Create HintDb keeps discriminated.

#[export] Hint Resolve keeps_get_heap keeps_put_heap keeps_world_op
  keeps_world_try keeps_world_read keeps_world_read_try
  keeps_clear_overall_success : keeps.

Ltac keeps_step :=
  lazymatch goal with
  | |- keeps _ (bindM _ _) _ =>
      eapply keeps_bind with (P := fun _ => True); [|intros ? _]
  | |- keeps _ (retM _) _ => apply keeps_ret; exact Logic.I
  | |- keeps _ (raiseM _) _ => apply keeps_raise
  | |- keeps _ (liftR _) _ => apply keeps_liftR; intros; exact Logic.I
  | |- keeps _ (match ?x with _ => _ end) _ => destruct x
  | |- keeps _ _ _ => solve [eauto with keeps]
  end.

Ltac keeps_auto := repeat keeps_step.

(** *** The store under an invariant that ignores it *)

Section BlindStore.
Context `{Env}.
Context (I : state -> Prop) (HI : ignores_heap I).

Lemma keeps_alloc (o : pyobj) : keeps I (alloc o) (fun _ => True).
Proof. unfold alloc. keeps_auto. Qed.

Lemma keeps_read_obj (l : loc) : keeps I (read_obj l) (fun _ => True).
Proof. unfold read_obj. keeps_auto. Qed.

Lemma keeps_write_obj (l : loc) (o : pyobj) : keeps I (write_obj l o) (fun _ => True).
Proof. unfold write_obj. keeps_auto. Qed.

Hint Resolve keeps_alloc keeps_read_obj keeps_write_obj : keeps.

Lemma keeps_h_getitem (v : pyval) (k : string) : keeps I (h_getitem v k) (fun _ => True).
Proof. unfold h_getitem. keeps_auto. Qed.

Lemma keeps_h_setitem (v : pyval) (k : string) (x : pyval) :
  keeps I (h_setitem v k x) (fun _ => True).
Proof. unfold h_setitem. keeps_auto. Qed.

Lemma keeps_h_contains (k : string) (v : pyval) :
  keeps I (h_contains k v) (fun _ => True).
Proof. unfold h_contains. keeps_auto. Qed.

Lemma keeps_h_truthy (v : pyval) : keeps I (h_truthy v) (fun _ => True).
Proof. unfold h_truthy. keeps_auto. Qed.

Lemma keeps_dumps (v : pyval) : keeps I (dumps v) (fun _ => True).
Proof. unfold dumps. keeps_auto. Qed.

Lemma keeps_append_item (l : loc) (y : pyval) :
  keeps I (append_item l y) (fun _ => True).
Proof. unfold append_item. keeps_auto. Qed.

Hint Resolve keeps_h_getitem keeps_h_setitem keeps_h_contains keeps_h_truthy
  keeps_dumps keeps_append_item : keeps.

Lemma keeps_copy_list (dc : pyval -> memo -> M (pyval * memo)) (l : loc)
  (xs : list pyval) (mm : memo) :
  (forall v mm', keeps I (dc v mm') (fun _ => True)) ->
  keeps I (copy_list dc l xs mm) (fun _ => True).
Proof.
  intros Hdc. revert mm. induction xs as [|x xs IH]; intros mm; simpl.
  - keeps_auto.
  - eapply keeps_bind; [apply Hdc|]. intros [y mm1] _. keeps_auto.
Qed.

Lemma keeps_copy_dict (dc : pyval -> memo -> M (pyval * memo)) (l : loc)
  (d : list (string * pyval)) (mm : memo) :
  (forall v mm', keeps I (dc v mm') (fun _ => True)) ->
  keeps I (copy_dict dc l d mm) (fun _ => True).
Proof.
  intros Hdc. revert mm. induction d as [|[k x] d IH]; intros mm; simpl.
  - keeps_auto.
  - eapply keeps_bind; [apply Hdc|]. intros [y mm1] _. keeps_auto.
Qed.

Lemma keeps_deepcopy_memo (fuel : nat) (v : pyval) (mm : memo) :
  keeps I (deepcopy_memo fuel v mm) (fun _ => True).
Proof.
  revert v mm. induction fuel as [|fuel IH]; intros v mm; destruct v; simpl;
    try (keeps_auto; fail).
  destruct (dict_get l mm); [keeps_auto|].
  eapply keeps_bind with (P := fun _ => True); [keeps_auto|]. intros o _.
  destruct o as [d|xs].
  - eapply keeps_bind with (P := fun _ => True); [keeps_auto|]. intros y _.
    destruct y; try (keeps_auto; fail).
    eapply keeps_bind with (P := fun _ => True);
      [apply keeps_copy_dict, IH|]. intros; keeps_auto.
  - eapply keeps_bind with (P := fun _ => True); [keeps_auto|]. intros y _.
    destruct y; try (keeps_auto; fail).
    eapply keeps_bind with (P := fun _ => True);
      [apply keeps_copy_list, IH|]. intros; keeps_auto.
Qed.

Hint Resolve keeps_deepcopy_memo : keeps.

Lemma keeps_deepcopy (v : pyval) : keeps I (deepcopy v) (fun _ => True).
Proof. unfold deepcopy. keeps_auto. Qed.

Lemma keeps_load (j : json) : keeps I (load j) (fun _ => True).
Proof.
  revert j. fix IH 1. intros j. destruct j; simpl; try (keeps_auto; fail).
  - eapply keeps_bind with (P := fun _ => True); [|intros; keeps_auto].
    induction xs as [|x xs IHxs]; [keeps_auto|].
    eapply keeps_bind with (P := fun _ => True); [apply IH|]. intros v _.
    eapply keeps_bind with (P := fun _ => True); [apply IHxs|]. intros; keeps_auto.
  - eapply keeps_bind with (P := fun _ => True); [|intros; keeps_auto].
    induction kvs as [|[k x] kvs IHkvs]; [keeps_auto|].
    eapply keeps_bind with (P := fun _ => True); [apply IH|]. intros v _.
    eapply keeps_bind with (P := fun _ => True); [apply IHkvs|]. intros; keeps_auto.
Qed.

End BlindStore.

#[export] Hint Resolve keeps_alloc keeps_read_obj keeps_write_obj
  keeps_h_getitem keeps_h_setitem keeps_h_contains keeps_h_truthy keeps_dumps
  keeps_deepcopy keeps_load : keeps.

End Rules.

(** ** The manifest of stage 2 *)

Module ManifestFacts.
Import Py Video Spec Rules.

Section Facts.
Context `{Env}.

Lemma resolve_output_status (node_output_data : json) (r : gen_result) :
  resolve_output node_output_data = Ok r -> client_status (gr_status r).
Proof.
  unfold resolve_output, client_status.
  destruct (find_file_info node_output_data) as [found|]; simpl; [|discriminate].
  destruct (has_filename found) as [[|]|]; simpl; [| |discriminate].
  - destruct (fill_defaults found); simpl; [|discriminate].
    intros [= <-]. simpl. tauto.
  - destruct (truthy found); [destruct (say [found]); simpl; [|discriminate]|];
      intros [= <-]; simpl; tauto.
Qed.

Lemma poll_step_status (attempt : nat) (prompt_id : json) (history : option json)
  (r : gen_result) :
  poll_step attempt prompt_id history = Ok (Some r) -> client_status (gr_status r).
Proof.
  unfold poll_step. destruct history as [h|]; [|discriminate].
  destruct (truthy h); [|discriminate].
  destruct (py_in prompt_id h) as [[|]|]; simpl; try discriminate.
  destruct (py_getitem h prompt_id) as [ph|]; simpl; [|discriminate].
  destruct (py_in (JStr "outputs") ph) as [[|]|]; simpl; try discriminate.
  - destruct (py_getitem ph (JStr "outputs")) as [outputs|]; simpl; [|discriminate].
    destruct (py_in (JStr SAVE_MP4_NODE_ID) outputs) as [[|]|]; simpl;
      try discriminate.
    + destruct (py_getitem outputs (JStr SAVE_MP4_NODE_ID)) as [nod|]; simpl;
        [|discriminate].
      destruct (resolve_output nod) as [r'|] eqn:Hr; simpl; [|discriminate].
      intros [= <-]. apply (resolve_output_status _ _ Hr).
    + intros [= <-]. unfold client_status. simpl. tauto.
  - destruct (_ =? 0)%nat; [|discriminate].
    destruct (status_line ph); discriminate.
Qed.

Context (I : state -> Prop) (HW : ignores_world I) (HF : ignores_flag I).

Lemma keeps_poll (n attempt : nat) (prompt_id : json) :
  keeps I (poll n attempt prompt_id) (fun r => client_status (gr_status r)).
Proof.
  revert attempt. induction n as [|n IH]; intros attempt; simpl.
  - apply keeps_ret. unfold client_status. simpl. tauto.
  - eapply keeps_bind with (P := fun _ => True);
      [unfold comfy_get_history; keeps_auto|]. intros history _.
    eapply keeps_bind with (P := fun step => forall r, step = Some r ->
                                      client_status (gr_status r)).
    + apply keeps_liftR. intros step Hs r ->. apply (poll_step_status _ _ _ _ Hs).
    + intros [r|] Hs; [apply keeps_ret; auto|apply IH].
Qed.

Lemma keeps_comfy_queue_prompt (v : pyval) :
  keeps I (comfy_queue_prompt v) (fun _ => True).
Proof. unfold comfy_queue_prompt. keeps_auto. Qed.

Hint Resolve keeps_comfy_queue_prompt : keeps.

Lemma keeps_download (filename subfolder file_type : json) (target : string) :
  keeps I (download_comfy_output filename subfolder file_type target)
    (fun _ => True).
Proof.
  unfold download_comfy_output. destruct (truthy filename); simpl; [|keeps_auto].
  do 2 (eapply keeps_bind with (P := fun _ => True); [keeps_auto|]; intros _ _).
  apply keeps_catch; [|intros; keeps_auto].
  eapply keeps_bind with (P := fun _ => True); [keeps_auto|]. intros _ _.
  eapply keeps_bind with (P := fun _ => True); [keeps_auto|]. intros [code body] _.
  keeps_auto.
Qed.

Hint Resolve keeps_download : keeps.

(** The triple that [fetch_clip] returns has a path exactly in the status
    of a downloaded clip. *)
Lemma keeps_fetch_clip (r : gen_result) :
  keeps I (fetch_clip r)
    (fun o : status_code * option json * option string =>
       is_Some o.2 <-> o.1.1 = SUCCESS_MP4_DOWNLOADED).
Proof.
  assert (forall info,
            keeps I (bindM clear_overall_success (fun _ =>
                       retM (ERROR_SUCCESS_NO_FILEDATA, info, @None string)))
              (fun o : status_code * option json * option string =>
       is_Some o.2 <-> o.1.1 = SUCCESS_MP4_DOWNLOADED)) as Hno.
  { intros info. eapply keeps_bind with (P := fun _ => True); [keeps_auto|].
    intros _ _. apply keeps_ret. simpl. split; [intros [? [=]]|discriminate]. }
  unfold fetch_clip. destruct (gr_data r) as [info|]; [|apply Hno].
  destruct (truthy info); [|apply Hno].
  eapply keeps_bind with (P := fun _ => True); [keeps_auto|]. intros fn _.
  destruct (truthy fn); [|apply Hno].
  eapply keeps_bind with (P := fun _ => True);
    [destruct fn; keeps_auto|]. intros name _.
  eapply keeps_bind with (P := fun _ => True); [keeps_auto|]. intros filename _.
  eapply keeps_bind with (P := fun _ => True); [keeps_auto|]. intros subfolder _.
  eapply keeps_bind with (P := fun _ => True); [keeps_auto|]. intros file_type _.
  eapply keeps_bind with (P := fun _ => True); [keeps_auto|]. intros [|] _.
  - apply keeps_ret. simpl. split; [reflexivity|eauto].
  - eapply keeps_bind with (P := fun _ => True); [keeps_auto|]. intros _ _.
    apply keeps_ret. simpl. split; [intros [? [=]]|discriminate].
Qed.

End Facts.

#[export] Hint Resolve keeps_comfy_queue_prompt keeps_download : keeps.

Section Stage2.
Context `{Env}.

Lemma keeps_run_comfyui_video_generation (I : state -> Prop)
  (text base : pyval) (prefix : string) (frames width height : json) :
  ignores_world I -> ignores_heap I ->
  keeps I (run_comfyui_video_generation text base prefix frames width height)
    (fun r => client_status (gr_status r)).
Proof.
  intros HW HH. unfold run_comfyui_video_generation, await_outputs.
  assert (forall s, client_status s -> keeps I (retM (failed s))
            (fun r => client_status (gr_status r))) as Hfail
    by (intros; apply keeps_ret; assumption).
  repeat first
    [ apply Hfail; unfold client_status; simpl; tauto
    | apply keeps_poll; assumption
    | match goal with
      | |- keeps _ (bindM _ _) _ =>
          eapply keeps_bind with (P := fun _ => True); [keeps_auto|intros ? _]
      | |- keeps _ (if ?b then _ else _) _ => destruct b
      | |- keeps _ (match ?x with _ => _ end) _ => destruct x
      end ].
Qed.

Lemma manifest_consistent_ignores :
  ignores_world manifest_consistent /\ ignores_heap manifest_consistent /\
  ignores_flag manifest_consistent.
Proof. repeat split; intros st ? Hst; exact Hst. Qed.

Lemma keeps_append_manifest (e : clip_entry) :
  path_iff_downloaded e ->
  keeps manifest_consistent (append_manifest e) (fun _ => True).
Proof.
  intros He st Hst. simpl. split; [|exact I].
  unfold manifest_consistent in *. simpl.
  apply Forall_app. split; [exact Hst|]. constructor; [exact He|constructor].
Qed.

Lemma keeps_process_item (base_workflow : pyval) (i : nat) (item : json) :
  keeps manifest_consistent (process_item base_workflow i item) (fun _ => True).
Proof.
  destruct manifest_consistent_ignores as (HW & HH & HF).
  unfold process_item.
  eapply keeps_bind with (P := fun _ => True); [keeps_auto|]. intros item_id _.
  eapply keeps_bind with (P := fun _ => True); [keeps_auto|]. intros video_prompt _.
  destruct (truthy video_prompt); simpl.
  2:{ apply keeps_append_manifest. unfold path_iff_downloaded. simpl.
      split; [intros [? [=]]|discriminate]. }
  do 6 (eapply keeps_bind with (P := fun _ => True); [keeps_auto|]; intros ? _).
  eapply keeps_bind;
    [apply keeps_run_comfyui_video_generation; assumption|]. intros r Hr.
  eapply keeps_bind with
    (P := fun o : status_code * option json * option string =>
            is_Some o.2 <-> o.1.1 = SUCCESS_MP4_DOWNLOADED).
  - destruct (decide (gr_status r = SUCCESS)) as [Hs|Hs].
    + apply keeps_fetch_clip; assumption.
    + eapply keeps_bind with (P := fun _ => True);
        [apply keeps_clear_overall_success; assumption|]. intros _ _.
      apply keeps_ret. simpl. split; [intros [? [=]]|].
      intros Hd. unfold client_status in Hr. simpl in Hr, Hd. rewrite Hd in Hr.
      repeat (destruct Hr as [Hr|Hr]; [discriminate|]). destruct Hr.
  - intros [[s info] path] Ho. apply keeps_append_manifest. exact Ho.
Qed.

Lemma keeps_stage2_loop (base_workflow : pyval) (i : nat) (content_items : list json) :
  keeps manifest_consistent (stage2_loop base_workflow i content_items)
    (fun _ => True).
Proof.
  revert i. induction content_items as [|item rest IH]; intros i; simpl.
  - apply keeps_ret. exact I.
  - eapply keeps_bind; [apply keeps_process_item|]. intros _ _. apply IH.
Qed.

(** C9.  After stage 2, however it ends (also when an item raises and the
    loop is left), every entry of the manifest has a local path if and only
    if its status is [SUCCESS_MP4_DOWNLOADED], the status of a clip that
    was downloaded and verified: an entry of any other status has no
    path. *)
Theorem manifest_path_iff_downloaded (base_workflow : pyval)
  (content_items : list json) (st : state) :
  Forall path_iff_downloaded
    (clips_manifest (snd (stage2 base_workflow content_items st))).
Proof.
  unfold stage2, bindM. simpl.
  pose proof (keeps_stage2_loop base_workflow 0 content_items
                (mkState (st_heap st) (st_world st) [] true)) as Hloop.
  destruct (stage2_loop base_workflow 0 content_items _) as [[[]|e] st'];
    simpl in *.
  - apply Hloop. constructor.
  - apply Hloop. constructor.
Qed.

End Stage2.
End ManifestFacts.

(** ** The workflow template is not modified *)

Module FrameFacts.
Import Py Video Spec Rules ManifestFacts.

Lemma dict_get_In {K V : Type} `{EqDecision K} (k : K) (d : list (K * V)) (v : V) :
  dict_get k d = Some v -> In (k, v) d.
Proof.
  induction d as [|[k' v'] d IH]; simpl; [discriminate|].
  destruct (decide (k = k')) as [->|]; [intros [= ->]; auto|auto].
Qed.

Lemma dict_set_In {V : Type} (k k' : string) (v v' : V) (d : list (string * V)) :
  In (k', v') (dict_set k v d) -> (k', v') = (k, v) \/ In (k', v') d.
Proof.
  induction d as [|[k'' v''] d IH]; simpl.
  - intros [?|[]]; auto.
  - destruct (decide (k = k'')) as [->|]; simpl.
    + intros [?|?]; auto.
    + intros [?|?]; auto. destruct (IH H); auto.
Qed.

Section Facts.
Context `{Env}.
Context (h0 : heap).
Local Abbreviation n0 := (length h0).

Lemma frame_ignores :
  ignores_world (frame h0) /\ ignores_flag (frame h0) /\
  ignores_manifest (frame h0).
Proof. split; [|split]; intros st ? Hst; exact Hst. Qed.

Lemma frame_ignores_world : ignores_world (frame h0).
Proof. apply frame_ignores. Qed.

Lemma frame_ignores_flag : ignores_flag (frame h0).
Proof. apply frame_ignores. Qed.

Lemma frame_alloc (o : pyobj) :
  obj_fresh n0 o -> keeps (frame h0) (alloc o) (fresh n0).
Proof.
  intros Ho st (Hlen & Hold & Hnew). simpl. split; [|exact Hlen].
  split; [|split]; simpl.
  - rewrite length_app. lia.
  - intros l o' Hl. apply lookup_app_l_Some, Hold, Hl.
  - intros l o' Hl Hlook. apply lookup_app_Some in Hlook as [Hlook|[_ Hlook]].
    + apply (Hnew l o' Hl Hlook).
    + apply list_lookup_singleton_Some in Hlook as [_ <-]. exact Ho.
Qed.

Lemma frame_read_obj (l : loc) :
  keeps (frame h0) (read_obj l) (fun o => (n0 <= l)%nat -> obj_fresh n0 o).
Proof.
  intros st Hst. unfold read_obj, bindM, get_heap.
  destruct (st_heap st !! l) as [o|] eqn:Hl; simpl; [|exact Hst].
  split; [exact Hst|]. intros Hn. destruct Hst as (_ & _ & Hnew).
  apply (Hnew l o Hn Hl).
Qed.

Lemma frame_write_obj (l : loc) (o : pyobj) :
  (n0 <= l)%nat -> obj_fresh n0 o ->
  keeps (frame h0) (write_obj l o) (fun _ => True).
Proof.
  intros Hl Ho st (Hlen & Hold & Hnew). simpl. split; [|exact Logic.I].
  split; [|split]; simpl.
  - rewrite length_insert. exact Hlen.
  - intros l' o' Hl'. rewrite list_lookup_insert_ne; [apply Hold, Hl'|].
    apply lookup_lt_Some in Hl'. lia.
  - intros l' o' Hn Hlook.
    apply list_lookup_insert_Some in Hlook as [(_ & <- & _)|[_ Hlook]];
      [exact Ho|apply (Hnew l' o' Hn Hlook)].
Qed.

Lemma frame_h_getitem (v : pyval) (k : string) :
  fresh n0 v -> k <> "text" -> keeps (frame h0) (h_getitem v k) (fresh n0).
Proof.
  intros Hv Hk. unfold h_getitem. destruct v; try apply keeps_raise.
  eapply keeps_bind; [apply frame_read_obj|]. intros o Ho.
  destruct o as [d|xs]; [|apply keeps_raise].
  destruct (dict_get k d) as [x|] eqn:Hx; [|apply keeps_raise].
  apply keeps_ret. apply dict_get_In in Hx.
  destruct (Ho Hv k x Hx); [contradiction|assumption].
Qed.

Lemma frame_h_setitem (v : pyval) (k : string) (x : pyval) :
  fresh n0 v -> k = "text" \/ fresh n0 x ->
  keeps (frame h0) (h_setitem v k x) (fun _ => True).
Proof.
  intros Hv Hx. unfold h_setitem. destruct v; try apply keeps_raise.
  eapply keeps_bind; [apply frame_read_obj|]. intros o Ho.
  destruct o as [d|xs]; [|apply keeps_raise].
  apply frame_write_obj; [exact Hv|].
  intros k' v' Hin. apply dict_set_In in Hin as [[= -> ->]|Hin];
    [exact Hx|apply (Ho Hv k' v' Hin)].
Qed.

Lemma frame_append_item (l : loc) (y : pyval) :
  (n0 <= l)%nat -> fresh n0 y ->
  keeps (frame h0) (append_item l y) (fun _ => True).
Proof.
  intros Hl Hy. unfold append_item.
  eapply keeps_bind; [apply frame_read_obj|]. intros o Ho.
  destruct o as [d|ys]; [apply keeps_raise|].
  apply frame_write_obj; [exact Hl|].
  simpl. apply Forall_app. split; [apply (Ho Hl)|]. constructor; [exact Hy|constructor].
Qed.

Lemma frame_copy_list (dc : pyval -> memo -> M (pyval * memo)) (l : loc)
  (xs : list pyval) (mm : memo) :
  (forall v mm', memo_fresh n0 mm' -> keeps (frame h0) (dc v mm') (copied n0)) ->
  (n0 <= l)%nat -> memo_fresh n0 mm ->
  keeps (frame h0) (copy_list dc l xs mm) (memo_fresh n0).
Proof.
  intros Hdc Hl. revert mm. induction xs as [|x xs IH]; intros mm Hmm; simpl.
  - apply keeps_ret, Hmm.
  - eapply keeps_bind; [apply Hdc, Hmm|]. intros [y mm1] [Hy Hmm1].
    eapply keeps_bind; [apply frame_append_item; assumption|]. intros _ _.
    apply IH, Hmm1.
Qed.

Lemma frame_copy_dict (dc : pyval -> memo -> M (pyval * memo)) (l : loc)
  (d : list (string * pyval)) (mm : memo) :
  (forall v mm', memo_fresh n0 mm' -> keeps (frame h0) (dc v mm') (copied n0)) ->
  (n0 <= l)%nat -> memo_fresh n0 mm ->
  keeps (frame h0) (copy_dict dc l d mm) (memo_fresh n0).
Proof.
  intros Hdc Hl. revert mm.
  induction d as [|[k x] d IH]; intros mm Hmm; cbn [copy_dict].
  - apply keeps_ret, Hmm.
  - eapply keeps_bind; [apply Hdc, Hmm|]. intros [y mm1] [Hy Hmm1].
    eapply keeps_bind; [apply frame_h_setitem; [exact Hl|right; exact Hy]|].
    intros _ _. apply IH, Hmm1.
Qed.

Lemma memo_fresh_cons (l l' : loc) (mm : memo) :
  (n0 <= l')%nat -> memo_fresh n0 mm -> memo_fresh n0 ((l, l') :: mm).
Proof. intros Hl Hmm a b [[= <- <-]|Hin]; [exact Hl|apply (Hmm a b Hin)]. Qed.

Lemma frame_deepcopy_memo (fuel : nat) (v : pyval) (mm : memo) :
  memo_fresh n0 mm -> keeps (frame h0) (deepcopy_memo fuel v mm) (copied n0).
Proof.
  revert v mm. induction fuel as [|fuel IH]; intros v mm Hmm;
    destruct v as [| | | | |l]; simpl;
    try (apply keeps_ret; split; [exact Logic.I|exact Hmm]).
  - destruct (dict_get l mm) as [l'|] eqn:Hl; [|apply keeps_raise].
    apply keeps_ret. split; [|exact Hmm]. apply (Hmm l l'), dict_get_In, Hl.
  - destruct (dict_get l mm) as [l'|] eqn:Hl.
    { apply keeps_ret. split; [|exact Hmm]. apply (Hmm l l'), dict_get_In, Hl. }
    eapply keeps_bind with (P := fun _ => True); [keeps_auto|]. intros o _.
    destruct o as [d|xs].
    + eapply keeps_bind; [apply frame_alloc; intros ? ? []|]. intros y Hy.
      destruct y as [| | | | |l']; try apply keeps_raise.
      eapply keeps_bind;
        [apply frame_copy_dict; [exact IH|exact Hy|apply memo_fresh_cons; assumption]|].
      intros mm' Hmm'. apply keeps_ret. split; assumption.
    + eapply keeps_bind; [apply frame_alloc; constructor|]. intros y Hy.
      destruct y as [| | | | |l']; try apply keeps_raise.
      eapply keeps_bind;
        [apply frame_copy_list; [exact IH|exact Hy|apply memo_fresh_cons; assumption]|].
      intros mm' Hmm'. apply keeps_ret. split; assumption.
Qed.

Lemma frame_deepcopy (v : pyval) : keeps (frame h0) (deepcopy v) (fresh n0).
Proof.
  unfold deepcopy. eapply keeps_bind with (P := fun _ => True); [keeps_auto|].
  intros h _. eapply keeps_bind; [apply frame_deepcopy_memo; intros ? ? []|].
  intros [y mm] [Hy _]. apply keeps_ret, Hy.
Qed.

Lemma frame_load (j : json) : keeps (frame h0) (load j) (fresh n0).
Proof.
  revert j. fix IH 1. intros j.
  destruct j as [| | | | |xs|kvs]; simpl; try (apply keeps_ret; exact Logic.I).
  - eapply keeps_bind with (P := Forall (fresh n0)); [|intros vs Hvs; apply frame_alloc, Hvs].
    induction xs as [|x xs IHxs]; [apply keeps_ret; constructor|].
    eapply keeps_bind; [apply IH|]. intros v Hv.
    eapply keeps_bind; [apply IHxs|]. intros vs Hvs.
    apply keeps_ret. constructor; assumption.
  - eapply keeps_bind with
      (P := fun d : list (string * pyval) => forall k v, In (k, v) d -> fresh n0 v);
      [|intros d Hd; apply frame_alloc; intros k v Hin; right; apply (Hd k v Hin)].
    induction kvs as [|[k x] kvs IHkvs]; [apply keeps_ret; intros ? ? []|].
    eapply keeps_bind; [apply IH|]. intros v Hv.
    eapply keeps_bind; [apply IHkvs|]. intros d Hd.
    apply keeps_ret. intros k' v' [[= <- <-]|Hin]; [exact Hv|apply (Hd k' v' Hin)].
Qed.

Hint Resolve frame_ignores_world frame_ignores_flag : keeps.

Ltac frame_step :=
  lazymatch goal with
  | |- keeps _ (bindM (h_getitem _ _) _) _ =>
      eapply keeps_bind;
      [apply frame_h_getitem; [assumption|discriminate]|intros ? ?]
  | |- keeps _ (bindM (h_setitem _ _ _) _) _ =>
      eapply keeps_bind;
      [apply frame_h_setitem;
       [assumption|first [left; reflexivity|right; exact Logic.I]]
      |intros _ _]
  | |- keeps _ (bindM (deepcopy _) _) _ =>
      eapply keeps_bind; [apply frame_deepcopy|intros ? ?]
  | |- keeps _ (bindM _ _) _ =>
      eapply keeps_bind with (P := fun _ => True); [keeps_auto|intros ? _]
  | |- keeps _ (if ?b then _ else _) _ => destruct b
  | |- keeps _ (match ?x with _ => _ end) _ => destruct x
  | |- keeps _ (retM _) _ => apply keeps_ret; exact Logic.I
  | |- keeps _ (poll _ _ _) _ =>
      eapply keeps_weaken;
      [apply keeps_poll, frame_ignores_world|intros; exact Logic.I]
  end.

(** The render client under the frame: it writes to fresh objects only. *)
Lemma frame_run_comfyui_video_generation (text base : pyval) (prefix : string)
  (frames width height : json) :
  keeps (frame h0)
    (run_comfyui_video_generation text base prefix frames width height)
    (fun _ => True).
Proof.
  unfold run_comfyui_video_generation, await_outputs. repeat frame_step.
Qed.

Lemma frame_append_manifest (e : clip_entry) :
  keeps (frame h0) (append_manifest e) (fun _ => True).
Proof. intros st Hst. simpl. split; [exact Hst|exact Logic.I]. Qed.

Hint Resolve frame_append_manifest : keeps.

Lemma frame_process_item (base_workflow : pyval) (i : nat) (item : json) :
  keeps (frame h0) (process_item base_workflow i item) (fun _ => True).
Proof.
  unfold process_item.
  do 2 (eapply keeps_bind with (P := fun _ => True); [keeps_auto|]; intros ? _).
  destruct (truthy _); simpl; [|keeps_auto].
  do 5 (eapply keeps_bind with (P := fun _ => True); [keeps_auto|]; intros ? _).
  eapply keeps_bind with (P := fun _ => True);
    [eapply keeps_weaken; [apply frame_load|intros; exact Logic.I]|]. intros ? _.
  eapply keeps_bind; [apply frame_run_comfyui_video_generation|]. intros r _.
  eapply keeps_bind with (P := fun _ => True).
  - destruct (decide _).
    + eapply keeps_weaken;
        [apply keeps_fetch_clip; auto with keeps|intros; exact Logic.I].
    + keeps_auto.
  - intros [[? ?] ?] _. keeps_auto.
Qed.

Lemma frame_stage2_loop (base_workflow : pyval) (i : nat) (content_items : list json) :
  keeps (frame h0) (stage2_loop base_workflow i content_items) (fun _ => True).
Proof.
  revert i. induction content_items as [|item rest IH]; intros i; simpl.
  - apply keeps_ret. exact Logic.I.
  - eapply keeps_bind; [apply frame_process_item|]. intros _ _. apply IH.
Qed.

End Facts.

Section Theorems.
Context `{Env}.

Lemma frame_start (st : state) : frame (st_heap st) st.
Proof.
  split; [lia|]. split; [auto|].
  intros l o Hl Hlook. apply lookup_lt_Some in Hlook. lia.
Qed.

(** What [json.dumps] gives for a value depends only on the objects that
    it reaches. *)
Lemma dump_frame (h h' : heap) :
  (forall l o, h !! l = Some o -> h' !! l = Some o) ->
  forall fuel v j, dump fuel h v = Some j -> dump fuel h' v = Some j.
Proof.
  intros Hsub. induction fuel as [|fuel IH]; intros v j; destruct v; simpl; auto.
  destruct (h !! l) as [o|] eqn:Hl; [|discriminate].
  rewrite (Hsub l o Hl). destruct o as [d|xs].
  - destruct (mapM _ d) as [d'|] eqn:Hd; [|discriminate]. intros [= <-].
    assert (mapM (fun kv : string * pyval =>
                    x ← dump fuel h' kv.2; Some (kv.1, x)) d = Some d') as ->;
      [|reflexivity].
    apply mapM_Some. apply mapM_Some in Hd.
    eapply Forall2_impl; [exact Hd|]. intros [k v] [k' j'] Hkv. simpl in *.
    destruct (dump fuel h v) as [x|] eqn:Hx; [|discriminate].
    rewrite (IH _ _ Hx). exact Hkv.
  - destruct (mapM _ xs) as [xs'|] eqn:Hxs; [|discriminate]. intros [= <-].
    assert (mapM (dump fuel h') xs = Some xs') as ->; [|reflexivity].
    apply mapM_Some. apply mapM_Some in Hxs.
    eapply Forall2_impl; [exact Hxs|]. intros v j' Hv. apply (IH _ _ Hv).
Qed.

(** C10.  A call of the render client, whatever its arguments and however
    it ends, leaves every object that was in the store before the call as it
    was, the objects of the workflow template among them: the text that
    [json.dumps] gives for the template is the same after the call.  The
    edits of the call go to objects that [deepcopy] has created. *)
Theorem template_left_unmodified (video_prompt_text base_workflow : pyval)
  (output_filename_prefix : string) (video_frames video_width video_height : json)
  (st : state) :
  let st' :=
    snd (run_comfyui_video_generation video_prompt_text base_workflow
           output_filename_prefix video_frames video_width video_height st) in
  (forall l o, st_heap st !! l = Some o -> st_heap st' !! l = Some o) /\
  (forall fuel j, dump fuel (st_heap st) base_workflow = Some j ->
                  dump fuel (st_heap st') base_workflow = Some j).
Proof.
  intros st'.
  assert (forall l o, st_heap st !! l = Some o -> st_heap st' !! l = Some o) as Hold.
  { pose proof (frame_run_comfyui_video_generation (st_heap st)
                  video_prompt_text base_workflow output_filename_prefix
                  video_frames video_width video_height st (frame_start st)) as Hrun.
    subst st'. destruct (run_comfyui_video_generation _ _ _ _ _ _ st) as [[r|e] st1];
      simpl; [apply Hrun|apply Hrun]. }
  split; [exact Hold|]. intros fuel j. apply dump_frame, Hold.
Qed.

(** The same for the whole of stage 2: every job starts from the template
    as it was loaded. *)
Lemma stage2_leaves_template (base_workflow : pyval) (content_items : list json)
  (st : state) (l : loc) (o : pyobj) :
  st_heap st !! l = Some o ->
  st_heap (snd (stage2 base_workflow content_items st)) !! l = Some o.
Proof.
  unfold stage2, bindM. simpl.
  pose proof (frame_stage2_loop (st_heap st) base_workflow 0 content_items
                (mkState (st_heap st) (st_world st) [] true)) as Hloop.
  assert (frame (st_heap st) (mkState (st_heap st) (st_world st) [] true)) as Hst
    by apply (frame_start (mkState (st_heap st) (st_world st) [] true)).
  specialize (Hloop Hst).
  destruct (stage2_loop base_workflow 0 content_items _) as [[[]|e] st'];
    simpl in *; apply Hloop.
Qed.

(** Stage 2 as a whole, however many jobs it runs and however it ends,
    leaves the workflow template as it was loaded: every object of the
    store before the stage is unchanged after it, so that [json.dumps] of
    the template gives the same text and every job has started from the
    same template. *)
Theorem stage2_template_intact (base_workflow : pyval)
  (content_items : list json) (st : state) :
  let st' := snd (stage2 base_workflow content_items st) in
  (forall l o, st_heap st !! l = Some o -> st_heap st' !! l = Some o) /\
  (forall fuel j, dump fuel (st_heap st) base_workflow = Some j ->
                  dump fuel (st_heap st') base_workflow = Some j).
Proof.
  intros st'.
  assert (forall l o, st_heap st !! l = Some o -> st_heap st' !! l = Some o)
    as Hold by (intros l o; apply stage2_leaves_template).
  split; [exact Hold|]. intros fuel j. apply dump_frame, Hold.
Qed.

End Theorems.
End FrameFacts.

(** ** File names and their indices *)

Module NamingFacts.
Import Py Combine Video Naming.

(** Appending to a string whose first characters are known. *)
Ltac push_append :=
  repeat match goal with
    | |- context [String ?a ?s +:+ ?t] =>
        change (String a s +:+ t) with (String a (s +:+ t))
    | |- context [EmptyString +:+ ?t] => change (EmptyString +:+ t) with t
    end.

Lemma digit_is_not (c x : ascii) :
  is_digit c = false -> is_digit x = true -> Ascii.eqb c x = false.
Proof.
  intros Hc Hx. destruct (Ascii.eqb_spec c x) as [->|]; [congruence|reflexivity].
Qed.

(** A subject that starts with a digit has no match of either pattern at
    its start. *)
Lemma search_wav_skip_digit (x : ascii) (s : string) :
  is_digit x = true -> search wav_pat (String x s) = search wav_pat s.
Proof.
  intros Hx. cbn -[Ascii.eqb is_digit].
  rewrite (digit_is_not "c" x); [reflexivity|reflexivity|exact Hx].
Qed.

Lemma search_mp4_skip_digit (x : ascii) (s : string) :
  is_digit x = true -> search mp4_pat (String x s) = search mp4_pat s.
Proof.
  intros Hx. cbn -[Ascii.eqb is_digit].
  rewrite (digit_is_not "n" x); [reflexivity|reflexivity|exact Hx].
Qed.

Lemma search_wav_skip_digits (ds t : string) :
  all_digits ds = true -> search wav_pat (ds +:+ t) = search wav_pat t.
Proof.
  induction ds as [|x ds IH]; [reflexivity|]. intros Hds. simpl in Hds.
  apply andb_prop in Hds as [Hx Hds].
  change (String x ds +:+ t) with (String x (ds +:+ t)).
  rewrite search_wav_skip_digit; auto.
Qed.

Lemma search_mp4_skip_digits (ds t : string) :
  all_digits ds = true -> search mp4_pat (ds +:+ t) = search mp4_pat t.
Proof.
  induction ds as [|x ds IH]; [reflexivity|]. intros Hds. simpl in Hds.
  apply andb_prop in Hds as [Hx Hds].
  change (String x ds +:+ t) with (String x (ds +:+ t)).
  rewrite search_mp4_skip_digit; auto.
Qed.

(** Four digits between the fixed parts of a narration name are its
    index. *)
Lemma wav_index_of_digits (a b c d : ascii) :
  is_digit a = true -> is_digit b = true -> is_digit c = true ->
  is_digit d = true ->
  index_from
    ("clip_" +:+ String a (String b (String c (String d "_narration.wav"))))
    wav_pat =
  Some (String a (String b (String c (String d "")))).
Proof.
  intros Ha Hb Hc Hd. unfold index_from. push_append. cbn -[is_digit].
  rewrite Ha, Hb, Hc, Hd. reflexivity.
Qed.

(** The greedy run of digits before [".mp4"] is consumed whole. *)
Lemma match_star_digits {R : Type} (k : string -> option R) (cnt : string) (r : R) :
  all_digits cnt = true -> k ".mp4" = Some r ->
  match_star CDigit k (cnt +:+ ".mp4") = Some r.
Proof.
  intros Hcnt Hk. induction cnt as [|x cnt IH].
  - cbn. exact Hk.
  - simpl in Hcnt. apply andb_prop in Hcnt as [Hx Hcnt].
    push_append. cbn -[is_digit]. rewrite Hx, (IH Hcnt). reflexivity.
Qed.

Lemma take_consumed_4 (a b c d : ascii) (rest : string) :
  take_consumed (String a (String b (String c (String d rest)))) rest =
  String a (String b (String c (String d ""))).
Proof.
  unfold take_consumed. simpl String.length.
  replace (S (S (S (S (String.length rest)))) - String.length rest)%nat
    with 4%nat by lia.
  cbn. destruct rest; reflexivity.
Qed.

(** Four digits between the fixed parts of a clip name are its index,
    whatever counter the save node has appended. *)
Lemma mp4_index_of_digits (a b c d : ascii) (cnt : string) :
  is_digit a = true -> is_digit b = true -> is_digit c = true ->
  is_digit d = true -> all_digits cnt = true -> cnt <> "" ->
  index_from
    ("narrativegen_clip_" +:+
       String a (String b (String c (String d ("__" +:+ cnt +:+ ".mp4")))))
    mp4_pat =
  Some (String a (String b (String c (String d "")))).
Proof.
  intros Ha Hb Hc Hd Hcnt Hne. unfold index_from.
  destruct cnt as [|x cnt]; [contradiction|].
  simpl in Hcnt. apply andb_prop in Hcnt as [Hx Hcnt].
  push_append. cbn -[is_digit match_star take_consumed].
  rewrite Ha, Hb, Hc, Hd, Hx, take_consumed_4.
  erewrite match_star_digits; [reflexivity|exact Hcnt|reflexivity].
Qed.

(** *** What [:04d] writes *)

Lemma four_digits_inv (s : string) :
  four_digits s = true ->
  exists a b c d,
    s = String a (String b (String c (String d ""))) /\
    is_digit a = true /\ is_digit b = true /\ is_digit c = true /\
    is_digit d = true.
Proof.
  unfold four_digits. intros Hs. apply andb_prop in Hs as [Hlen Hd].
  apply Nat.eqb_eq in Hlen.
  destruct s as [|a [|b [|c [|d [|e s]]]]]; try discriminate.
  simpl in Hd. repeat (apply andb_prop in Hd as [? Hd]).
  exists a, b, c, d. auto.
Qed.

Lemma all_below_spec (P : nat -> bool) (n k : nat) :
  all_below P n = true -> (k < n)%nat -> P k = true.
Proof.
  induction n as [|n IH]; simpl; [lia|].
  intros Hn Hk. apply andb_prop in Hn as [Hp Hn].
  destruct (decide (k = n)) as [->|]; [exact Hp|]. apply IH; [exact Hn|lia].
Qed.

Lemma format_04d_small_all :
  all_below written_with_four_digits (Z.to_nat 10000) = true.
Proof. vm_compute. reflexivity. Qed.

Lemma format_04d_small (n : Z) :
  0 <= n < 10000 ->
  exists s, format_04d (JInt n) = Ok s /\ four_digits s = true.
Proof.
  intros Hn.
  pose proof (all_below_spec _ _ (Z.to_nat n) format_04d_small_all) as Hall.
  unfold written_with_four_digits in Hall. rewrite Z2Nat.id in Hall by lia.
  destruct (format_04d (JInt n)) as [s|e].
  - exists s. split; [reflexivity|]. apply Hall. lia.
  - assert (false = true); [|discriminate]. apply Hall. lia.
Qed.

Lemma of_lu_bound (d : Decimal.uint) :
  (DecimalPos.Unsigned.of_lu d < 10 ^ N.of_nat (Decimal.nb_digits d))%N.
Proof.
  induction d; simpl Decimal.nb_digits;
    rewrite ?Nat2N.inj_succ, ?N.pow_succ_r'; simpl DecimalPos.Unsigned.of_lu; lia.
Qed.

(** A number from 10000 on is written with five digits or more. *)
Lemma to_uint_five_digits (n : N) :
  (10000 <= n)%N -> (5 <= Decimal.nb_digits (N.to_uint n))%nat.
Proof.
  intros Hn. pose proof (of_lu_bound (Decimal.rev (N.to_uint n))) as Hb.
  rewrite DecimalFacts.nb_digits_rev in Hb.
  rewrite <- DecimalPos.Unsigned.of_uint_alt in Hb.
  change (Pos.of_uint (N.to_uint n)) with (N.of_uint (N.to_uint n)) in Hb.
  rewrite DecimalN.Unsigned.of_to in Hb.
  destruct (le_lt_dec 5 (Decimal.nb_digits (N.to_uint n))) as [|Hlt]; [assumption|].
  exfalso.
  assert (10 ^ N.of_nat (Decimal.nb_digits (N.to_uint n)) <= 10 ^ 4)%N
    by (apply N.pow_le_mono_r; lia).
  change (10 ^ 4)%N with 10000%N in *. lia.
Qed.

Lemma string_of_uint_digits (d : Decimal.uint) :
  all_digits (NilEmpty.string_of_uint d) = true.
Proof. induction d; simpl; auto. Qed.

Lemma string_of_uint_length (d : Decimal.uint) :
  String.length (NilEmpty.string_of_uint d) = Decimal.nb_digits d.
Proof. induction d; simpl; auto. Qed.

Lemma decimal_digits (n : N) :
  all_digits (NilZero.string_of_uint (N.to_uint n)) = true.
Proof.
  unfold NilZero.string_of_uint.
  destruct (N.to_uint n); try apply string_of_uint_digits. reflexivity.
Qed.

Lemma decimal_length (n : N) :
  (10000 <= n)%N ->
  (5 <= String.length (NilZero.string_of_uint (N.to_uint n)))%nat.
Proof.
  intros Hn. pose proof (to_uint_five_digits n Hn) as Hd.
  unfold NilZero.string_of_uint.
  destruct (N.to_uint n) eqn:Hu; try (rewrite string_of_uint_length; exact Hd).
  simpl in Hd. lia.
Qed.

Lemma all_digits_app (s t : string) :
  all_digits (s +:+ t) = all_digits s && all_digits t.
Proof.
  induction s as [|a s IH]; [reflexivity|]. push_append. simpl.
  rewrite IH, andb_assoc. reflexivity.
Qed.

Lemma all_digits_zeros (k : nat) :
  all_digits (String.concat "" (repeat "0" k)) = true.
Proof.
  induction k as [|k IH]; [reflexivity|]. simpl.
  destruct (repeat "0" k) eqn:Hr.
  - reflexivity.
  - rewrite <- Hr in *. change (String "0" "" +:+ "" +:+ String.concat "" (repeat "0" k))
      with (String "0" (String.concat "" (repeat "0" k))).
    simpl. exact IH.
Qed.

Lemma format_04d_large (n : Z) :
  10000 <= n ->
  exists ds, format_04d (JInt n) = Ok ds /\ all_digits ds = true /\
             (5 <= String.length ds)%nat.
Proof.
  intros Hn. unfold format_04d.
  destruct (n <? 0) eqn:Hneg; [apply Z.ltb_lt in Hneg; lia|].
  pose proof (decimal_length (Z.to_N (Z.abs n))) as Hlen.
  pose proof (decimal_digits (Z.to_N (Z.abs n))) as Hdig.
  set (ds := NilZero.string_of_uint (N.to_uint (Z.to_N (Z.abs n)))) in *.
  specialize (Hlen ltac:(lia)).
  exists ds. unfold pad_zeros.
  replace (4 - String.length ds)%nat with 0%nat by lia.
  simpl. auto.
Qed.

Lemma format_04d_negative (n : Z) :
  n < 0 ->
  exists ds, format_04d (JInt n) = Ok (String "-" ds) /\ all_digits ds = true.
Proof.
  intros Hn. unfold format_04d.
  destruct (n <? 0) eqn:Hneg; [|apply Z.ltb_ge in Hneg; lia].
  eexists. split; [reflexivity|]. unfold pad_zeros.
  rewrite all_digits_app, all_digits_zeros, decimal_digits. reflexivity.
Qed.

(** *** Names without an index *)

Lemma search_step (r : regex) (x : ascii) (s : string) :
  rmatch r (fun _ g => Some g) (String x s) None = None ->
  search r (String x s) = search r s.
Proof. intros Hr. cbn [search]. rewrite Hr. reflexivity. Qed.

(** After [clip_] and four digits the pattern wants [_]: a fifth digit ends
    the attempt. *)
Lemma wav_no_match_five_digits (a b c d e : ascii) (rest : string)
  (k : string -> option string -> option (option string)) :
  is_digit a = true -> is_digit b = true -> is_digit c = true ->
  is_digit d = true -> is_digit e = true ->
  rmatch wav_pat k
    ("clip_" +:+ String a (String b (String c (String d (String e rest)))))
    None = None.
Proof.
  intros Ha Hb Hc Hd He. push_append. cbn -[is_digit Ascii.eqb].
  rewrite !Ascii.eqb_refl. cbn -[is_digit Ascii.eqb].
  rewrite Ha, Hb, Hc, Hd. cbn -[is_digit Ascii.eqb].
  rewrite (digit_is_not "_" e); [reflexivity|reflexivity|exact He].
Qed.

Lemma wav_no_match_sign (rest : string)
  (k : string -> option string -> option (option string)) :
  rmatch wav_pat k ("clip_-" +:+ rest) None = None.
Proof. push_append. reflexivity. Qed.

Lemma narration_name_five_digits (ds : string) :
  all_digits ds = true -> (5 <= String.length ds)%nat ->
  index_from ("clip_" +:+ ds +:+ "_narration.wav") wav_pat = None.
Proof.
  intros Hds Hlen. unfold index_from.
  assert (search wav_pat ("clip_" +:+ ds +:+ "_narration.wav") = None) as ->;
    [|reflexivity].
  destruct ds as [|a [|b [|c [|d [|e ds]]]]]; simpl in Hlen; try lia.
  pose proof Hds as Hall. simpl in Hds.
  repeat (apply andb_prop in Hds as [? Hds]).
  push_append.
  rewrite search_step
    by (apply (wav_no_match_five_digits a b c d e); assumption).
  do 4 (rewrite search_step by reflexivity).
  change (String a (String b (String c (String d (String e (ds +:+ "_narration.wav"))))))
    with (String a (String b (String c (String d (String e ds)))) +:+ "_narration.wav").
  rewrite search_wav_skip_digits by exact Hall. reflexivity.
Qed.

Lemma narration_name_sign (ds : string) :
  all_digits ds = true ->
  index_from ("clip_" +:+ String "-" ds +:+ "_narration.wav") wav_pat = None.
Proof.
  intros Hds. unfold index_from.
  assert (search wav_pat ("clip_" +:+ String "-" ds +:+ "_narration.wav") = None)
    as ->; [|reflexivity].
  push_append.
  rewrite search_step by apply (wav_no_match_sign (ds +:+ "_narration.wav")).
  do 5 (rewrite search_step by reflexivity).
  rewrite search_wav_skip_digits by exact Hds. reflexivity.
Qed.

(** *** Round trips between the writers and the patterns *)

(** For an identifier from 0 to 9999, the name under which the narration
    scripts save the clip has, for [wav_pat], the index that [:04d] writes
    for the identifier. *)
Theorem narration_name_round_trip (n : Z) :
  0 <= n < 10000 ->
  exists s name,
    format_04d (JInt n) = Ok s /\
    narration_file_name (JInt n) = Ok name /\
    index_from name wav_pat = Some s.
Proof.
  intros Hn. destruct (format_04d_small n Hn) as (s & Hs & H4).
  destruct (four_digits_inv s H4) as (a & b & c & d & -> & Ha & Hb & Hc & Hd).
  eexists _, _. split; [exact Hs|]. unfold narration_file_name. rewrite Hs.
  split; [reflexivity|]. apply wav_index_of_digits; assumption.
Qed.

(** For an identifier below 0 or from 10000 on, the name under which the
    narration scripts save the clip matches no index: the combining script
    does not see the clip as the narration of an item. *)
Theorem narration_name_out_of_range (n : Z) :
  n < 0 \/ 10000 <= n ->
  exists name,
    narration_file_name (JInt n) = Ok name /\
    index_from name wav_pat = None.
Proof.
  intros [Hn|Hn].
  - destruct (format_04d_negative n Hn) as (ds & Hs & Hds).
    eexists. unfold narration_file_name. rewrite Hs. split; [reflexivity|].
    apply narration_name_sign, Hds.
  - destruct (format_04d_large n Hn) as (ds & Hs & Hds & Hlen).
    eexists. unfold narration_file_name. rewrite Hs. split; [reflexivity|].
    apply narration_name_five_digits; assumption.
Qed.

(** For an identifier from 0 to 9999, a clip that the save node writes under
    the prefix of stage 2, followed by [_], a counter and [.mp4], has, for
    [mp4_pat], the index that [:04d] writes for the identifier. *)
Theorem clip_name_round_trip (n : Z) (counter : string) :
  0 <= n < 10000 -> all_digits counter = true -> counter <> "" ->
  exists s prefix,
    format_04d (JInt n) = Ok s /\
    output_prefix_for_comfy (JInt n) = Ok prefix /\
    index_from (prefix +:+ "_" +:+ counter +:+ ".mp4") mp4_pat = Some s.
Proof.
  intros Hn Hc Hne. destruct (format_04d_small n Hn) as (s & Hs & H4).
  destruct (four_digits_inv s H4) as (a & b & c & d & -> & Ha & Hb & Hc' & Hd).
  eexists _, _. split; [exact Hs|]. unfold output_prefix_for_comfy. rewrite Hs.
  split; [reflexivity|].
  pose proof (mp4_index_of_digits a b c d counter Ha Hb Hc' Hd Hc Hne) as Hi.
  simpl. push_append. push_append. revert Hi. push_append. auto.
Qed.

(** The round trips at the identifier 7, and the failure at 10000. *)
Lemma narration_name_round_trip_witness :
  exists s name,
    format_04d (JInt 7) = Ok s /\
    narration_file_name (JInt 7) = Ok name /\
    index_from name wav_pat = Some s.
Proof. apply (narration_name_round_trip 7). lia. Defined.

Lemma narration_name_out_of_range_witness :
  exists name,
    narration_file_name (JInt 10000) = Ok name /\
    index_from name wav_pat = None.
Proof. apply (narration_name_out_of_range 10000). right. lia. Defined.

Lemma clip_name_round_trip_witness :
  exists s prefix,
    format_04d (JInt 7) = Ok s /\
    output_prefix_for_comfy (JInt 7) = Ok prefix /\
    index_from (prefix +:+ "_" +:+ "00001" +:+ ".mp4") mp4_pat = Some s.
Proof.
  apply (clip_name_round_trip 7 "00001"); [lia|reflexivity|discriminate].
Defined.

End NamingFacts.

(** ** Dictionaries *)

Module DictFacts.
Import Py.

Section Dicts.
Context {K V : Type} `{EqDecision K}.

Lemma dict_get_set_eq (k : K) (v : V) (d : list (K * V)) :
  dict_get k (dict_set k v d) = Some v.
Proof.
  induction d as [|[k' v'] d IH]; simpl.
  - destruct (decide (k = k)); [reflexivity|contradiction].
  - destruct (decide (k = k')) as [->|Hne]; simpl.
    + destruct (decide (k' = k')); [reflexivity|contradiction].
    + destruct (decide (k = k')); [contradiction|exact IH].
Qed.

Lemma dict_get_set_ne (k k' : K) (v : V) (d : list (K * V)) :
  k <> k' -> dict_get k' (dict_set k v d) = dict_get k' d.
Proof.
  intros Hne. induction d as [|[k'' v''] d IH]; simpl.
  - destruct (decide (k' = k)); [congruence|reflexivity].
  - destruct (decide (k = k'')) as [->|Hne']; simpl.
    + destruct (decide (k' = k'')); [congruence|reflexivity].
    + destruct (decide (k' = k'')); [reflexivity|exact IH].
Qed.

Lemma dict_has_keys (k : K) (d : list (K * V)) :
  dict_has k d = true <-> In k (dict_keys d).
Proof.
  unfold dict_has, dict_keys. induction d as [|[k' v'] d IH]; simpl.
  - split; [discriminate|tauto].
  - destruct (decide (k = k')) as [->|Hne]; [tauto|].
    rewrite IH. split; [auto|]. intros [?|?]; [congruence|assumption].
Qed.

Lemma dict_keys_set (k : K) (v : V) (d : list (K * V)) :
  dict_keys (dict_set k v d) =
  if dict_has k d then dict_keys d else dict_keys d ++ [k].
Proof.
  unfold dict_has, dict_keys. induction d as [|[k' v'] d IH]; simpl; [reflexivity|].
  destruct (decide (k = k')) as [->|Hne]; simpl; [reflexivity|].
  rewrite IH. destruct (dict_get k d); reflexivity.
Qed.

Lemma dict_keys_set_NoDup (k : K) (v : V) (d : list (K * V)) :
  NoDup (dict_keys d) -> NoDup (dict_keys (dict_set k v d)).
Proof.
  intros Hnd. rewrite dict_keys_set. destruct (dict_has k d) eqn:Hk; [exact Hnd|].
  apply NoDup_app. split; [exact Hnd|]. split; [|apply NoDup_singleton].
  intros x Hx Hx'. apply list_elem_of_In in Hx. apply list_elem_of_singleton in Hx'.
  subst. apply dict_has_keys in Hx. congruence.
Qed.

End Dicts.

End DictFacts.

(** ** Pairing of narrations and clips *)

Module PairingFacts.
Import Py Combine PairingSpec DictFacts.

(** *** The dictionary of a listing *)

Section Index.
Context (pattern : regex).

Local Abbreviation add_file :=
  (fun (d : list (option string * string)) (p : string) =>
     dict_set (index_from p pattern) p d).

Lemma index_fold_get (l : list string) (d : list (option string * string))
  (k : option string) (p : string) :
  dict_get k (fold_left add_file l d) = Some p ->
  (In p l /\ index_from p pattern = k) \/ dict_get k d = Some p.
Proof.
  revert d. induction l as [|f l IH]; intros d; simpl; [auto|].
  intros Hg. destruct (IH _ Hg) as [[Hin Hk]|Hd]; [auto|].
  destruct (decide (index_from f pattern = k)) as [<-|Hne].
  - rewrite dict_get_set_eq in Hd. injection Hd as ->. auto.
  - rewrite dict_get_set_ne in Hd by exact Hne. auto.
Qed.

Lemma index_fold_has (l : list string) (d : list (option string * string))
  (k : option string) :
  dict_has k (fold_left add_file l d) = true <->
  (exists p, In p l /\ index_from p pattern = k) \/ dict_has k d = true.
Proof.
  revert d. induction l as [|f l IH]; intros d; simpl.
  - split; [auto|]. intros [(p & [] & _)|?]; assumption.
  - rewrite IH. unfold dict_has.
    destruct (decide (index_from f pattern = k)) as [<-|Hne].
    + rewrite dict_get_set_eq. split; [|auto]. intros _. left. eauto.
    + rewrite dict_get_set_ne by exact Hne. split.
      * intros [(p & Hin & Hk)|Hd]; [left; eauto|right; exact Hd].
      * intros [(p & [->|Hin] & Hk)|Hd]; [contradiction|left; eauto|right; exact Hd].
Qed.

Lemma index_fold_NoDup (l : list string) (d : list (option string * string)) :
  NoDup (dict_keys d) -> NoDup (dict_keys (fold_left add_file l d)).
Proof.
  revert d. induction l as [|f l IH]; intros d Hnd; simpl; [exact Hnd|].
  apply IH, dict_keys_set_NoDup, Hnd.
Qed.

Lemma index_files_get (l : list string) (k : option string) (p : string) :
  dict_get k (index_files pattern l) = Some p ->
  In p l /\ index_from p pattern = k.
Proof.
  intros Hg. destruct (index_fold_get l [] k p Hg) as [?|Hd]; [assumption|].
  discriminate.
Qed.

Lemma index_files_has (l : list string) (k : option string) :
  dict_has k (index_files pattern l) = true <->
  exists p, In p l /\ index_from p pattern = k.
Proof.
  unfold index_files. rewrite index_fold_has. split; [|auto].
  intros [?|?]; [assumption|discriminate].
Qed.

Lemma index_files_NoDup (l : list string) :
  NoDup (dict_keys (index_files pattern l)).
Proof. apply index_fold_NoDup. constructor. Qed.

End Index.

(** *** Sorting the common keys *)

Lemma insert_sorted_perm (x : string) (l : list string) :
  Permutation (insert_sorted x l) (x :: l).
Proof.
  induction l as [|y l IH]; simpl; [reflexivity|].
  destruct (String.leb x y); [reflexivity|]. rewrite IH. apply perm_swap.
Qed.

Lemma sort_strings_perm (l : list string) : Permutation (sort_strings l) l.
Proof.
  induction l as [|x l IH]; simpl; [reflexivity|].
  rewrite insert_sorted_perm. constructor. exact IH.
Qed.

Lemma insert_sorted_sorted (x : string) (l : list string) :
  Sorted id_le l -> Sorted id_le (insert_sorted x l).
Proof.
  induction 1 as [|y l Hs IH Hy]; simpl.
  - repeat constructor.
  - destruct (String.leb x y) eqn:Hxy.
    + constructor; [constructor; assumption|]. constructor. exact Hxy.
    + constructor; [exact IH|].
      assert (id_le y x) as Hyx
        by (destruct (String.leb_total x y) as [Hl|Hl]; [congruence|exact Hl]).
      destruct l as [|z l]; simpl; [constructor; exact Hyx|].
      destruct (String.leb x z); constructor; [exact Hyx|].
      inversion Hy; assumption.
Qed.

Lemma sort_strings_sorted (l : list string) : Sorted id_le (sort_strings l).
Proof.
  induction l as [|x l IH]; simpl; [constructor|].
  apply insert_sorted_sorted, IH.
Qed.

Lemma id_le_distinct (a b : string) : id_le a b -> a <> b -> id_lt a b.
Proof.
  unfold id_le, id_lt, String.leb, String.ltb. intros Hle Hne.
  destruct (String.compare a b) eqn:Hc; try discriminate; [|reflexivity].
  apply String.compare_eq_iff in Hc. contradiction.
Qed.

Lemma sorted_distinct (l : list string) :
  Sorted id_le l -> NoDup l -> Sorted id_lt l.
Proof.
  induction 1 as [|x l Hs IH Hx]; intros Hnd; [constructor|].
  apply NoDup_cons in Hnd as [Hin Hnd]. constructor; [apply IH, Hnd|].
  destruct Hx as [|y l Hxy]; constructor.
  apply id_le_distinct; [exact Hxy|]. intros ->. apply Hin. left.
Qed.

Lemma all_some_map (keys : list (option string)) :
  ~ In None keys -> exists l, keys = map Some l /\ all_some keys = Some l.
Proof.
  induction keys as [|[k|] keys IH]; simpl; intros Hn.
  - exists []. auto.
  - destruct IH as (l & -> & Hl); [tauto|]. exists (k :: l). rewrite Hl. auto.
  - tauto.
Qed.

Lemma all_some_Some (l : list string) : all_some (map Some l) = Some l.
Proof. induction l as [|x l IH]; simpl; [|rewrite IH]; reflexivity. Qed.

Lemma py_sorted_strings (l : list string) :
  py_sorted (map Some l) = Ok (map Some (sort_strings l)).
Proof.
  destruct l as [|x [|y l]]; try reflexivity.
  unfold py_sorted. rewrite all_some_Some. reflexivity.
Qed.

(** *** The pairs *)

Lemma common_keys_In (wavs mp4s : list (option string * string))
  (k : option string) :
  In k (common_keys wavs mp4s) <->
  dict_has k wavs = true /\ dict_has k mp4s = true.
Proof.
  unfold common_keys. rewrite <- list_elem_of_In, list_elem_of_filter.
  rewrite list_elem_of_In, <- dict_has_keys. tauto.
Qed.

Lemma common_keys_NoDup (wavs mp4s : list (option string * string)) :
  NoDup (dict_keys wavs) -> NoDup (common_keys wavs mp4s).
Proof. apply NoDup_filter. Qed.

Lemma lookup_pairs (wavs mp4s : list (option string * string))
  (keys : list (option string)) :
  (forall k, In k keys -> dict_has k wavs = true /\ dict_has k mp4s = true) ->
  exists ps,
    mapM (lookup_pair wavs mp4s) keys = Ok ps /\
    map p_idx ps = keys /\
    Forall (fun p => dict_get (p_idx p) wavs = Some (p_wav p) /\
                     dict_get (p_idx p) mp4s = Some (p_mp4 p)) ps.
Proof.
  induction keys as [|k keys IH]; intros Hk.
  - exists []. repeat split. constructor.
  - destruct IH as (ps & Hps & Hidx & Hall); [intros; apply Hk; right; assumption|].
    destruct (Hk k) as [Hw Hm]; [left; reflexivity|].
    unfold dict_has in Hw, Hm. simpl. unfold lookup_pair at 1.
    destruct (dict_get k wavs) as [w|] eqn:Ew; [|discriminate].
    destruct (dict_get k mp4s) as [m|] eqn:Em; [|discriminate].
    rewrite Hps. eexists. split; [reflexivity|]. simpl. split; [congruence|].
    constructor; [simpl; auto|exact Hall].
Qed.

Lemma pairings_of_indexed (wav_files mp4_files : list string) :
  unindexed_on_one_side_only wav_files mp4_files ->
  pairs_the_common_ids wav_files mp4_files (pairings wav_files mp4_files).
Proof.
  intros Hside. unfold pairs_the_common_ids, pairings.
  set (wavs := index_files wav_pat wav_files).
  set (mp4s := index_files mp4_pat mp4_files).
  assert (forall k, In k (common_keys wavs mp4s) <->
            (exists w, In w wav_files /\ index_from w wav_pat = k) /\
            (exists m, In m mp4_files /\ index_from m mp4_pat = k)) as Hcommon.
  { intros k. rewrite common_keys_In. unfold wavs, mp4s.
    rewrite !index_files_has. reflexivity. }
  destruct (all_some_map (common_keys wavs mp4s)) as (l & Hl & _).
  { rewrite Hcommon. intros [(w & Hw & Ew) (m & Hm & Em)]. eauto. }
  assert (NoDup l) as Hnd.
  { apply (NoDup_fmap_1 Some). change (NoDup (map Some l)). rewrite <- Hl.
    apply common_keys_NoDup, index_files_NoDup. }
  assert (forall k, In k (map Some (sort_strings l)) <->
                    In k (common_keys wavs mp4s)) as Hsort.
  { intros k. rewrite Hl. split; apply Permutation_in, Permutation_map;
      [|symmetry]; apply sort_strings_perm. }
  rewrite Hl, py_sorted_strings.
  destruct (lookup_pairs wavs mp4s (map Some (sort_strings l)))
    as (ps & Hps & Hidx & Hall).
  { intros k Hk. apply common_keys_In, Hsort, Hk. }
  destruct (sort_strings l) as [|i sorted] eqn:Es.
  - cbn [map]. split; [reflexivity|]. intros id Hid.
    apply (Hsort (Some id)). apply Hcommon, Hid.
  - cbn [map] in *. rewrite Hps. split; [intros ->; discriminate|].
    split; [|split].
    + apply Forall_forall. intros p Hp.
      pose proof (proj1 (Forall_forall _ _) Hall p Hp) as [Hw Hm].
      apply index_files_get in Hw as [Hw Ew], Hm as [Hm Em].
      assert (In (p_idx p) (map p_idx ps)) as Hin by (apply in_map, list_elem_of_In, Hp).
      rewrite Hidx in Hin. change (In (p_idx p) (map Some (i :: sorted))) in Hin.
      apply in_map_iff in Hin as (id & Hid & _).
      exists id. rewrite <- Hid in Ew, Em. auto.
    + intros id. rewrite Hidx. change (in_both wav_files mp4_files id <->
        In (Some id) (map Some (i :: sorted))).
      rewrite Hsort, Hcommon. reflexivity.
    + exists (i :: sorted). split; [exact Hidx|]. rewrite <- Es.
      apply sorted_distinct; [apply sort_strings_sorted|].
      rewrite sort_strings_perm. exact Hnd.
Qed.

(** When the two listings do not both hold a file that the patterns
    reject, the loop of [main] goes through exactly the identifiers that
    have a narration and a clip, each once, in ascending order, and pairs
    each with a narration and a clip of that identifier; when no identifier
    has both, [main] raises [RuntimeError]. *)
Theorem pairings_sound_and_complete (wav_files mp4_files : list string) :
  unindexed_on_one_side_only wav_files mp4_files ->
  pairs_the_common_ids wav_files mp4_files (pairings wav_files mp4_files).
Proof. apply pairings_of_indexed. Qed.

Lemma pairings_sound_and_complete_witness :
  let wav_files := ["clip_0001_narration.wav"; "clip_0002_narration.wav";
                    "clip_0003_narration.wav"; "full_narration.wav"] in
  let mp4_files := ["narrativegen_clip_0003__00001.mp4";
                    "narrativegen_clip_0002__00001.mp4";
                    "narrativegen_clip_0004__00001.mp4"] in
  unindexed_on_one_side_only wav_files mp4_files /\
  pairs_the_common_ids wav_files mp4_files (pairings wav_files mp4_files).
Proof.
  cbv zeta.
  assert (unindexed_on_one_side_only
            ["clip_0001_narration.wav"; "clip_0002_narration.wav";
             "clip_0003_narration.wav"; "full_narration.wav"]
            ["narrativegen_clip_0003__00001.mp4";
             "narrativegen_clip_0002__00001.mp4";
             "narrativegen_clip_0004__00001.mp4"]) as Hside.
  { intros w m _ Hm _. simpl in Hm.
    destruct Hm as [<-|[<-|[<-|[]]]]; vm_compute; discriminate. }
  split; [exact Hside|].
  exact (pairings_sound_and_complete _ _ Hside).
Defined.

Lemma all_some_None (keys : list (option string)) :
  In None keys -> all_some keys = None.
Proof.
  induction keys as [|[k|] keys IH]; simpl; [tauto| |reflexivity].
  intros [[=]|Hin]. rewrite IH by exact Hin. reflexivity.
Qed.

(** When each listing holds a file that its pattern rejects, both
    are filed under the key [None], which is then common to the two
    dictionaries.  If no identifier has both a narration and a clip, the
    loop of [main] runs once, on a rejected narration and a rejected clip;
    if one has, [sorted] compares [None] with a string and raises
    [TypeError]. *)
Theorem unindexed_files_pair_up (wav_files mp4_files : list string) :
  has_unindexed wav_pat wav_files ->
  has_unindexed mp4_pat mp4_files ->
  pairs_the_unindexed wav_files mp4_files (pairings wav_files mp4_files).
Proof.
  intros Hw Hm. unfold pairs_the_unindexed, pairings.
  set (wavs := index_files wav_pat wav_files).
  set (mp4s := index_files mp4_pat mp4_files).
  assert (forall k, In k (common_keys wavs mp4s) <->
            (exists w, In w wav_files /\ index_from w wav_pat = k) /\
            (exists m, In m mp4_files /\ index_from m mp4_pat = k)) as Hcommon.
  { intros k. rewrite common_keys_In. unfold wavs, mp4s.
    rewrite !index_files_has. reflexivity. }
  assert (In None (common_keys wavs mp4s)) as Hnone by (apply Hcommon; auto).
  assert (NoDup (common_keys wavs mp4s)) as Hnd
    by apply common_keys_NoDup, index_files_NoDup.
  destruct (common_keys wavs mp4s) as [|k1 [|k2 rest]] eqn:Ec.
  - destruct Hnone.
  - destruct Hnone as [->|[]]. cbn [py_sorted mapM].
    pose proof (proj1 (common_keys_In wavs mp4s None)) as Hhas.
    rewrite Ec in Hhas. destruct Hhas as [Hhw Hhm]; [left; reflexivity|].
    unfold dict_has in Hhw, Hhm. unfold lookup_pair.
    destruct (dict_get None wavs) as [w|] eqn:Ew; [|discriminate].
    destruct (dict_get None mp4s) as [m|] eqn:Em; [|discriminate].
    apply index_files_get in Ew as [Hiw Hxw], Em as [Him Hxm].
    split; [|exists w, m; auto].
    intros id Hid. apply (Hcommon (Some id)) in Hid as [[=]|[]].
  - unfold py_sorted. rewrite all_some_None by exact Hnone.
    split; [reflexivity|].
    assert (exists id, In (Some id) (k1 :: k2 :: rest)) as (id & Hid).
    { destruct k1 as [id|]; [exists id; left; reflexivity|].
      destruct k2 as [id|]; [exists id; right; left; reflexivity|].
      apply NoDup_cons in Hnd as [Hnot _]. exfalso. apply Hnot. left. }
    exists id. apply (Hcommon (Some id)), Hid.
Qed.

Lemma unindexed_files_pair_up_witness :
  has_unindexed wav_pat ["full_narration.wav"] /\
  has_unindexed mp4_pat ["intro.mp4"] /\
  pairs_the_unindexed ["full_narration.wav"] ["intro.mp4"]
    (pairings ["full_narration.wav"] ["intro.mp4"]).
Proof.
  assert (has_unindexed wav_pat ["full_narration.wav"]) as Hw
    by (eexists; split; [left; reflexivity|vm_compute; reflexivity]).
  assert (has_unindexed mp4_pat ["intro.mp4"]) as Hm
    by (eexists; split; [left; reflexivity|vm_compute; reflexivity]).
  split; [exact Hw|]. split; [exact Hm|].
  exact (unindexed_files_pair_up _ _ Hw Hm).
Defined.

(** C2: the code at the failing inputs.  [index_from] gives [None] for a
    file that its pattern rejects, and [main] files it under that key.  With
    one such file in each directory the two are paired, although neither
    has an index, and [main] goes on to mux them instead of raising "No
    matching indices found!".  Next to a narration and a clip of the same
    index, the same two files make [sorted] compare [None] with a string,
    and [main] raises [TypeError] where without them it pairs the two
    indexed files. *)
Lemma unindexed_files_change_the_pairing :
  pairings ["notes.wav"] ["intro.mp4"] =
    Ok [{| p_idx := None; p_wav := "notes.wav"; p_mp4 := "intro.mp4" |}] /\
  pairings ["clip_0001_narration.wav"; "notes.wav"]
           ["narrativegen_clip_0001__00001.mp4"; "intro.mp4"] =
    Raise TypeError /\
  pairings ["clip_0001_narration.wav"] ["narrativegen_clip_0001__00001.mp4"] =
    Ok [{| p_idx := Some "0001"; p_wav := "clip_0001_narration.wav";
           p_mp4 := "narrativegen_clip_0001__00001.mp4" |}].
Proof. vm_compute. repeat split; reflexivity. Qed.

End PairingFacts.

(** ** The manifest and the flag of stage 2 *)

Module Stage2Facts.
Import Py Video Spec Rules ManifestFacts.

Section Facts.
Context `{Env}.

Lemma triple_bind {A B} (P : state -> Prop) (m : M A) (k : A -> M B)
  (Q : A -> state -> Prop) (R : B -> state -> Prop) (E : state -> Prop) :
  triple P m Q E -> (forall a, triple (Q a) (k a) R E) ->
  triple P (bindM m k) R E.
Proof.
  intros Hm Hk st HP. unfold bindM. specialize (Hm st HP).
  destruct (m st) as [[a|e] st']; [|exact Hm]. apply (Hk a st' Hm).
Qed.

(** A step that keeps [I] goes in front of a computation from [I]. *)
Lemma triple_after {A B} (I : state -> Prop) (m : M A) (k : A -> M B)
  (P : A -> Prop) (R : B -> state -> Prop) (E : state -> Prop) :
  keeps I m P -> (forall st, I st -> E st) ->
  (forall a, P a -> triple I (k a) R E) ->
  triple I (bindM m k) R E.
Proof.
  intros Hm HE Hk st HI. unfold bindM. specialize (Hm st HI).
  destruct (m st) as [[a|e] st']; [|apply HE, Hm].
  destruct Hm as [HI' HP]. apply (Hk a HP st' HI').
Qed.

Lemma at_manifest_ignores (m0 : list clip_entry) (b0 : bool) :
  ignores_world (at_manifest m0 b0) /\ ignores_heap (at_manifest m0 b0).
Proof. split; intros st ? Hst; exact Hst. Qed.

Lemma at_manifest_unchanged (m0 : list clip_entry) (b0 : bool) (st : state) :
  at_manifest m0 b0 st -> clips_manifest st = m0.
Proof. intros [Hm _]. exact Hm. Qed.

Ltac pure_step :=
  eapply triple_after with (P := fun _ => True);
    [keeps_auto|apply at_manifest_unchanged|intros ? _].

(** The flag after [fetch_clip] is the flag before it when the clip is
    downloaded and is cleared otherwise. *)
Lemma triple_fetch_clip (m0 : list clip_entry) (b0 : bool) (r : gen_result) :
  triple (at_manifest m0 b0) (fetch_clip r)
    (fun (o : status_code * option json * option string) st =>
       at_manifest m0 (b0 && ok_status o.1.1) st)
    (fun st => clips_manifest st = m0).
Proof.
  destruct (at_manifest_ignores m0 b0) as [HW HH].
  assert (forall (s : status_code) info (p : option string),
            ok_status s = false ->
            triple (at_manifest m0 b0)
              (bindM clear_overall_success (fun _ => retM (s, info, p)))
              (fun (o : status_code * option json * option string) st =>
       at_manifest m0 (b0 && ok_status o.1.1) st)
              (fun st => clips_manifest st = m0)) as Hclear.
  { intros s info p Hs st [Hm Hb]. simpl. rewrite Hs, andb_false_r.
    split; [exact Hm|reflexivity]. }
  unfold fetch_clip. destruct (gr_data r) as [info|]; [|apply Hclear; reflexivity].
  destruct (truthy info); [|apply Hclear; reflexivity].
  pure_step. destruct (truthy _); [|apply Hclear; reflexivity].
  eapply triple_after with (P := fun _ => True);
    [destruct a; keeps_auto|apply at_manifest_unchanged|intros name _].
  do 3 pure_step.
  eapply triple_after with (P := fun _ => True);
    [apply keeps_download, HW|apply at_manifest_unchanged|intros [|] _].
  - intros st [Hm Hb]. simpl. rewrite andb_true_r. split; assumption.
  - apply Hclear. reflexivity.
Qed.

(** One turn of the loop adds one entry, at the position of the item, and
    clears the flag unless the entry is a downloaded clip or a skipped
    item; an exception leaves the manifest as it was. *)
Lemma triple_process_item (m0 : list clip_entry) (b0 : bool)
  (base_workflow : pyval) (i : nat) (item : json) :
  triple (at_manifest m0 b0) (process_item base_workflow i item)
    (fun _ st => exists e, clip_order e = i /\
                           at_manifest (m0 ++ [e]) (b0 && no_failure e) st)
    (fun st => clips_manifest st = m0).
Proof.
  destruct (at_manifest_ignores m0 b0) as [HW HH].
  assert (forall e b, clip_order e = i -> b = b0 && no_failure e ->
            triple (at_manifest m0 b) (append_manifest e)
              (fun _ st => exists e, clip_order e = i /\
                           at_manifest (m0 ++ [e]) (b0 && no_failure e) st)
              (fun st => clips_manifest st = m0)) as Happend.
  { intros e b He -> st [Hm Hb]. simpl. exists e. split; [exact He|].
    split; simpl; congruence. }
  unfold process_item. do 2 pure_step.
  destruct (truthy _); simpl.
  2:{ apply Happend; [reflexivity|]. unfold no_failure. simpl.
      rewrite andb_true_r. reflexivity. }
  do 6 pure_step.
  eapply triple_after;
    [apply keeps_run_comfyui_video_generation; assumption
    |apply at_manifest_unchanged|]. intros r Hr.
  eapply triple_bind with
    (Q := fun (o : status_code * option json * option string) st =>
            at_manifest m0 (b0 && ok_status o.1.1) st).
  - destruct (decide (gr_status r = SUCCESS)) as [Hs|Hs].
    + apply triple_fetch_clip.
    + intros st [Hm Hb]. simpl. split; [exact Hm|].
      unfold client_status in Hr. simpl in Hr.
      destruct (gr_status r); simpl; rewrite ?andb_false_r; try reflexivity;
        exfalso; repeat (destruct Hr as [Hr|Hr]; [discriminate|]); destruct Hr.
  - intros [[s info] path]. apply Happend; reflexivity.
Qed.

Lemma triple_stage2_loop (base_workflow : pyval) (content_items : list json) :
  forall (i : nat) (m0 : list clip_entry) (b0 : bool),
  triple (at_manifest m0 b0) (stage2_loop base_workflow i content_items)
    (fun _ st => exists es,
       map clip_order es = seq i (length content_items) /\
       at_manifest (m0 ++ es) (b0 && forallb no_failure es) st)
    (fun st => exists es k,
       (k < length content_items)%nat /\ map clip_order es = seq i k /\
       clips_manifest st = m0 ++ es).
Proof.
  induction content_items as [|item rest IH]; intros i m0 b0 st Hst.
  - simpl. exists []. rewrite app_nil_r, andb_true_r. auto.
  - cbn [stage2_loop]. unfold bindM.
    pose proof (triple_process_item m0 b0 base_workflow i item st Hst) as Hitem.
    destruct (process_item base_workflow i item st) as [[[]|ex] st1].
    + destruct Hitem as (e & He & Hst1).
      specialize (IH (S i) _ _ st1 Hst1).
      destruct (stage2_loop base_workflow (S i) rest st1) as [[[]|ex] st2].
      * destruct IH as (es & Hes & Hst2). exists (e :: es).
        split; [simpl; congruence|]. simpl.
        rewrite <- app_assoc, <- andb_assoc in Hst2. exact Hst2.
      * destruct IH as (es & k & Hk & Hes & Hst2). exists (e :: es), (S k).
        split; [simpl; lia|]. split; [simpl; congruence|].
        rewrite <- app_assoc in Hst2. exact Hst2.
    + exists [], 0%nat. split; [simpl; lia|]. split; [reflexivity|].
      rewrite app_nil_r. exact Hitem.
Qed.

(** Stage 2 records the items in their order: at the end of the loop the
    manifest has one entry per content item, the [clip_order] of an entry
    is the position of its item, and [comfyui_generation_overall_success]
    is still set exactly when every entry is a downloaded clip or an item
    skipped for want of a prompt.  When an item raises, the manifest holds
    the entries of the items before it. *)
Theorem stage2_records_every_item (base_workflow : pyval)
  (content_items : list json) (st : state) :
  stage2_outcome content_items (stage2 base_workflow content_items st).
Proof.
  unfold stage2, bindM. cbn beta iota.
  pose proof (triple_stage2_loop base_workflow content_items 0 [] true
                (mkState (st_heap st) (st_world st) [] true)
                (conj eq_refl eq_refl)) as Hloop.
  destruct (stage2_loop base_workflow 0 content_items _) as [[[]|ex] st'];
    unfold stage2_outcome.
  - destruct Hloop as (es & Hes & Hm & Hb). simpl in Hm, Hb.
    rewrite Hm, Hb. auto.
  - destruct Hloop as (es & k & Hk & Hes & Hm). simpl in Hm.
    exists k. rewrite Hm. auto.
Qed.

(** A manifest whose [clip_order] fields count up is as the sort leaves
    it. *)
Lemma sort_manifest_counting (m : list clip_entry) (i k : nat) :
  map clip_order m = seq i k -> sort_manifest m = m.
Proof.
  revert i k. induction m as [|e m IH]; intros i k Hm; [reflexivity|].
  destruct k as [|k]; [discriminate|]. simpl in Hm. injection Hm as He Hm.
  simpl. rewrite (IH _ _ Hm). destruct m as [|x m]; [reflexivity|].
  destruct k as [|k]; [discriminate|]. simpl in Hm. injection Hm as Hx _.
  simpl. rewrite He, Hx.
  destruct (Nat.leb_spec i (S i)) as [_|Hlt]; [reflexivity|lia].
Qed.

(** The sort of stage 6 leaves the manifest of stage 2 as it is, also when
    files have come and gone since ([w] is the world at stage 6): the clips
    are taken in the order of the content items, and the step returns the
    paths of the entries of downloaded clips whose files exist. *)
Theorem stage6_takes_clips_in_item_order (base_workflow : pyval)
  (content_items : list json) (st : state) (w : world) :
  let st' := put_world w (snd (stage2 base_workflow content_items st)) in
  stage6_collect st' = (Ok (collect_valid w (clips_manifest st')), st').
Proof.
  intros st'.
  assert (exists k, map clip_order (clips_manifest st') = seq 0 k) as [k Hk].
  { subst st'. unfold stage2, bindM. cbn beta iota.
    pose proof (triple_stage2_loop base_workflow content_items 0 [] true
                  (mkState (st_heap st) (st_world st) [] true)
                  (conj eq_refl eq_refl)) as Hloop.
    destruct (stage2_loop base_workflow 0 content_items _) as [[[]|ex] st1].
    - destruct Hloop as (es & Hes & Hm & _). simpl in Hm. simpl.
      rewrite Hm. eauto.
    - destruct Hloop as (es & k & _ & Hes & Hm). simpl in Hm. simpl.
      rewrite Hm. eauto. }
  unfold stage6_collect. rewrite (sort_manifest_counting _ _ _ Hk).
  reflexivity.
Qed.

End Facts.
End Stage2Facts.

(** ** What the render client returns *)

Module ResultFacts.
Import Py Video Spec Rules DictFacts ManifestFacts.

Lemma py_getitem_str (c : json) (k : string) (v : json) :
  py_getitem c (JStr k) = Ok v ->
  exists d, c = JDict d /\ dict_get k d = Some v.
Proof.
  destruct c as [| | | |s|xs|d]; simpl; try discriminate.
  destruct (dict_get k d) as [v'|] eqn:Hd; [|discriminate]. intros [= ->]. eauto.
Qed.

Lemma has_filename_dict (found : json) :
  has_filename found = Ok true ->
  exists d fn,
    found = JDict d /\ dict_get "filename" d = Some fn /\ truthy fn = true.
Proof.
  unfold has_filename. destruct (truthy found); [|discriminate].
  destruct (py_in (JStr "filename") found) as [[|]|]; simpl; try discriminate.
  destruct (py_getitem found (JStr "filename")) as [fn|] eqn:Hg; simpl;
    [|discriminate].
  intros [= Hfn]. apply py_getitem_str in Hg as (d & -> & Hd). eauto.
Qed.

(** The default of the type: the record has a type that counts as true
    afterwards, and its filename is the one it had. *)
Lemma type_default (d : list (string * json)) (fn : json) :
  dict_get "filename" d = Some fn ->
  exists d1 ty,
    dict_get "filename" d1 = Some fn /\
    dict_get "type" d1 = Some ty /\ truthy ty = true /\
    fill_defaults (JDict d) =
    (c ← py_in (JStr "subfolder") (JDict d1);
     if (c : bool) then Ok (JDict d1)
     else py_setitem (JDict d1) "subfolder" (JStr "")).
Proof.
  intros Hfn. unfold fill_defaults. cbn [py_in py_getitem py_setitem hashable].
  unfold dict_has.
  destruct (dict_get "type" d) as [t|] eqn:Hty; cbn [mbind res_bind].
  - destruct (truthy t) eqn:Ht; cbn [negb].
    + exists d, t. auto.
    + exists (dict_set "type" (JStr "output") d), (JStr "output").
      rewrite dict_get_set_ne by discriminate. rewrite dict_get_set_eq. auto.
  - exists (dict_set "type" (JStr "output") d), (JStr "output").
    rewrite dict_get_set_ne by discriminate. rewrite dict_get_set_eq. auto.
Qed.

Lemma fill_defaults_record (d : list (string * json)) (fn data : json) :
  dict_get "filename" d = Some fn -> truthy fn = true ->
  fill_defaults (JDict d) = Ok data -> file_record data.
Proof.
  intros Hfn Ht.
  destruct (type_default d fn Hfn) as (d1 & ty & Hfn1 & Hty & Htt & ->).
  unfold file_record. cbn [py_in py_setitem hashable mbind res_bind].
  destruct (dict_has "subfolder" d1) eqn:Hs; intros [= <-].
  - exists d1, fn, ty. auto 10.
  - exists (dict_set "subfolder" (JStr "") d1), fn, ty.
    rewrite !dict_get_set_ne by discriminate. unfold dict_has.
    rewrite dict_get_set_eq. auto 10.
Qed.

Section Resolver.
Context `{Env}.

Lemma resolve_output_names_a_file (node_output_data : json) (r : gen_result) :
  resolve_output node_output_data = Ok r -> names_a_file r.
Proof.
  unfold resolve_output, names_a_file.
  destruct (find_file_info node_output_data) as [found|]; simpl; [|discriminate].
  destruct (has_filename found) as [[|]|] eqn:Hh; simpl; [| |discriminate].
  - apply has_filename_dict in Hh as (d & fn & -> & Hfn & Ht).
    destruct (fill_defaults (JDict d)) as [data|] eqn:Hd; simpl; [|discriminate].
    intros [= <-] _. exists data. split; [reflexivity|].
    apply (fill_defaults_record d fn data Hfn Ht Hd).
  - destruct (truthy found); [destruct (say [found]); simpl; [|discriminate]|];
      intros [= <-]; discriminate.
Qed.

Lemma poll_step_names_a_file (attempt : nat) (prompt_id : json)
  (history : option json) (r : gen_result) :
  poll_step attempt prompt_id history = Ok (Some r) -> names_a_file r.
Proof.
  unfold poll_step. destruct history as [h|]; [|discriminate].
  destruct (truthy h); [|discriminate].
  destruct (py_in prompt_id h) as [[|]|]; simpl; try discriminate.
  destruct (py_getitem h prompt_id) as [ph|]; simpl; [|discriminate].
  destruct (py_in (JStr "outputs") ph) as [[|]|]; simpl; try discriminate.
  - destruct (py_getitem ph (JStr "outputs")) as [outputs|]; simpl; [|discriminate].
    destruct (py_in (JStr SAVE_MP4_NODE_ID) outputs) as [[|]|]; simpl;
      try discriminate.
    + destruct (py_getitem outputs (JStr SAVE_MP4_NODE_ID)) as [nod|]; simpl;
        [|discriminate].
      destruct (resolve_output nod) as [r'|] eqn:Hr; simpl; [|discriminate].
      intros [= <-]. apply (resolve_output_names_a_file _ _ Hr).
    + intros [= <-]. discriminate.
  - destruct (_ =? 0)%nat; [|discriminate].
    destruct (status_line ph); discriminate.
Qed.

Section Client.
Context (I : state -> Prop) (HW : ignores_world I) (HH : ignores_heap I).

Lemma keeps_poll_names_a_file (n attempt : nat) (prompt_id : json) :
  keeps I (poll n attempt prompt_id) names_a_file.
Proof.
  revert attempt. induction n as [|n IH]; intros attempt; simpl.
  - apply keeps_ret. discriminate.
  - eapply keeps_bind with (P := fun _ => True);
      [unfold comfy_get_history; keeps_auto|]. intros history _.
    eapply keeps_bind with (P := fun step => forall r, step = Some r ->
                                      names_a_file r).
    + apply keeps_liftR. intros step Hs r ->.
      apply (poll_step_names_a_file _ _ _ _ Hs).
    + intros [r|] Hs; [apply keeps_ret; auto|apply IH].
Qed.

Lemma keeps_run_names_a_file (text base : pyval) (prefix : string)
  (frames width height : json) :
  keeps I (run_comfyui_video_generation text base prefix frames width height)
    names_a_file.
Proof.
  unfold run_comfyui_video_generation, await_outputs.
  assert (forall s, s <> SUCCESS -> keeps I (retM (failed s)) names_a_file)
    as Hfail by (intros s Hs; apply keeps_ret; intros Hs'; contradiction).
  repeat first
    [ apply Hfail; discriminate
    | apply keeps_poll_names_a_file
    | match goal with
      | |- keeps _ (bindM _ _) _ =>
          eapply keeps_bind with (P := fun _ => True); [keeps_auto|intros ? _]
      | |- keeps _ (if ?b then _ else _) _ => destruct b
      | |- keeps _ (match ?x with _ => _ end) _ => destruct x
      end ].
Qed.

End Client.

(** When the render client returns the status [SUCCESS], the result
    carries a record with a filename and a type that count as true and with
    a subfolder: what the download needs. *)
Theorem client_success_names_a_file (text base : pyval) (prefix : string)
  (frames width height : json) (st st' : state) (r : gen_result) :
  run_comfyui_video_generation text base prefix frames width height st
    = (Ok r, st') ->
  gr_status r = SUCCESS ->
  exists data, gr_data r = Some data /\ file_record data.
Proof.
  intros Hrun.
  pose proof (keeps_run_names_a_file (fun _ => True)
                (fun _ _ _ => Logic.I) (fun _ _ _ => Logic.I)
                text base prefix frames width height st Logic.I) as Hk.
  rewrite Hrun in Hk. apply Hk.
Qed.

Lemma keeps_conj {A} (I : state -> Prop) (m : M A) (P Q : A -> Prop) :
  keeps I m P -> keeps I m Q -> keeps I m (fun a => P a /\ Q a).
Proof.
  intros HP HQ st Hst. specialize (HP st Hst). specialize (HQ st Hst).
  destruct (m st) as [[a|e] st1]; [|exact HP]. destruct HP, HQ. auto.
Qed.

Section Stage2.
Context (I : state -> Prop) (HW : ignores_world I) (HH : ignores_heap I)
  (HF : ignores_flag I).

(** With a result that names a file, [fetch_clip] ends in the download. *)
Lemma keeps_fetch_clip_recorded (r : gen_result) :
  gr_status r = SUCCESS -> names_a_file r ->
  keeps I (fetch_clip r)
    (fun o : status_code * option json * option string =>
       recorded_status o.1.1 = true).
Proof.
  intros Hs Hr. destruct (Hr Hs) as (data & Hdata & d & fn & ty & -> & Hfn & Ht & _).
  unfold fetch_clip. rewrite Hdata.
  assert (truthy (JDict d) = true) as ->
    by (destruct d; [discriminate|reflexivity]).
  cbn [py_get]. rewrite Hfn.
  eapply keeps_bind with (P := fun a => a = fn); [apply keeps_liftR; congruence|].
  intros ? ->. rewrite Ht.
  eapply keeps_bind with (P := fun _ => True);
    [destruct fn; keeps_auto|]. intros name _.
  do 3 (eapply keeps_bind with (P := fun _ => True); [keeps_auto|]; intros ? _).
  eapply keeps_bind with (P := fun _ => True); [keeps_auto|]. intros [|] _.
  - apply keeps_ret. reflexivity.
  - eapply keeps_bind with (P := fun _ => True); [keeps_auto|]. intros _ _.
    apply keeps_ret. reflexivity.
Qed.

End Stage2.

Lemma statuses_recorded_ignores :
  ignores_world statuses_recorded /\ ignores_heap statuses_recorded /\
  ignores_flag statuses_recorded.
Proof. repeat split; intros st ? Hst; exact Hst. Qed.

Lemma keeps_append_recorded (e : clip_entry) :
  recorded_status (status e) = true ->
  keeps statuses_recorded (append_manifest e) (fun _ => True).
Proof.
  intros He st Hst. simpl. split; [|exact I].
  unfold statuses_recorded in *. simpl.
  apply Forall_app. split; [exact Hst|]. constructor; [exact He|constructor].
Qed.

Lemma keeps_process_item_recorded (base_workflow : pyval) (i : nat) (item : json) :
  keeps statuses_recorded (process_item base_workflow i item) (fun _ => True).
Proof.
  destruct statuses_recorded_ignores as (HW & HH & HF).
  unfold process_item.
  eapply keeps_bind with (P := fun _ => True); [keeps_auto|]. intros item_id _.
  eapply keeps_bind with (P := fun _ => True); [keeps_auto|]. intros video_prompt _.
  destruct (truthy video_prompt); simpl.
  2:{ apply keeps_append_recorded. reflexivity. }
  do 6 (eapply keeps_bind with (P := fun _ => True); [keeps_auto|]; intros ? _).
  eapply keeps_bind;
    [apply keeps_conj;
       [apply keeps_run_comfyui_video_generation|apply keeps_run_names_a_file];
       assumption|].
  intros r [Hr Hn].
  eapply keeps_bind with
    (P := fun o : status_code * option json * option string =>
            recorded_status o.1.1 = true).
  - destruct (decide (gr_status r = SUCCESS)) as [Hs|Hs].
    + apply keeps_fetch_clip_recorded; assumption.
    + eapply keeps_bind with (P := fun _ => True);
        [apply keeps_clear_overall_success; assumption|]. intros _ _.
      apply keeps_ret. simpl. unfold client_status in Hr. simpl in Hr.
      destruct (gr_status r); try reflexivity; try contradiction.
      exfalso. repeat (destruct Hr as [Hr|Hr]; [discriminate|]). destruct Hr.
  - intros [[s info] path] Ho. apply keeps_append_recorded. exact Ho.
Qed.

Lemma keeps_stage2_loop_recorded (base_workflow : pyval) (i : nat)
  (content_items : list json) :
  keeps statuses_recorded (stage2_loop base_workflow i content_items)
    (fun _ => True).
Proof.
  revert i. induction content_items as [|item rest IH]; intros i; simpl.
  - apply keeps_ret. exact I.
  - eapply keeps_bind; [apply keeps_process_item_recorded|]. intros _ _. apply IH.
Qed.

(** No entry of the manifest of stage 2 has the status [SUCCESS] of the
    client or [ERROR_SUCCESS_NO_FILEDATA]: a result with [SUCCESS] names a
    file, so that the loop goes on to the download, whose two outcomes
    replace the status, and the branch for a success without file data is
    never taken. *)
Theorem manifest_statuses_recorded (base_workflow : pyval)
  (content_items : list json) (st : state) :
  Forall (fun e => recorded_status (status e) = true)
    (clips_manifest (snd (stage2 base_workflow content_items st))).
Proof.
  unfold stage2, bindM. simpl.
  pose proof (keeps_stage2_loop_recorded base_workflow 0 content_items
                (mkState (st_heap st) (st_world st) [] true)) as Hloop.
  destruct (stage2_loop base_workflow 0 content_items _) as [[[]|e] st'];
    simpl in *.
  - apply Hloop. constructor.
  - apply Hloop. constructor.
Qed.

End Resolver.

Import Script.

Lemma client_success_names_a_file_witness :
  exists data, gr_data rendered = Some data /\ file_record data.
Proof.
  apply (client_success_names_a_file (VStr "a cat") template_ref
           "narrativegen_clip_0001_" (JInt 33) (JInt 832) (JInt 480)
           template_state
           (snd (run_comfyui_video_generation (VStr "a cat") template_ref
                   "narrativegen_clip_0001_" (JInt 33) (JInt 832) (JInt 480)
                   template_state)));
    [vm_compute; reflexivity|reflexivity].
Defined.

End ResultFacts.

(** ** The video filter on a clip without length *)

Module FilterFacts.
Import Py Combine.

Lemma float_of_int_0 : float_of_int 0 = S754_zero false.
Proof. reflexivity. Qed.

Lemma positive_is_not_zero (x : spec_float) :
  fgt x (float_of_int 0) = true -> float_is_zero x = false.
Proof. rewrite float_of_int_0. destruct x; [discriminate|reflexivity..]. Qed.

Lemma fsub_zero (x : spec_float) (s : bool) :
  float_is_zero x = false -> fsub x (S754_zero s) = x.
Proof. destruct x; [discriminate|reflexivity..]. Qed.

Lemma positive_fsub_zero (x : spec_float) (s : bool) :
  fgt (fsub x (S754_zero s)) (float_of_int 0) = true ->
  fsub x (S754_zero s) = x.
Proof.
  intros Hgt. apply fsub_zero. destruct x as [s'| | |]; try reflexivity.
  apply positive_is_not_zero in Hgt. destruct s', s; discriminate.
Qed.

(** The choice of the filter fails in one case only: the clip has the
    duration zero and the narration is longer than zero and at most four
    seconds, where the stretch factor is a division by zero. *)
Theorem choose_filter_fails_on_empty_clip (a_dur v_dur : spec_float) (e : exn) :
  choose_filter a_dur v_dur = Raise e <->
  e = ZeroDivisionError /\
  float_is_zero v_dur = true /\
  fgt a_dur (float_of_int 0) = true /\ fle a_dur (float_of_int 4) = true.
Proof.
  unfold choose_filter. split.
  - destruct (fgt (fsub a_dur v_dur) (float_of_int 0) &&
              fle (fsub a_dur v_dur) (float_of_int 4)) eqn:Hc.
    + unfold py_truediv. destruct (float_is_zero v_dur) eqn:Hv; [|discriminate].
      intros [= <-]. destruct v_dur as [s| | |]; try discriminate.
      apply andb_true_iff in Hc as [Hgt Hle].
      pose proof (positive_fsub_zero _ _ Hgt) as Hd.
      rewrite Hd in Hgt, Hle. auto.
    + destruct (fgt _ (float_of_int 4)); discriminate.
  - intros (-> & Hv & Hgt & Hle). destruct v_dur as [s| | |]; try discriminate.
    rewrite fsub_zero by (apply positive_is_not_zero, Hgt).
    rewrite Hgt, Hle. reflexivity.
Qed.

End FilterFacts.

(** ** Step 6.4 without a duration *)

Module MuxFacts.
Import Py Mux.

Section Step.
Variables concatenated_video_path temp_extended_video_path final_video_path
  : string.

Lemma cleanup_of_bound_names (m t : string) (a : answers) (cmds : list command) :
  ended (cleanup (Some m) (Some t) a cmds) = Finished.
Proof. unfold cleanup. destruct (_ && _); reflexivity. Qed.

Lemma step_with_durations (narration_file_path : option string) (a : answers)
  (v au : spec_float) :
  video_duration a = Some v -> audio_duration a = Some au ->
  ended (step_6_4 concatenated_video_path temp_extended_video_path
           final_video_path narration_file_path a) = Finished.
Proof.
  intros Hv Ha. unfold step_6_4. rewrite Hv, Ha.
  destruct narration_file_path as [narration|]; [|reflexivity].
  destruct (_ && _); [|reflexivity].
  destruct (fgt au v); apply cleanup_of_bound_names.
Qed.

Lemma step_without_narration (narration_file_path : option string) (a : answers) :
  ~ narration_usable narration_file_path a ->
  ended (step_6_4 concatenated_video_path temp_extended_video_path
           final_video_path narration_file_path a) = Finished.
Proof.
  intros Hn. unfold step_6_4.
  destruct narration_file_path as [narration|]; [|reflexivity].
  destruct (String.eqb_spec narration "") as [->|Hne]; [reflexivity|].
  destruct (narration_exists a) eqn:Hex; [|reflexivity].
  exfalso. apply Hn. exists narration. auto.
Qed.

Lemma step_without_duration (narration : string) (a : answers) :
  narration <> "" -> narration_exists a = true ->
  video_duration a = None \/ audio_duration a = None ->
  step_6_4 concatenated_video_path temp_extended_video_path
    final_video_path (Some narration) a =
  mkTrace [mux_command concatenated_video_path narration final_video_path] []
    (NameError "mux_video_input").
Proof.
  intros Hne Hex Hd. unfold step_6_4. rewrite Hex.
  destruct (String.eqb_spec narration "") as [->|_]; [contradiction|].
  destruct Hd as [-> | ->]; [reflexivity|].
  destruct (video_duration a); reflexivity.
Qed.

End Step.

(** Step 6.4 ends in a [NameError] exactly when there is a narration file
    and one of the two durations could not be read: the step then runs the
    plain mux of the concatenated video with the narration, and its cleanup
    reads [mux_video_input], which only the branch with both durations
    binds.  In every other case the step comes to its last line. *)
Theorem mux_without_duration_ends_in_NameError
  (concatenated_video_path temp_extended_video_path final_video_path : string)
  (narration_file_path : option string) (a : answers) :
  let t := step_6_4 concatenated_video_path temp_extended_video_path
             final_video_path narration_file_path a in
  (ended t = NameError "mux_video_input" <->
   narration_usable narration_file_path a /\
   (video_duration a = None \/ audio_duration a = None)) /\
  (ended t = Finished \/
   exists narration,
     narration_file_path = Some narration /\
     t = mkTrace
           [mux_command concatenated_video_path narration final_video_path] []
           (NameError "mux_video_input")).
Proof.
  intros t. subst t.
  assert (narration_usable narration_file_path a \/
          ~ narration_usable narration_file_path a) as [Hu|Hu].
  { unfold narration_usable. destruct narration_file_path as [n|].
    - destruct (String.eqb_spec n "") as [->|Hne].
      + right. intros (n & [= <-] & Hn & _). congruence.
      + destruct (narration_exists a); [left; eauto|].
        right. intros (n' & _ & _ & [=]).
    - right. intros (n & [=] & _). }
  2:{ rewrite step_without_narration by exact Hu.
      split; [split; [discriminate|tauto]|auto]. }
  destruct (video_duration a) as [v|] eqn:Hv.
  1: destruct (audio_duration a) as [au|] eqn:Ha.
  1:{ rewrite (step_with_durations _ _ _ _ _ v au Hv Ha).
      split; [split; [discriminate|intros [_ [[=]|[=]]]]|auto]. }
  all: destruct Hu as (narration & -> & Hne & Hex).
  all: rewrite step_without_duration by auto.
  all: split; [split; [intros _; split; [exists narration|]; auto|reflexivity]|].
  all: right; eauto.
Qed.

End MuxFacts.

(** ** A template without the save node *)

Module SaveNodeFacts.
Import Py Video Spec Rules DictFacts ManifestFacts FrameFacts Stage2Facts.

Section Facts.
Context `{Env}.

Lemma extends_refl (st : state) : extends (st_heap st) (st_world st) st.
Proof. split; [reflexivity|]. split; [lia|auto]. Qed.

Section Extends.
Context (h1 : heap) (w : world).

Local Abbreviation I := (extends h1 w).

Lemma extends_alloc (o : pyobj) :
  keeps I (alloc o) (fun y => exists l, y = VRef l /\ (length h1 <= l)%nat).
Proof.
  intros st (Hw & Hlen & Hold). simpl. split; [|eauto].
  split; [exact Hw|]. split; simpl.
  - rewrite length_app. lia.
  - intros l o' Hl. apply lookup_app_l_Some, Hold, Hl.
Qed.

Lemma extends_read_obj (l : loc) : keeps I (read_obj l) (fun _ => True).
Proof. unfold read_obj. keeps_auto. Qed.

Lemma extends_write_obj (l : loc) (o : pyobj) :
  (length h1 <= l)%nat -> keeps I (write_obj l o) (fun _ => True).
Proof.
  intros Hl st (Hw & Hlen & Hold). simpl. split; [|exact Logic.I].
  split; [exact Hw|]. split; simpl.
  - rewrite length_insert. exact Hlen.
  - intros l' o' Hl'. rewrite list_lookup_insert_ne; [apply Hold, Hl'|].
    apply lookup_lt_Some in Hl'. lia.
Qed.

Lemma extends_h_setitem (l : loc) (k : string) (x : pyval) :
  (length h1 <= l)%nat -> keeps I (h_setitem (VRef l) k x) (fun _ => True).
Proof.
  intros Hl. unfold h_setitem.
  eapply keeps_bind; [apply extends_read_obj|]. intros [d|xs] _.
  - apply extends_write_obj, Hl.
  - apply keeps_raise.
Qed.

Lemma extends_append_item (l : loc) (y : pyval) :
  (length h1 <= l)%nat -> keeps I (append_item l y) (fun _ => True).
Proof.
  intros Hl. unfold append_item.
  eapply keeps_bind; [apply extends_read_obj|]. intros [d|xs] _.
  - apply keeps_raise.
  - apply extends_write_obj, Hl.
Qed.

Lemma extends_copy_list (dc : pyval -> memo -> M (pyval * memo)) (l : loc)
  (xs : list pyval) (mm : memo) :
  (length h1 <= l)%nat ->
  (forall v mm', keeps I (dc v mm') (fun _ => True)) ->
  keeps I (copy_list dc l xs mm) (fun _ => True).
Proof.
  intros Hl Hdc. revert mm. induction xs as [|x xs IH]; intros mm; simpl.
  - apply keeps_ret. exact Logic.I.
  - eapply keeps_bind; [apply Hdc|]. intros [y mm1] _.
    eapply keeps_bind; [apply extends_append_item, Hl|]. intros _ _. apply IH.
Qed.

Lemma extends_copy_dict (dc : pyval -> memo -> M (pyval * memo)) (l : loc)
  (d : list (string * pyval)) (mm : memo) :
  (length h1 <= l)%nat ->
  (forall v mm', keeps I (dc v mm') (fun _ => True)) ->
  keeps I (copy_dict dc l d mm) (fun _ => True).
Proof.
  intros Hl Hdc. revert mm. induction d as [|[k x] d IH]; intros mm; simpl.
  - apply keeps_ret. exact Logic.I.
  - eapply keeps_bind; [apply Hdc|]. intros [y mm1] _.
    eapply keeps_bind; [apply extends_h_setitem, Hl|]. intros _ _. apply IH.
Qed.

(** A copy writes into the objects that it creates only. *)
Lemma extends_deepcopy_memo (fuel : nat) (v : pyval) (mm : memo) :
  keeps I (deepcopy_memo fuel v mm) (fun _ => True).
Proof.
  revert v mm. induction fuel as [|fuel IH]; intros v mm;
    destruct v as [| | | | |l]; simpl;
    try (apply keeps_ret; exact Logic.I).
  - destruct (dict_get l mm); [apply keeps_ret; exact Logic.I|apply keeps_raise].
  - destruct (dict_get l mm); [apply keeps_ret; exact Logic.I|].
    eapply keeps_bind; [apply extends_read_obj|]. intros [d|xs] _.
    + eapply keeps_bind; [apply extends_alloc|]. intros y (l' & -> & Hl').
      eapply keeps_bind; [apply extends_copy_dict; [exact Hl'|apply IH]|].
      intros mm' _. apply keeps_ret. exact Logic.I.
    + eapply keeps_bind; [apply extends_alloc|]. intros y (l' & -> & Hl').
      eapply keeps_bind; [apply extends_copy_list; [exact Hl'|apply IH]|].
      intros mm' _. apply keeps_ret. exact Logic.I.
Qed.

End Extends.

Section Without.
Context (k : string) (l : loc) (w : world).

Local Abbreviation J := (holds_without k l w).

(** What keeps every store that it finds keeps the dictionary at [l]. *)
Lemma holds_without_of_extends {A} (m : M A) (Q : A -> Prop) :
  (forall h1 w1, keeps (extends h1 w1) m Q) -> keeps J m Q.
Proof.
  intros Hm st (Hw & d & Hl & Hd).
  specialize (Hm (st_heap st) (st_world st) st (extends_refl st)).
  destruct (m st) as [[a|e] st'].
  - destruct Hm as [(Hw' & _ & Hold) HQ]. split; [|exact HQ].
    split; [congruence|]. exists d. auto.
  - destruct Hm as (Hw' & _ & Hold). split; [congruence|]. exists d. auto.
Qed.

Lemma holds_without_h_setitem (v : pyval) (k' : string) (x : pyval) :
  k' <> k -> keeps J (h_setitem v k' x) (fun _ => True).
Proof.
  intros Hk st (Hw & d & Hl & Hd).
  destruct v as [| | | | |l0]; try (split; [exact Hw|eauto]).
  cbv beta iota delta
    [h_setitem bindM read_obj get_heap write_obj put_heap retM raiseM].
  destruct (st_heap st !! l0) as [[d0|xs]|] eqn:Hl0;
    try (split; [exact Hw|eauto]).
  split; [|exact Logic.I]. split; [exact Hw|]. simpl.
  destruct (decide (l0 = l)) as [->|Hne].
  - exists (dict_set k' x d0). split.
    + apply list_lookup_insert_eq. apply lookup_lt_Some in Hl. exact Hl.
    + assert (d0 = d) as -> by congruence.
      unfold dict_has in *. rewrite dict_get_set_ne by exact Hk. exact Hd.
  - exists d. split; [|exact Hd]. rewrite list_lookup_insert_ne by exact Hne.
    exact Hl.
Qed.

Lemma holds_without_h_getitem (v : pyval) (k' : string) :
  keeps J (h_getitem v k') (fun _ => True).
Proof. unfold h_getitem, read_obj. keeps_auto. Qed.

Lemma holds_without_h_contains :
  keeps J (h_contains k (VRef l)) (fun present => present = false).
Proof.
  intros st (Hw & d & Hl & Hd).
  cbv beta iota delta [h_contains bindM read_obj get_heap retM raiseM].
  rewrite Hl. split; [|exact Hd]. split; [exact Hw|eauto].
Qed.

Lemma holds_without_copy_dict (dc : pyval -> memo -> M (pyval * memo))
  (d : list (string * pyval)) (mm : memo) :
  (forall h1 w1 v mm', keeps (extends h1 w1) (dc v mm') (fun _ => True)) ->
  dict_has k d = false ->
  keeps J (copy_dict dc l d mm) (fun _ => True).
Proof.
  intros Hdc. revert mm.
  induction d as [|[k' x] d IH]; intros mm Hd; cbn [copy_dict].
  - apply keeps_ret. exact Logic.I.
  - unfold dict_has in Hd. simpl in Hd.
    destruct (decide (k = k')) as [->|Hne]; [discriminate|].
    eapply keeps_bind;
      [apply holds_without_of_extends; intros; apply Hdc|]. intros [y mm1] _.
    eapply keeps_bind; [apply holds_without_h_setitem; congruence|].
    intros _ _. apply IH. exact Hd.
Qed.

End Without.

(** The copy of a dictionary without the key [k] is a dictionary without
    the key [k]. *)
Lemma deepcopy_without (k : string) (l : loc) (w : world) :
  triple (holds_without k l w) (deepcopy (VRef l))
    (fun y st => exists l', y = VRef l' /\ holds_without k l' w st)
    (fun st => st_world st = w).
Proof.
  intros st (Hw & d & Hl & Hd).
  pose proof (holds_without_copy_dict k (length (st_heap st)) w
                (deepcopy_memo (Nat.pred (length (st_heap st)))) d
                [(l, length (st_heap st))]
                (fun h1 w1 v mm' => extends_deepcopy_memo h1 w1 _ v mm') Hd
                (mkState (st_heap st ++ [ODict []]) (st_world st)
                   (clips_manifest st) (comfyui_generation_overall_success st)))
    as Hcopy.
  unfold deepcopy, bindM at 1 2, get_heap, retM at 1. cbn beta iota.
  destruct (length (st_heap st)) as [|fuel] eqn:Hlen.
  { apply lookup_lt_Some in Hl. lia. }
  cbn [deepcopy_memo dict_get]. destruct (decide (l = l)); [clear e|contradiction].
  cbn [Nat.pred] in Hcopy.
  unfold bindM at 1, read_obj, bindM at 1, get_heap. cbn beta iota.
  rewrite Hl. unfold retM at 1. cbn beta iota.
  unfold bindM at 1, alloc, bindM at 1 2, get_heap, put_heap, retM at 1.
  cbn beta iota. cbn [st_heap]. rewrite Hlen.
  unfold bindM at 1.
  match type of Hcopy with
  | ?P -> _ => assert P as HP
  end.
  { split; [exact Hw|]. exists []. split; [|reflexivity]. simpl.
    rewrite <- Hlen. apply list_lookup_middle. reflexivity. }
  specialize (Hcopy HP).
  destruct (copy_dict _ _ _ _ _) as [[mm'|e] st'].
  - destruct Hcopy as [HJ _]. simpl. eauto.
  - destruct Hcopy as [Hw' _]. exact Hw'.
Qed.

Lemma triple_weaken {A} (P : state -> Prop) (m : M A)
  (Q Q' : A -> state -> Prop) (E E' : state -> Prop) :
  triple P m Q E ->
  (forall a st, Q a st -> Q' a st) -> (forall st, E st -> E' st) ->
  triple P m Q' E'.
Proof.
  intros Hm HQ HE st HP. specialize (Hm st HP).
  destruct (m st) as [[a|e] st']; auto.
Qed.

Lemma triple_of_ref {B} (P : loc -> state -> Prop) (k : pyval -> M B)
  (Q : B -> state -> Prop) (E : state -> Prop) :
  (forall l, triple (P l) (k (VRef l)) Q E) ->
  forall y, triple (fun st => exists l, y = VRef l /\ P l st) (k y) Q E.
Proof. intros Hk y st (l & -> & HP). apply (Hk l st HP). Qed.

Lemma draw_of_the_seed (k : string) (l : loc) (w0 : world) :
  triple (holds_without k l w0) (world_op randint)
    (fun _ st => holds_without k l (snd (randint w0)) st)
    (nothing_sent w0).
Proof.
  intros st (Hw & Hd). unfold world_op. rewrite Hw.
  destruct (randint w0) as [seed w1]. split; [reflexivity|exact Hd].
Qed.

Ltac reads_or_edits :=
  eapply triple_after with (P := fun _ => True);
    [first [ apply holds_without_h_getitem
           | apply holds_without_h_setitem; discriminate
           | apply keeps_liftR; intros; exact Logic.I ]
    |intros ? [Hw _]; first [left; exact Hw|right; exact Hw]
    |intros ? _].

Lemma triple_pre {A} (P P' : state -> Prop) (m : M A)
  (Q : A -> state -> Prop) (E : state -> Prop) :
  (forall st, P st -> P' st) -> triple P' m Q E -> triple P m Q E.
Proof. intros HP Hm st Hst. apply (Hm st (HP st Hst)). Qed.

Lemma holds_dict_h_truthy (l : loc) (d : list (string * pyval)) (w : world) :
  keeps (holds_dict l d w) (h_truthy (VRef l))
    (fun loaded => loaded = match d with [] => false | _ => true end).
Proof.
  intros st [Hw Hl].
  cbv beta iota delta [h_truthy bindM read_obj get_heap retM raiseM].
  rewrite Hl. split; [split; assumption|reflexivity].
Qed.

(** With a template that has no save node the client queues nothing. *)
Lemma run_without_save_node (text : pyval) (l : loc) (prefix : string)
  (frames width height : json) (d : list (string * pyval)) (w0 : world) :
  dict_has SAVE_MP4_NODE_ID d = false ->
  triple (holds_dict l d w0)
    (run_comfyui_video_generation text (VRef l) prefix frames width height)
    (fun r st => r = failed (refusal d) /\ nothing_sent w0 st)
    (nothing_sent w0).
Proof.
  intros Hd. unfold run_comfyui_video_generation.
  eapply triple_after;
    [apply holds_dict_h_truthy|intros ? [Hw _]; left; exact Hw|].
  intros loaded ->. destruct d as [|kv d].
  { intros st [Hw _]. simpl. split; [reflexivity|left; exact Hw]. }
  cbn [negb]. cbv iota.
  eapply triple_bind;
    [eapply triple_pre;
       [|eapply triple_weaken;
           [apply (deepcopy_without SAVE_MP4_NODE_ID l w0)
           |intros a st Ha; exact Ha
           |intros st Hw; left; exact Hw]]|].
  { intros st [Hw Hl]. split; [exact Hw|eauto]. }
  apply (triple_of_ref (fun lw => holds_without SAVE_MP4_NODE_ID lw w0)).
  intros lw.
  repeat reads_or_edits.
  eapply triple_bind; [apply draw_of_the_seed|]. intros new_seed. cbv beta.
  repeat reads_or_edits.
  eapply triple_after;
    [apply holds_without_h_contains|intros ? [Hw _]; right; exact Hw|].
  intros present ->. intros st [Hw _]. simpl.
  split; [reflexivity|right; exact Hw].
Qed.

(** When the workflow template has no save node, the render client
    contacts nobody: it posts no job and asks for no history.  It returns
    [ERROR_SAVE_MP4_NODE_MISSING_IN_WORKFLOW] (for an empty template,
    [ERROR_WORKFLOW_NOT_LOADED]) or raises on one of its edits, and the only
    thing it has done to the world is the draw of the seed, if it came that
    far. *)
Theorem missing_save_node_queues_nothing (text : pyval) (l : loc)
  (prefix : string) (frames width height : json) (st : state)
  (d : list (string * pyval)) :
  st_heap st !! l = Some (ODict d) ->
  dict_has SAVE_MP4_NODE_ID d = false ->
  match run_comfyui_video_generation text (VRef l) prefix frames width height st
  with
  | (Ok r, st') => r = failed (refusal d) /\ nothing_sent (st_world st) st'
  | (Raise _, st') => nothing_sent (st_world st) st'
  end.
Proof.
  intros Hl Hd.
  apply (run_without_save_node text l prefix frames width height d
           (st_world st) Hd st).
  split; [reflexivity|exact Hl].
Qed.

Lemma keeps_and {A} (I1 I2 : state -> Prop) (m : M A) (Q1 Q2 Q3 : A -> Prop) :
  keeps I1 m Q1 -> keeps I2 m Q2 ->
  (forall st, I1 st ->
     match m st with (Ok a, _) => Q3 a | (Raise _, _) => True end) ->
  keeps (fun st => I1 st /\ I2 st) m Q3.
Proof.
  intros H1 H2 H3 st [Hst1 Hst2].
  specialize (H1 st Hst1). specialize (H2 st Hst2). specialize (H3 st Hst1).
  destruct (m st) as [[a|e] st']; [|auto]. destruct H1, H2. auto.
Qed.

Section Stage2.
Context (h0 : heap) (l : loc) (d : list (string * pyval)).
Context (Hl : h0 !! l = Some (ODict d)).
Context (Hd : dict_has SAVE_MP4_NODE_ID d = false).

(** The template is as it was, and every job so far was turned down. *)
Local Abbreviation J :=
  (fun st => frame h0 st /\ all_refused d (clips_manifest st)).

Lemma refused_ignores : ignores_world J /\ ignores_flag J.
Proof. split; intros st ? Hst; exact Hst. Qed.

Lemma refused_load (j : json) : keeps J (load j) (fun _ => True).
Proof.
  apply keeps_and with (Q1 := fresh (length h0)) (Q2 := fun _ => True).
  - apply frame_load.
  - apply keeps_load. intros st ? Hst. exact Hst.
  - intros st _. destruct (load j st) as [[a|e] st']; exact Logic.I.
Qed.

Lemma refused_run (text : pyval) (prefix : string) (frames width height : json) :
  keeps J (run_comfyui_video_generation text (VRef l) prefix frames width height)
    (fun r => r = failed (refusal d)).
Proof.
  apply keeps_and with (Q1 := fun _ => True)
                       (Q2 := fun r => client_status (gr_status r)).
  - apply frame_run_comfyui_video_generation.
  - apply keeps_run_comfyui_video_generation; intros st ? Hst; exact Hst.
  - intros st (_ & Hold & _).
    pose proof (run_without_save_node text l prefix frames width height d
                  (st_world st) Hd st (conj eq_refl (Hold l _ Hl))) as Hrun.
    destruct (run_comfyui_video_generation _ _ _ _ _ _ st) as [[r|e] st'];
      [apply Hrun|exact Logic.I].
Qed.

Lemma refused_append (e : clip_entry) :
  status e = SKIPPED_NO_PROMPT \/ status e = refusal d /\ mp4_path e = None ->
  keeps J (append_manifest e) (fun _ => True).
Proof.
  intros He st [Hf Hm]. simpl. split; [|exact Logic.I]. split; [exact Hf|].
  apply Forall_app. split; [exact Hm|]. constructor; [exact He|constructor].
Qed.

Lemma refusal_is_no_success : refusal d <> SUCCESS.
Proof. destruct d; discriminate. Qed.

Lemma refused_process_item (i : nat) (item : json) :
  keeps J (process_item (VRef l) i item) (fun _ => True).
Proof.
  destruct refused_ignores as [HW HF].
  unfold process_item.
  do 2 (eapply keeps_bind with (P := fun _ => True); [keeps_auto|]; intros ? _).
  destruct (truthy _); simpl.
  2:{ apply refused_append. left. reflexivity. }
  do 5 (eapply keeps_bind with (P := fun _ => True); [keeps_auto|]; intros ? _).
  eapply keeps_bind; [apply refused_load|]. intros prompt_value _.
  eapply keeps_bind; [apply refused_run|]. intros r ->.
  cbn [gr_status failed].
  destruct (decide (refusal d = SUCCESS)) as [Hs|_];
    [destruct (refusal_is_no_success Hs)|].
  eapply keeps_bind with
    (P := fun o : status_code * option json * option string =>
            o = (refusal d, None, None)).
  - eapply keeps_bind with (P := fun _ => True); [keeps_auto|]. intros _ _.
    apply keeps_ret. reflexivity.
  - intros o ->. apply refused_append. right. split; reflexivity.
Qed.

Lemma refused_stage2_loop (i : nat) (content_items : list json) :
  keeps J (stage2_loop (VRef l) i content_items) (fun _ => True).
Proof.
  revert i. induction content_items as [|item rest IH]; intros i; simpl.
  - apply keeps_ret. exact Logic.I.
  - eapply keeps_bind; [apply refused_process_item|]. intros _ _. apply IH.
Qed.

End Stage2.


End Facts.

Import Script.


(** C4: the code at the failing input.  The template has the nodes that the
    client edits and no save node, and there are two content items.  The
    client prints "FATAL ERROR in workflow" for the first item and returns
    a status; stage 2 records it as it records the failure of one job and
    goes on to the second item, for which the client is called again (it
    draws the second seed) and turned down again.  Stage 2 returns with
    two entries: the run has not ended, where the checks that print
    "FATAL ERROR" before stage 1 end it with [exit()]. *)
Lemma missing_save_node_does_not_end_the_run :
  fst (stage2 (VRef bare_template_loc) [item 1 "a cat"; item 2 "a dog"]
         bare_state_with_seeds) = Ok tt /\
  map (fun e => (clip_order e, status e))
    (clips_manifest
       (snd (stage2 (VRef bare_template_loc) [item 1 "a cat"; item 2 "a dog"]
               bare_state_with_seeds))) =
    [(0%nat, ERROR_SAVE_MP4_NODE_MISSING_IN_WORKFLOW);
     (1%nat, ERROR_SAVE_MP4_NODE_MISSING_IN_WORKFLOW)] /\
  sw_seeds (st_world bare_state_with_seeds) = [7; 9] /\
  st_world
    (snd (stage2 (VRef bare_template_loc) [item 1 "a cat"; item 2 "a dog"]
            bare_state_with_seeds)) = quiet_world.
Proof. vm_compute. repeat split; reflexivity. Qed.

Lemma missing_save_node_queues_nothing_witness :
  match run_comfyui_video_generation (VStr "a cat") (VRef bare_template_loc)
          "narrativegen_clip_0001_" (JInt 33) (JInt 832) (JInt 480) bare_state
  with
  | (Ok r, st') =>
      r = failed (refusal bare_template) /\
      nothing_sent (st_world bare_state) st'
  | (Raise _, st') => nothing_sent (st_world bare_state) st'
  end.
Proof.
  apply (missing_save_node_queues_nothing (VStr "a cat") bare_template_loc
           "narrativegen_clip_0001_" (JInt 33) (JInt 832) (JInt 480)
           bare_state bare_template); reflexivity.
Defined.

End SaveNodeFacts.

(** ** The end of the polling *)

Module VerdictFacts.
Import Py Video Spec PollFacts.

Section Facts.
Context `{Env}.

(** The polling ends at the first reply on which an iteration returns.
    When each of the first [k] replies shows no outputs for the job, in the
    sense of [no_outputs_yet] (so that the status line of a running job can
    be read and written), and an iteration on the next reply returns [r],
    the client returns [r] after [k + 1] history requests: the replies that
    the server would give later are not asked for.  The job id is any JSON
    value. *)
Theorem poll_returns_first_verdict (n k attempt : nat) (prompt_id : json)
  (st : state) (r : gen_result) :
  (k < n)%nat ->
  Forall (fun reply => no_outputs_yet prompt_id reply = true)
    (history_replies k prompt_id (st_world st)) ->
  poll_step (attempt + k) prompt_id
    (reply_after k prompt_id (st_world st)) = Ok (Some r) ->
  poll n attempt prompt_id st =
  (Ok r, put_world (world_after_requests (S k) prompt_id (st_world st)) st).
Proof.
  revert n attempt st. induction k as [|k IH]; intros n attempt st Hk Hall Hr.
  - destruct n as [|n]; [lia|]. rewrite poll_unfold.
    unfold reply_after in Hr. simpl in Hr. simpl.
    destruct (fetch_history prompt_id (st_world st)) as [reply w'].
    simpl in Hr. rewrite Nat.add_0_r in Hr. rewrite Hr. reflexivity.
  - destruct n as [|n]; [lia|]. rewrite poll_unfold.
    unfold reply_after in Hr. simpl in Hr, Hall.
    change (world_after_requests (S (S k)) prompt_id (st_world st))
      with (world_after_requests (S k) prompt_id
              (snd (fetch_history prompt_id (st_world st)))).
    destruct (fetch_history prompt_id (st_world st)) as [reply w'].
    inversion Hall as [|? ? Hreply Hrest]; subst.
    rewrite (no_outputs_yet_continues _ _ _ Hreply).
    assert (poll_step (S attempt + k) prompt_id
              (reply_after k prompt_id (st_world (put_world w' st))) =
            Ok (Some r)) as Hr'.
    { replace (S attempt + k)%nat with (attempt + S k)%nat by lia. exact Hr. }
    rewrite (IH n (S attempt) (put_world w' st) ltac:(lia) Hrest Hr').
    reflexivity.
Qed.

End Facts.

Import Script.

Lemma poll_returns_first_verdict_witness :
  poll max_poll_attempts 0 (JStr "p1") (start world_after_two_polls) =
  (Ok rendered,
   put_world (world_after_requests 3 (JStr "p1") world_after_two_polls)
     (start world_after_two_polls)).
Proof.
  apply (poll_returns_first_verdict max_poll_attempts 2 0 (JStr "p1")
           (start world_after_two_polls) rendered).
  - unfold max_poll_attempts. lia.
  - vm_compute. repeat constructor.
  - vm_compute. reflexivity.
Defined.

End VerdictFacts.

(** ** The file names as a contract between the scripts *)

Module ContractFacts.
Import Py Combine Video Naming PairingSpec NamingFacts PairingFacts.

Lemma format_04d_read_back_all : all_below read_back (Z.to_nat 10000) = true.
Proof. vm_compute. reflexivity. Qed.

Lemma format_04d_read_back (n : Z) (s : string) :
  0 <= n < 10000 -> format_04d (JInt n) = Ok s -> number_of s = Some n.
Proof.
  intros Hn Hs.
  pose proof (all_below_spec _ _ (Z.to_nat n) format_04d_read_back_all) as Hall.
  unfold read_back in Hall. rewrite Z2Nat.id in Hall by lia. rewrite Hs in Hall.
  eapply bool_decide_eq_true_1, Hall. lia.
Qed.

(** Two identifiers that [:04d] writes alike are the same. *)
Lemma format_04d_inj (n n' : Z) (s : string) :
  0 <= n < 10000 -> 0 <= n' < 10000 ->
  format_04d (JInt n) = Ok s -> format_04d (JInt n') = Ok s -> n = n'.
Proof.
  intros Hn Hn' Hs Hs'.
  pose proof (format_04d_read_back n s Hn Hs) as H1.
  pose proof (format_04d_read_back n' s Hn' Hs') as H2. congruence.
Qed.

(** The names of an item and their indices. *)
Lemma item_names (n : Z) (counter : string) :
  0 <= n < 10000 -> all_digits counter = true -> counter <> "" ->
  exists s w m,
    format_04d (JInt n) = Ok s /\
    narration_file_name (JInt n) = Ok w /\
    clip_file_name (JInt n) counter = Ok m /\
    pair_of_item (JInt n) counter =
      Ok {| p_idx := Some s; p_wav := w; p_mp4 := m |} /\
    index_from w wav_pat = Some s /\ index_from m mp4_pat = Some s.
Proof.
  intros Hn Hc Hne. destruct (format_04d_small n Hn) as (s & Hs & H4).
  destruct (four_digits_inv s H4) as (a & b & c & d & -> & Ha & Hb & Hc' & Hd).
  unfold pair_of_item, clip_file_name, output_prefix_for_comfy,
    narration_file_name. rewrite Hs. cbn [mbind res_bind].
  eexists _, _, _. split; [reflexivity|]. split; [reflexivity|].
  split; [reflexivity|]. split; [reflexivity|].
  split; [apply wav_index_of_digits; assumption|].
  pose proof (mp4_index_of_digits a b c d counter Ha Hb Hc' Hd Hc Hne) as Hi.
  push_append. push_append. revert Hi. push_append. auto.
Qed.

(** The four scripts agree on the names.  Take content items with
    identifiers from 0 to 9999; let the narration directory hold the files
    that the narration scripts write for them and the clip directory the
    files that the save node writes under the prefixes of stage 2, in
    whatever order the directories list them.  Then the combining script
    goes through the items once each, in ascending order of the four-digit
    index, and joins the narration of an item with the clip of the same
    item. *)
Theorem narrations_and_clips_pair_up (ids : list Z) (counter : Z -> string)
  (wav_files mp4_files : list string) :
  ids <> [] ->
  (forall n, In n ids -> 0 <= n < 10000) ->
  (forall n, In n ids -> all_digits (counter n) = true /\ counter n <> "") ->
  (forall f, In f wav_files <->
             exists n, In n ids /\ narration_file_name (JInt n) = Ok f) ->
  (forall f, In f mp4_files <->
             exists n, In n ids /\ clip_file_name (JInt n) (counter n) = Ok f) ->
  exists ps,
    pairings wav_files mp4_files = Ok ps /\
    (forall p, In p ps <->
               exists n, In n ids /\ pair_of_item (JInt n) (counter n) = Ok p) /\
    exists idxs, map p_idx ps = map Some idxs /\ Sorted id_lt idxs.
Proof.
  intros Hne Hrange Hcounter Hwav Hmp4.
  assert (forall n, In n ids ->
            exists s w m,
              format_04d (JInt n) = Ok s /\
              narration_file_name (JInt n) = Ok w /\
              clip_file_name (JInt n) (counter n) = Ok m /\
              pair_of_item (JInt n) (counter n) =
                Ok {| p_idx := Some s; p_wav := w; p_mp4 := m |} /\
              index_from w wav_pat = Some s /\ index_from m mp4_pat = Some s)
    as Hnames.
  { intros n Hn. destruct (Hcounter n Hn) as [Hc Hcne].
    apply item_names; auto. }
  assert (unindexed_on_one_side_only wav_files mp4_files) as Hside.
  { intros w m Hw _ Hiw _. apply Hwav in Hw as (n & Hn & Hnw).
    destruct (Hnames n Hn) as (s & w' & m' & _ & Hw' & _ & _ & Hi & _).
    congruence. }
  pose proof (pairings_of_indexed wav_files mp4_files Hside) as Hp.
  unfold pairs_the_common_ids in Hp.
  assert (forall n, In n ids ->
            exists s, format_04d (JInt n) = Ok s /\
                      in_both wav_files mp4_files s) as Hboth.
  { intros n Hn. destruct (Hnames n Hn) as (s & w & m & Hs & Hw & Hm & _ & Hiw & Him).
    exists s. split; [exact Hs|]. split.
    - exists w. split; [apply Hwav; eauto|exact Hiw].
    - exists m. split; [apply Hmp4; eauto|exact Him]. }
  destruct (pairings wav_files mp4_files) as [ps|e].
  2:{ destruct Hp as [_ Hnone]. destruct ids as [|n ids]; [contradiction|].
      destruct (Hboth n) as (s & _ & Hs); [left; reflexivity|].
      destruct (Hnone s Hs). }
  destruct Hp as (_ & Hvalid & Hids & Hsorted).
  exists ps. split; [reflexivity|]. split; [|exact Hsorted].
  intros p. split.
  - intros Hin.
    pose proof (proj1 (Forall_forall _ _) Hvalid p
                  (proj2 (list_elem_of_In _ _) Hin))
      as (id & Hid & Hw & Hiw & Hm & Him).
    apply Hwav in Hw as (n1 & Hn1 & Hw1). apply Hmp4 in Hm as (n2 & Hn2 & Hm2).
    destruct (Hnames n1 Hn1) as (s1 & w1 & m1 & Hs1 & Hw1' & _ & _ & Hiw1 & _).
    destruct (Hnames n2 Hn2) as (s2 & w2 & m2 & Hs2 & Hw2' & Hm2' & Hp2 & _ & Him2).
    assert (s1 = id) as -> by congruence.
    assert (s2 = id) as -> by congruence.
    assert (n1 = n2) as ->
      by (apply (format_04d_inj n1 n2 id); auto).
    exists n2. split; [exact Hn2|]. rewrite Hp2. f_equal.
    destruct p as [pi pw pm]. simpl in *. congruence.
  - intros (n & Hn & Hpn).
    destruct (Hnames n Hn) as (s & w & m & Hs & Hw & Hm & Hp' & Hiw & Him).
    destruct (Hboth n Hn) as (s' & Hs' & Hin).
    assert (s' = s) as -> by congruence.
    apply Hids, in_map_iff in Hin as (p' & Hidx & Hin').
    pose proof (proj1 (Forall_forall _ _) Hvalid p'
                  (proj2 (list_elem_of_In _ _) Hin'))
      as (id & Hid & Hw' & Hiw' & Hm' & Him').
    assert (id = s) as -> by congruence.
    apply Hwav in Hw' as (n1 & Hn1 & Hw1). apply Hmp4 in Hm' as (n2 & Hn2 & Hm2).
    destruct (Hnames n1 Hn1) as (s1 & w1 & m1 & Hs1 & Hw1' & _ & _ & Hiw1 & _).
    destruct (Hnames n2 Hn2) as (s2 & w2 & m2 & Hs2 & _ & Hm2' & _ & _ & Him2).
    assert (s1 = s) as -> by congruence.
    assert (s2 = s) as -> by congruence.
    assert (n1 = n) as -> by (apply (format_04d_inj n1 n s); auto).
    assert (n2 = n) as -> by (apply (format_04d_inj n2 n s); auto).
    assert (p = p') as ->; [|exact Hin'].
    destruct p' as [pi pw pm]. simpl in *. congruence.
Qed.

Lemma narrations_and_clips_pair_up_witness :
  exists ps,
    pairings ["clip_0002_narration.wav"; "clip_0001_narration.wav"]
      ["narrativegen_clip_0001__00001.mp4";
       "narrativegen_clip_0002__00001.mp4"] = Ok ps /\
    (forall p, In p ps <->
               exists n, In n [1; 2] /\
                         pair_of_item (JInt n) "00001" = Ok p) /\
    exists idxs, map p_idx ps = map Some idxs /\ Sorted id_lt idxs.
Proof.
  apply (narrations_and_clips_pair_up [1; 2] (fun _ => "00001")).
  - discriminate.
  - intros n [<-|[<-|[]]]; lia.
  - intros n _. split; [reflexivity|discriminate].
  - intros f. split.
    + intros [<-|[<-|[]]]; [exists 2|exists 1]; simpl; auto.
    + intros (n & [<-|[<-|[]]] & [= <-]); simpl; auto.
  - intros f. split.
    + intros [<-|[<-|[]]]; [exists 1|exists 2]; simpl; auto.
    + intros (n & [<-|[<-|[]]] & [= <-]); simpl; auto.
Defined.

End ContractFacts.

(** ** The narration loops and identifiers that cannot be formatted *)

Module NarrationFacts.
Import Py Naming Narration.

Lemma report_error_exits (cid : json) (e : exn) (message : string) :
  match report_error cid e message with
  | Ok done => done = false
  | Raise e' => e' = UnicodeEncodeError \/ is_Exception e' = false
  end.
Proof.
  unfold report_error, say. destruct (is_Exception e) eqn:He.
  - destruct (forallb printable _); simpl; auto.
  - right. exact He.
Qed.

Lemma report_error_returns (cid : json) (e : exn) (message : string) :
  is_Exception e = true -> printable cid = true -> encodable message = true ->
  report_error cid e message = Ok false.
Proof.
  intros He Hc Hm. unfold report_error, say. rewrite He.
  cbn [forallb printable]. rewrite Hc, Hm. reflexivity.
Qed.

Lemma format_error_reportable (cid : json) (e : exn) :
  narration_file_name cid = Raise e ->
  is_Exception e = true /\ encodable (format_error_text cid) = true.
Proof.
  unfold narration_file_name.
  destruct cid; simpl; intros [= <-]; split; reflexivity.
Qed.

Section Facts.
Context `{Voice}.

Lemma commentary_of_plain_item (trim : string -> string) (itm : json) :
  plain_item itm -> exists line, commentary trim itm = Ok line.
Proof.
  intros (d & -> & Hc). unfold commentary. simpl.
  destruct (dict_get "commentary" d) as [v|]; [|eauto].
  destruct Hc as [s ->]. eauto.
Qed.

Lemma clone_try_exits (cid : json) (line : string) (w : vworld) :
  match fst (clone_try cid line w) with
  | Ok _ => True
  | Raise e => e = UnicodeEncodeError \/ is_Exception e = false
  end.
Proof.
  unfold clone_try.
  destruct (generate _ w) as [[wav|e m] w1]; simpl;
    [|pose proof (report_error_exits cid e m) as Hr;
      destruct (report_error cid e m); auto].
  destruct (concatenate_pad wav) as [wav_out|e m]; simpl;
    [|pose proof (report_error_exits cid e m) as Hr;
      destruct (report_error cid e m); auto].
  destruct (narration_file_name cid) as [name|e]; simpl;
    [|pose proof (report_error_exits cid e (format_error_text cid)) as Hr;
      destruct (report_error cid e _); auto].
  destruct (save_audio _ wav_out w1) as [[u|e m] w2]; simpl; [exact I|].
  pose proof (report_error_exits cid e m) as Hr.
  destruct (report_error cid e m); auto.
Qed.

Lemma clone_try_returns (cid : json) (line : string) (w : vworld) :
  raises_reportably -> printable cid = true ->
  exists done, fst (clone_try cid line w) = Ok done.
Proof.
  intros (Hg & Hc & Hs) Hcid. unfold clone_try.
  pose proof (Hg (REF_TRANSCRIPT +:+ newline +:+ line +:+ newline) w) as Hgen.
  destruct (generate _ w) as [[wav|e m] w1]; simpl in *.
  2: { destruct Hgen as [He Hm].
       rewrite (report_error_returns cid e m He Hcid Hm). eauto. }
  pose proof (Hc wav) as Hcat.
  destruct (concatenate_pad wav) as [wav_out|e m]; simpl in *.
  2: { destruct Hcat as [He Hm].
       rewrite (report_error_returns cid e m He Hcid Hm). eauto. }
  destruct (narration_file_name cid) as [name|e] eqn:Hn; simpl.
  2: { destruct (format_error_reportable cid e Hn) as [He Hm].
       rewrite (report_error_returns cid e _ He Hcid Hm). eauto. }
  pose proof (Hs (out_path name) wav_out w1) as Hsave.
  destruct (save_audio _ wav_out w1) as [[u|e m] w2]; simpl in *; [eauto|].
  destruct Hsave as [He Hm].
  rewrite (report_error_returns cid e m He Hcid Hm). eauto.
Qed.

(** The loop of [2JustAudio.py] on a list of items that are objects with a
    string for their commentary, whatever their identifiers are and
    whatever the speech model and the file system do.  An identifier that
    [:04d] cannot format is met inside the [try] block, so that the loop
    either comes to its end, reporting at most one file per item, or is
    left by an exception of one of two kinds: the [UnicodeEncodeError] of
    the print in the [except] clause, or an exception that is not an
    [Exception], which the clause does not catch.  When the calls raise
    only [Exception]s whose text can be printed and the identifiers can be
    printed, the loop comes to its end. *)
Theorem clone_loop_returns (items : list json) (idx ok : nat) (w : vworld) :
  Forall plain_item items ->
  match fst (clone_loop items idx ok w) with
  | Ok ok' => (ok <= ok' <= ok + length items)%nat
  | Raise e => e = UnicodeEncodeError \/ is_Exception e = false
  end /\
  (raises_reportably -> Forall printable_id items ->
   exists ok', fst (clone_loop items idx ok w) = Ok ok').
Proof.
  intros Hitems. revert idx ok w.
  induction Hitems as [|itm rest Hitm _ IH]; intros idx ok w.
  - split; [simpl; lia|]. intros _ _. exists ok. reflexivity.
  - cbn [clone_loop].
    destruct (commentary_of_plain_item rstrip itm Hitm) as [line ->].
    destruct Hitm as (d & -> & _). cbn [py_get].
    destruct (String.eqb line "").
    + destruct (IH (S idx) ok w) as [Hexit Hret]. split.
      * destruct (fst (clone_loop rest (S idx) ok w)); [simpl; lia|exact Hexit].
      * intros Hv Hids. apply Hret; [exact Hv|].
        inversion Hids; assumption.
    + pose proof (clone_try_exits
                    (match dict_get "id" d with
                     | Some v => v
                     | None => JInt (Z.of_nat idx)
                     end) line w) as Htry.
      split.
      * destruct (clone_try _ line w) as [[done|e] w']; simpl in Htry;
          [|exact Htry].
        destruct (IH (S idx) (if done then S ok else ok) w') as [Hexit _].
        destruct (fst (clone_loop rest _ _ w')); [|exact Hexit].
        simpl. destruct done; lia.
      * intros Hv Hids. inversion Hids as [|? ? Hid Hrest]; subst.
        specialize (Hid d eq_refl).
        assert (printable (match dict_get "id" d with
                           | Some v => v
                           | None => JInt (Z.of_nat idx)
                           end) = true) as Hp
          by (destruct (dict_get "id" d); [exact Hid|reflexivity]).
        destruct (clone_try_returns _ line w Hv Hp) as [done Hdone].
        destruct (clone_try _ line w) as [[done'|e] w']; simpl in Hdone;
          [|discriminate].
        destruct (IH (S idx) (if done' then S ok else ok) w') as [_ Hret].
        apply Hret; assumption.
Qed.

(** The loop of [0Findavoice.py] formats the file name before its [try]
    block.  At an item with a commentary that is not blank and an
    identifier that [:04d] cannot format, the loop ends with the exception
    of the format, in the world that the items before have left: nothing is
    generated for the item, and the items after it are not looked at. *)
Theorem default_loop_stops_at_unformattable_id (before after : list json)
  (itm cid : json) (s : string) (e : exn) (idx ok : nat) (w : vworld) :
  py_get itm "id" (JInt (Z.of_nat (idx + length before))) = Ok cid ->
  py_get itm "commentary" (JStr "") = Ok (JStr s) ->
  strip s <> "" ->
  narration_file_name cid = Raise e ->
  default_loop (before ++ itm :: after) idx ok w =
  match default_loop before idx ok w with
  | (Ok _, w') => (Raise e, w')
  | (Raise e', w') => (Raise e', w')
  end.
Proof.
  intros Hid Hc Hs He. revert idx ok w Hid.
  induction before as [|b before IH]; intros idx ok w Hid.
  - simpl in *. rewrite Nat.add_0_r in Hid. rewrite Hid.
    unfold commentary. rewrite Hc. simpl.
    destruct (String.eqb_spec (strip s) ""); [contradiction|].
    rewrite He. reflexivity.
  - cbn [app default_loop].
    destruct (py_get b "id" _) as [bid|eb]; [|reflexivity].
    destruct (commentary strip b) as [text|eb]; [|reflexivity].
    assert (py_get itm "id" (JInt (Z.of_nat (S idx + length before))) = Ok cid)
      as Hid' by (rewrite <- Hid; do 3 f_equal; simpl; lia).
    destruct (String.eqb text "").
    { destruct (say [bid]); [apply IH, Hid'|reflexivity]. }
    destruct (narration_file_name bid) as [file_name|eb]; [|reflexivity].
    destruct (default_try bid file_name text w) as [[done|eb] w'];
      [apply IH, Hid'|reflexivity].
Qed.

End Facts.

Lemma script_voice_raises_reportably : raises_reportably.
Proof. repeat split. Qed.

Lemma clone_loop_returns_witness :
  match fst (clone_loop items_with_a_string_id 1 0 silence) with
  | Ok ok' => (0 <= ok' <= 0 + length items_with_a_string_id)%nat
  | Raise e => e = UnicodeEncodeError \/ is_Exception e = false
  end /\
  (raises_reportably -> Forall printable_id items_with_a_string_id ->
   exists ok', fst (clone_loop items_with_a_string_id 1 0 silence) = Ok ok').
Proof.
  apply (clone_loop_returns items_with_a_string_id 1 0 silence).
  repeat constructor; eexists; (split; [reflexivity|]); simpl; eauto.
Defined.

Lemma default_loop_stops_at_unformattable_id_witness :
  default_loop items_with_a_string_id 1 0 silence =
  (Raise ValueError,
   ["sound_outputs/individual_narrations/clip_0001_narration.wav"]).
Proof.
  apply (default_loop_stops_at_unformattable_id
           [JDict [("id", JInt 1); ("commentary", JStr "[S1] One.")]]
           [JDict [("id", JInt 3); ("commentary", JStr "[S1] Three.")]]
           (JDict [("id", JStr "two"); ("commentary", JStr "[S1] Two.")])
           (JStr "two") "[S1] Two." ValueError 1 0 silence).
  - reflexivity.
  - reflexivity.
  - discriminate.
  - reflexivity.
Defined.

End NarrationFacts.
